(** * ZOF polynomial root finder: the web engine (app.py) and the terminal
      engine (ZOF_CLI.py), embedded and checked against their specification.

    Both engines work on Python floats.  The embedding keeps the arithmetic
    behind one interface, [PyNum], with two instances:
    - [binary64]: IEEE 754 doubles, the values the code computes with;
    - [exact]: rationals, the real-number reading of the specification.
    Every statement that only depends on how the loops branch is proved for
    an arbitrary instance, hence for both.  The statements on bracket widths
    are facts of real arithmetic and are proved for [exact]. *)

From Stdlib Require Import ZArith QArith Qabs Floats List String Bool Lia Lqa.
Import ListNotations.

Set Implicit Arguments.

(** ** Numbers *)

(** What the code asks of a float: the literals it converts from [int], the
    four operations, [abs] and the three comparisons it branches on. *)
Class PyNum (F : Type) : Type := {
  of_int : Z -> F;
  fadd : F -> F -> F;
  fsub : F -> F -> F;
  fmul : F -> F -> F;
  fquot : F -> F -> F;
  fabs : F -> F;
  flt : F -> F -> bool;
  fge : F -> F -> bool;
  feq : F -> F -> bool
}.

Declare Scope py_scope.
Delimit Scope py_scope with py.
Infix "+" := fadd : py_scope.
Infix "-" := fsub : py_scope.
Infix "*" := fmul : py_scope.
Infix "<" := flt : py_scope.
Infix ">=" := fge : py_scope.
Infix "==" := feq (at level 70, no associativity) : py_scope.

(** Rounds an integer to the nearest double, as [float(n)] does. *)
Definition Z2float (z : Z) : float :=
  SF2Prim (binary_normalize prec emax z 0 false).

#[global] Instance binary64 : PyNum float := {
  of_int := Z2float;
  fadd := PrimFloat.add;
  fsub := PrimFloat.sub;
  fmul := PrimFloat.mul;
  fquot := PrimFloat.div;
  fabs := PrimFloat.abs;
  flt := PrimFloat.ltb;
  fge := fun x y => PrimFloat.leb y x;
  feq := PrimFloat.eqb
}.

#[global] Instance exact : PyNum Q := {
  of_int := inject_Z;
  fadd := Qplus;
  fsub := Qminus;
  fmul := Qmult;
  fquot := Qdiv;
  fabs := Qabs;
  flt := fun x y => negb (Qle_bool y x);
  fge := fun x y => Qle_bool y x;
  feq := Qeq_bool
}.

(** ** Python values, exceptions and dictionaries *)

Inductive exn : Type :=
| ZeroDivisionError
| IndexError
| KeyError (key : string)
| UnboundLocalError (name : string).

Inductive result (A : Type) : Type :=
| Ok (a : A)
| Raise (e : exn).
Arguments Ok {A} a.
Arguments Raise {A} e.

(** [str(e)], as CPython 3.12 words it. *)
Definition exn_str (e : exn) : string :=
  match e with
  | ZeroDivisionError => "float division by zero"
  | IndexError => "list index out of range"
  | KeyError k => "'" ++ k ++ "'"
  | UnboundLocalError n =>
      "cannot access local variable '" ++ n ++ "' where it is not associated with a value"
  end.

Section Engine.

Context {F : Type} {num : PyNum F}.

Local Open Scope py_scope.

(** [x / y] on floats raises when [y == 0]. *)
Definition py_div (x y : F) : result F :=
  if y == of_int 0 then Raise ZeroDivisionError else Ok (fquot x y).

(** A cell of a table row: the iteration counter is an [int], the rest are
    floats. *)
Inductive value : Type :=
| VInt (n : Z)
| VFloat (x : F).

(** A [dict] with string keys, in insertion order. *)
Definition dict : Type := list (string * value).

Fixpoint dict_get (k : string) (d : dict) : option value :=
  match d with
  | [] => None
  | (k', v) :: d' => if String.eqb k k' then Some v else dict_get k d'
  end.

Fixpoint dict_set (k : string) (v : value) (d : dict) : dict :=
  match d with
  | [] => [(k, v)]
  | (k', v') :: d' =>
      if String.eqb k k' then (k', v) :: d' else (k', v') :: dict_set k v d'
  end.

(** [d.update(u)] *)
Definition dict_update (d u : dict) : dict :=
  fold_left (fun acc kv => dict_set (fst kv) (snd kv) acc) u d.

(** ** Helper functions shared by the two files *)

(** [eval_poly]: Horner's method, from [result = 0.0]. *)
Definition eval_poly (coeffs : list F) (x : F) : F :=
  fold_left (fun result c => result * x + c) coeffs (of_int 0).

(** The loop of [get_poly_derivative], [for i in range(n)], at index [i] and
    with [todo] indices left. *)
Fixpoint deriv_loop (coeffs : list F) (n : Z) (todo : nat) (i : Z)
    (deriv : list F) : list F :=
  match todo with
  | O => deriv
  | S todo' =>
      let power := (n - i)%Z in
      let c := nth (Z.to_nat i) coeffs (of_int 0) in
      deriv_loop coeffs n todo' (i + 1)%Z (deriv ++ [c * of_int power])
  end.

Definition get_poly_derivative (coeffs : list F) : list F :=
  let n := (Z.of_nat (List.length coeffs) - 1)%Z in
  if (n <? 1)%Z then [of_int 0]
  else deriv_loop coeffs n (Z.to_nat n) 0%Z [].

(** ** The web engine: [solve_method] of app.py *)

(** The variables of [solve_method] that the loop reads and writes.  [i] is
    the loop variable, unbound until the loop body runs once.  ([curr_b] is
    assigned once and never read.) *)
Record locals : Type := mkLocals {
  iterations : list dict;
  root : option value;
  converged : bool;
  error_msg : option string;
  x0 : F;
  x1 : F;
  curr_x : F;
  prev_x : F;
  i : option Z
}.

Definition set_iterations v (s : locals) :=
  mkLocals v (root s) (converged s) (error_msg s) (x0 s) (x1 s) (curr_x s) (prev_x s) (i s).
Definition set_root v (s : locals) :=
  mkLocals (iterations s) v (converged s) (error_msg s) (x0 s) (x1 s) (curr_x s) (prev_x s) (i s).
Definition set_converged v (s : locals) :=
  mkLocals (iterations s) (root s) v (error_msg s) (x0 s) (x1 s) (curr_x s) (prev_x s) (i s).
Definition set_error_msg v (s : locals) :=
  mkLocals (iterations s) (root s) (converged s) v (x0 s) (x1 s) (curr_x s) (prev_x s) (i s).
Definition set_x0 v (s : locals) :=
  mkLocals (iterations s) (root s) (converged s) (error_msg s) v (x1 s) (curr_x s) (prev_x s) (i s).
Definition set_x1 v (s : locals) :=
  mkLocals (iterations s) (root s) (converged s) (error_msg s) (x0 s) v (curr_x s) (prev_x s) (i s).
Definition set_curr_x v (s : locals) :=
  mkLocals (iterations s) (root s) (converged s) (error_msg s) (x0 s) (x1 s) v (prev_x s) (i s).
Definition set_prev_x v (s : locals) :=
  mkLocals (iterations s) (root s) (converged s) (error_msg s) (x0 s) (x1 s) (curr_x s) v (i s).
Definition set_i v (s : locals) :=
  mkLocals (iterations s) (root s) (converged s) (error_msg s) (x0 s) (x1 s) (curr_x s) (prev_x s) v.

(** [iterations.append(row)] *)
Definition append_row (row : dict) (s : locals) : locals :=
  set_iterations (iterations s ++ [row]) s.

(** The two blocks the methods end a test with:
    - [error_msg = m; break]
    - [root = x; converged = True; iterations.append(row); break]. *)
Definition fail_with (m : string) (s : locals) : locals :=
  set_error_msg (Some m) s.

Definition converge_at (x : F) (row : dict) (s : locals) : locals :=
  append_row row (set_converged true (set_root (Some (VFloat x)) s)).

(** How one pass through the [try] block ends: at a [break], at the end of
    the [if]/[elif] chain (then [iterations.append(row)] runs), or with an
    exception for the [except] clause. *)
Inductive ctl : Type :=
| Break (s : locals)
| Fall (row : dict) (s : locals)
| Throw (e : exn) (s : locals).

Definition msg_not_bracketed : string :=
  "Root not bracketed. f(a) and f(b) must have opposite signs.".
Definition msg_secant : string := "Division by zero (f(x1) - f(x0) = 0).".
Definition msg_newton : string := "Derivative is zero.".
Definition msg_mod_secant : string := "Division by zero in Mod Secant.".
Definition msg_max_iter : string := "Max iterations reached.".

Section Branches.

Variables (coeffs deriv_coeffs : list F) (delta tol : F).

(** [method == 'bisection'].  The division by the literal [2] cannot
    raise. *)
Definition bisection_branch (row : dict) (s : locals) : ctl :=
  let fa := eval_poly coeffs (x0 s) in
  let fb := eval_poly coeffs (x1 s) in
  if fa * fb >= of_int 0 then Break (fail_with msg_not_bracketed s)
  else
    let x_mid := fquot (x0 s + x1 s) (of_int 2) in
    let fx_mid := eval_poly coeffs x_mid in
    let error := fabs (x1 s - x0 s) in
    let row := dict_update row
      [("a", VFloat (x0 s)); ("b", VFloat (x1 s)); ("x_val", VFloat x_mid);
       ("f_x", VFloat fx_mid); ("error", VFloat error)]%string in
    if (fabs fx_mid < tol) || (error < tol) then Break (converge_at x_mid row s)
    else if fa * fx_mid < of_int 0 then Fall row (set_x1 x_mid s)
    else Fall row (set_x0 x_mid s).

(** [method == 'regula_falsi'], in iteration [n]. *)
Definition regula_falsi_branch (n : Z) (row : dict) (s : locals) : ctl :=
  let fa := eval_poly coeffs (x0 s) in
  let fb := eval_poly coeffs (x1 s) in
  if fa * fb >= of_int 0 then Break (fail_with msg_not_bracketed s)
  else
    match py_div (x0 s * fb - x1 s * fa) (fb - fa) with
    | Raise e => Throw e s
    | Ok x_new =>
        let fx_new := eval_poly coeffs x_new in
        let error :=
          if (n >? 1)%Z then fabs (x_new - prev_x s) else fabs (x1 s - x0 s) in
        let row := dict_update row
          [("a", VFloat (x0 s)); ("b", VFloat (x1 s)); ("x_val", VFloat x_new);
           ("f_x", VFloat fx_new); ("error", VFloat error)]%string in
        if fabs fx_new < tol then Break (converge_at x_new row s)
        else
          let s := if fa * fx_new < of_int 0 then set_x1 x_new s
                   else set_x0 x_new s in
          Fall row (set_prev_x x_new s)
    end.

(** [method == 'secant']: [x0] is the previous point, [x1] the current
    one.  The division is guarded by the test before it. *)
Definition secant_branch (row : dict) (s : locals) : ctl :=
  let f0 := eval_poly coeffs (x0 s) in
  let f1 := eval_poly coeffs (x1 s) in
  if (f1 - f0) == of_int 0 then Break (fail_with msg_secant s)
  else
    let x2 := x1 s - fquot (f1 * (x1 s - x0 s)) (f1 - f0) in
    let error := fabs (x2 - x1 s) in
    let f2 := eval_poly coeffs x2 in
    let row := dict_update row
      [("x_prev", VFloat (x0 s)); ("x_curr", VFloat (x1 s));
       ("x_val", VFloat x2); ("f_x", VFloat f2); ("error", VFloat error)]%string in
    if error < tol then Break (converge_at x2 row s)
    else Fall row (set_x1 x2 (set_x0 (x1 s) s)).

(** [method == 'newton'] *)
Definition newton_branch (row : dict) (s : locals) : ctl :=
  let fx := eval_poly coeffs (curr_x s) in
  let dfx := eval_poly deriv_coeffs (curr_x s) in
  if dfx == of_int 0 then Break (fail_with msg_newton s)
  else
    let x_next := curr_x s - fquot fx dfx in
    let error := fabs (x_next - curr_x s) in
    let row := dict_update row
      [("x_curr", VFloat (curr_x s)); ("f_x", VFloat fx); ("df_x", VFloat dfx);
       ("x_val", VFloat x_next); ("error", VFloat error)]%string in
    if error < tol then Break (converge_at x_next row s)
    else Fall row (set_curr_x x_next s).

(** [method == 'fixed_point']: the coefficients are those of [g]. *)
Definition fixed_point_branch (row : dict) (s : locals) : ctl :=
  let x_next := eval_poly coeffs (curr_x s) in
  let error := fabs (x_next - curr_x s) in
  let row := dict_update row
    [("x_curr", VFloat (curr_x s)); ("x_val", VFloat x_next);
     ("error", VFloat error)]%string in
  if error < tol then Break (converge_at x_next row s)
  else Fall row (set_curr_x x_next s).

(** [method == 'modified_secant'] *)
Definition modified_secant_branch (row : dict) (s : locals) : ctl :=
  let fx := eval_poly coeffs (curr_x s) in
  let fx_delta := eval_poly coeffs (curr_x s + delta * curr_x s) in
  let denom := fx_delta - fx in
  if denom == of_int 0 then Break (fail_with msg_mod_secant s)
  else
    let x_next := curr_x s - fquot (delta * curr_x s * fx) denom in
    let error := fabs (x_next - curr_x s) in
    let row := dict_update row
      [("x_curr", VFloat (curr_x s)); ("f_x", VFloat fx);
       ("x_val", VFloat x_next); ("error", VFloat error)]%string in
    if error < tol then Break (converge_at x_next row s)
    else Fall row (set_curr_x x_next s).

(** The [if]/[elif] chain inside [try]; a method name that matches no
    branch falls through with the row as it was created. *)
Definition dispatch (method : string) (n : Z) (row : dict) (s : locals) : ctl :=
  if String.eqb method "bisection" then bisection_branch row s
  else if String.eqb method "regula_falsi" then regula_falsi_branch n row s
  else if String.eqb method "secant" then secant_branch row s
  else if String.eqb method "newton" then newton_branch row s
  else if String.eqb method "fixed_point" then fixed_point_branch row s
  else if String.eqb method "modified_secant" then modified_secant_branch row s
  else Fall row s.

(** One pass of the [for] body in iteration [n]: the variables it leaves,
    and whether it left through a [break]. *)
Definition loop_body (method : string) (n : Z) (s : locals) : locals * bool :=
  let s := set_i (Some n) s in
  let row := [("iter"%string, VInt n)] in
  match dispatch method n row s with
  | Break s' => (s', true)
  | Fall row' s' => (append_row row' s', false)
  | Throw e s' =>
      (fail_with ("Calculation Error: " ++ exn_str e) s', true)
  end.

(** [for i in range(1, max_iter + 1)], with [todo] indices left from [n]. *)
Fixpoint for_loop (method : string) (todo : nat) (n : Z) (s : locals) : locals :=
  match todo with
  | O => s
  | S todo' =>
      let (s', broke) := loop_body method n s in
      if broke then s' else for_loop method todo' (n + 1)%Z s'
  end.

End Branches.

(** [not error_msg]: [None] and the empty string are falsy. *)
Definition no_error (m : option string) : bool :=
  match m with
  | None => true
  | Some m => String.eqb m ""
  end.

(** [iterations[-1]] *)
Definition last_row (rows : list dict) : result dict :=
  match rev rows with
  | [] => Raise IndexError
  | r :: _ => Ok r
  end.

(** [row[k]] *)
Definition dict_item (k : string) (row : dict) : result value :=
  match dict_get k row with
  | None => Raise (KeyError k)
  | Some v => Ok v
  end.

(** The variables on entry to the loop. *)
Definition init_locals (a b : F) : locals :=
  mkLocals [] None false None a b a a None.

(** The variables when the loop is left. *)
Definition run_loop (method : string) (coeffs : list F) (a b delta tol : F)
    (max_iter : Z) : locals :=
  let deriv_coeffs :=
    if String.eqb method "newton" then get_poly_derivative coeffs else [] in
  for_loop coeffs deriv_coeffs delta tol method (Z.to_nat max_iter) 1%Z
    (init_locals a b).

Definition Result : Type := list dict * option value * bool * option string.

Definition solve_method (method : string) (coeffs : list F) (a b delta tol : F)
    (max_iter : Z) : result Result :=
  let s := run_loop method coeffs a b delta tol max_iter in
  if negb (converged s) && no_error (error_msg s) then
    match last_row (iterations s) with
    | Raise e => Raise e
    | Ok row =>
        match dict_item "x_val" row with
        | Raise e => Raise e
        | Ok v => Ok (iterations s, Some v, converged s, Some msg_max_iter)
        end
    end
  else Ok (iterations s, root s, converged s, error_msg s).

(** ** The terminal engine: ZOF_CLI.py *)

(** What the terminal engine prints, one constructor per [print] call, with
    the values that are formatted rather than the formatted text. *)
Inductive line : Type :=
| Banner (name : string)
| PolyLine (c : list F)
| TableHeader (headers : list string)
| TableRule (width : Z)
| RowLine (n : Z) (row : list F)
| DivZeroLine
| NotBracketedLine
| ConvergedLine (root : F) (n : Z)
| MaxIterLine (root : F).

(** A run: the lines printed, and the exception that ended it, if any. *)
Definition run : Type := list line * option exn.

Definition bind {A B : Type} (r : result A) (k : A -> result B) : result B :=
  match r with
  | Ok a => k a
  | Raise e => Raise e
  end.

Notation "x <- r ;; k" := (bind r (fun x => k))
  (at level 61, r at next level, right associativity).

Section SolveLoop.

Variables (St : Type) (step_func : St -> result (St * list F * F * F)).
Variables (tol : F) (coeffs : list F).

(** [f_val < tol], where [f_val] is [abs(eval_poly(coeffs, root))] for a
    non-empty [coeffs] and [float('inf')] otherwise; an infinity is below no
    tolerance. *)
Definition f_val_below (root : F) : bool :=
  match coeffs with
  | [] => false
  | _ :: _ => fabs (eval_poly coeffs root) < tol
  end.

(** The [for] loop of [solve_loop] and the [print] after it, with [todo]
    indices left from [n]; [root] is unbound until a step succeeds. *)
Fixpoint cli_for (todo : nat) (n : Z) (state : St) (root : option F)
    (out : list line) : run :=
  match todo with
  | O =>
      match root with
      | None => (out, Some (UnboundLocalError "root"))
      | Some r => (out ++ [MaxIterLine r], None)
      end
  | S todo' =>
      match step_func state with
      | Raise ZeroDivisionError => (out ++ [DivZeroLine], None)
      | Raise e => (out, Some e)
      | Ok (new_state, row, err, root) =>
          let out := out ++ [RowLine n row] in
          if (err < tol) || f_val_below root
          then (out ++ [ConvergedLine root n], None)
          else cli_for todo' (n + 1)%Z new_state (Some root) out
      end
  end.

Definition solve_loop (headers : list string) (state : St) (max_iter : Z)
    (out : list line) : run :=
  let out := out ++ [TableHeader headers;
                     TableRule (15 * Z.of_nat (List.length headers))] in
  cli_for (Z.to_nat max_iter) 1%Z state None out.

End SolveLoop.

(** The column titles of the three kinds of table. *)
Definition bracket_headers : list string :=
  ["a"; "b"; "x_new"; "f(x)"; "Error"]%string.
Definition open_headers : list string := ["x_curr"; "x_next"; "Error"]%string.
Definition secant_headers : list string :=
  ["x_prev"; "x_curr"; "x_next"; "Error"]%string.

(** [bracketing_method], on the values it reads from the terminal. *)
Definition bracket_step (c : list F) (calc_x : F -> F -> F -> F -> result F)
    (s : F * F) : result (F * F * list F * F * F) :=
  let (a, b) := s in
  let fa := eval_poly c a in
  let fb := eval_poly c b in
  xm <- calc_x a b fa fb ;;
  let fxm := eval_poly c xm in
  let new_s := if fa * fxm < of_int 0 then (a, xm) else (xm, b) in
  Ok (new_s, [a; b; xm; fxm; fabs (b - a)], fabs (b - a), xm).

Definition bracketing_method (name : string)
    (calc_x : F -> F -> F -> F -> result F)
    (c : list F) (a b tol : F) (max_iter : Z) : run :=
  let out := [Banner name; PolyLine c] in
  if eval_poly c a * eval_poly c b >= of_int 0 then (out ++ [NotBracketedLine], None)
  else
    solve_loop (bracket_step c calc_x) tol c bracket_headers (a, b) max_iter out.

(** [open_method]; [setup_fn] is total here, the methods without one get a
    constant. *)
Definition open_step (E : Type) (c : list F)
    (step_logic : list F -> F -> E -> result F) (extra : E)
    (x : F) : result (F * list F * F * F) :=
  xn <- step_logic c x extra ;;
  let err := fabs (xn - x) in
  Ok (xn, [x; xn; err], err, xn).

Definition open_method (E : Type) (name : string)
    (step_logic : list F -> F -> E -> result F) (setup_fn : list F -> E)
    (c : list F) (x0 tol : F) (max_iter : Z) : run :=
  let out := [Banner name; PolyLine c] in
  let extra := setup_fn c in
  solve_loop (open_step c step_logic extra) tol c open_headers x0 max_iter out.

Definition secant_step (c : list F) (s : F * F) : result (F * F * list F * F * F) :=
  let (x0, x1) := s in
  let f0 := eval_poly c x0 in
  let f1 := eval_poly c x1 in
  q <- py_div (f1 * (x1 - x0)) (f1 - f0) ;;
  let x2 := x1 - q in
  Ok ((x1, x2), [x0; x1; x2; fabs (x2 - x1)], fabs (x2 - x1), x2).

Definition secant_wrapper (c : list F) (x0 x1 tol : F) (max_iter : Z) : run :=
  solve_loop (secant_step c) tol c secant_headers (x0, x1) max_iter
    [Banner "Secant Method"].

(** The entries of the [methods] table of [main]: the lambdas first, then
    the entries built from them. *)
Definition bisection_x (a b fa fb : F) : result F :=
  Ok (fquot (a + b) (of_int 2)).

Definition regula_falsi_x (a b fa fb : F) : result F :=
  py_div (a * fb - b * fa) (fb - fa).

Definition newton_logic (c : list F) (x : F) (d : list F) : result F :=
  q <- py_div (eval_poly c x) (eval_poly d x) ;; Ok (x - q).

(** [[c[i]*(len(c)-1-i) for i in range(len(c)-1)]] *)
Definition cli_derivative (c : list F) : list F :=
  map (fun k => nth k c (of_int 0)
                * of_int (Z.of_nat (List.length c) - 1 - Z.of_nat k))
      (seq 0 (List.length c - 1)).

Definition fixed_point_logic (c : list F) (x : F) (_ : unit) : result F :=
  Ok (eval_poly c x).

Definition modified_secant_logic (c : list F) (x : F) (d : F) : result F :=
  q <- py_div (d * x * eval_poly c x)
              (eval_poly c (x + d * x) - eval_poly c x) ;;
  Ok (x - q).

Definition cli_bisection : list F -> F -> F -> F -> Z -> run :=
  bracketing_method "Bisection" bisection_x.

Definition cli_regula_falsi : list F -> F -> F -> F -> Z -> run :=
  bracketing_method "Regula Falsi" regula_falsi_x.

Definition cli_newton : list F -> F -> F -> Z -> run :=
  open_method "Newton-Raphson" newton_logic cli_derivative.

Definition cli_fixed_point : list F -> F -> F -> Z -> run :=
  open_method "Fixed Point" fixed_point_logic (fun _ => tt).

Definition cli_modified_secant (delta : F) : list F -> F -> F -> Z -> run :=
  open_method "Modified Secant" modified_secant_logic (fun _ => delta).

(** ** Vocabulary of the specification *)

(** The six method identifiers, and the groups the convergence policy of
    the web engine treats alike. *)
Definition known_method (method : string) : bool :=
  existsb (String.eqb method)
    ["bisection"; "regula_falsi"; "secant"; "newton"; "fixed_point";
     "modified_secant"]%string.

Definition bracketing (method : string) : bool :=
  existsb (String.eqb method) ["bisection"; "regula_falsi"]%string.

(** Methods of the web engine that stop on [error < tol]. *)
Definition stops_on_error (method : string) : bool :=
  existsb (String.eqb method)
    ["bisection"; "secant"; "newton"; "fixed_point"; "modified_secant"]%string.

(** Methods of the web engine that stop on [abs(f(x_val)) < tol]. *)
Definition stops_on_fvalue (method : string) : bool := bracketing method.

(** A float field of a row. *)
Definition row_float (k : string) (row : dict) : option F :=
  match dict_get k row with
  | Some (VFloat x) => Some x
  | _ => None
  end.

(** The stopping test of the web engine, read off a finished row. *)
Definition web_stop_test (method : string) (coeffs : list F) (tol : F)
    (row : dict) : bool :=
  match row_float "x_val" row, row_float "error" row with
  | Some x, Some e =>
      (stops_on_error method && (e < tol))
      || (stops_on_fvalue method && (fabs (eval_poly coeffs x) < tol))
  | _, _ => false
  end.

(** The value of the loop variable when [solve_method] leaves its loop. *)
Definition stop_index (method : string) (coeffs : list F) (a b delta tol : F)
    (max_iter : Z) : option Z :=
  i (run_loop method coeffs a b delta tol max_iter).

(** Rows that hold the iteration index and nothing else, for iterations
    [1..k]. *)
Definition bare_rows (k : nat) : list dict :=
  map (fun j => [("iter"%string, VInt (Z.of_nat j))]) (seq 1 k).

(** What one pass of the loop body does, in iteration [n] entered with the
    variables [s]: it fails with a message, or it converges at the estimate
    of the row it appends, or it appends a row and goes on. *)
Inductive pass_outcome (method : string) (coeffs : list F) (tol : F) (n : Z)
    (s : locals) : locals * bool -> Prop :=
| pass_fail (m : string) :
    known_method method = true ->
    m <> ""%string ->
    m <> msg_max_iter ->
    pass_outcome method coeffs tol n s (fail_with m (set_i (Some n) s), true)
| pass_converged (x : F) (row : dict) :
    dict_get "iter" row = Some (VInt n) ->
    row_float "x_val" row = Some x ->
    web_stop_test method coeffs tol row = true ->
    pass_outcome method coeffs tol n s
      (converge_at x row (set_i (Some n) s), true)
| pass_next (row : dict) (s' : locals) :
    dict_get "iter" row = Some (VInt n) ->
    (if known_method method
     then (exists x, row_float "x_val" row = Some x)
          /\ web_stop_test method coeffs tol row = false
     else row = [("iter"%string, VInt n)]) ->
    iterations s' = iterations s ->
    root s' = root s ->
    converged s' = converged s ->
    error_msg s' = error_msg s ->
    i s' = Some n ->
    pass_outcome method coeffs tol n s (append_row row s', false).

(** A row of a bracketing method whose bracket passed the test against
    [f(a)*f(b) >= 0]. *)
Definition checked_row (coeffs : list F) (row : dict) : Prop :=
  exists a b,
    row_float "a" row = Some a /\ row_float "b" row = Some b
    /\ (eval_poly coeffs a * eval_poly coeffs b >= of_int 0) = false.

(** A row of iteration [j + 1] after which the loop went on. *)
Definition quiet_row (method : string) (coeffs : list F) (tol : F) (j : nat)
    (row : dict) : Prop :=
  dict_get "iter" row = Some (VInt (Z.of_nat (S j))) /\
  if known_method method
  then (exists x, row_float "x_val" row = Some x)
       /\ web_stop_test method coeffs tol row = false
  else row = [("iter"%string, VInt (Z.of_nat (S j)))].

Definition quiet_rows (method : string) (coeffs : list F) (tol : F)
    (rows : list dict) : Prop :=
  forall j row, nth_error rows j = Some row -> quiet_row method coeffs tol j row.

(** The four ways [solve_method] leaves its loop, with the variables [s] it
    leaves it with: converged in iteration [k], failed in iteration [k],
    all [max_iter] iterations done, or no iteration at all. *)
Inductive loop_exit (method : string) (coeffs : list F) (tol : F)
    (max_iter : Z) (s : locals) : Prop :=
| exit_converged (k : Z) (x : F) (row : dict) (rows : list dict) :
    i s = Some k -> (1 <= k <= max_iter)%Z ->
    iterations s = rows ++ [row] ->
    Z.of_nat (List.length rows) = (k - 1)%Z ->
    quiet_rows method coeffs tol rows ->
    dict_get "iter" row = Some (VInt k) ->
    row_float "x_val" row = Some x ->
    web_stop_test method coeffs tol row = true ->
    root s = Some (VFloat x) ->
    converged s = true ->
    error_msg s = None ->
    loop_exit method coeffs tol max_iter s
| exit_failed (k : Z) (m : string) :
    i s = Some k -> (1 <= k <= max_iter)%Z ->
    Z.of_nat (List.length (iterations s)) = (k - 1)%Z ->
    quiet_rows method coeffs tol (iterations s) ->
    known_method method = true ->
    m <> ""%string -> m <> msg_max_iter ->
    root s = None ->
    converged s = false ->
    error_msg s = Some m ->
    loop_exit method coeffs tol max_iter s
| exit_exhausted :
    i s = Some max_iter -> (1 <= max_iter)%Z ->
    Z.of_nat (List.length (iterations s)) = max_iter ->
    quiet_rows method coeffs tol (iterations s) ->
    root s = None ->
    converged s = false ->
    error_msg s = None ->
    loop_exit method coeffs tol max_iter s
| exit_not_entered :
    (max_iter <= 0)%Z ->
    i s = None ->
    iterations s = [] ->
    root s = None ->
    converged s = false ->
    error_msg s = None ->
    loop_exit method coeffs tol max_iter s.

End Engine.

(** ** Brackets in exact arithmetic *)

Definition sign_change (coeffs : list Q) (a b : Q) : Prop :=
  (eval_poly coeffs a * eval_poly coeffs b < 0)%Q.

Definition width (a b : Q) : Q := Qabs (b - a).

(** A row of a bracketing method of the web engine: its bracket [a], [b]
    has a sign change, and for Bisection its error is the bracket width. *)
Definition bracket_row (method : string) (coeffs : list Q) (row : dict)
    (a b e : Q) : Prop :=
  row_float "a" row = Some a /\ row_float "b" row = Some b
  /\ row_float "error" row = Some e
  /\ sign_change coeffs a b
  /\ (method = "bisection"%string -> e = width a b).

(** Rows listed from the newest to the oldest, each a bracketing row with a
    bracket strictly narrower than that of the row before it. *)
Fixpoint narrowing (method : string) (coeffs : list Q)
    (newest_first : list dict) : Prop :=
  match newest_first with
  | [] => True
  | r2 :: older =>
      (exists a2 b2 e2,
         bracket_row method coeffs r2 a2 b2 e2
         /\ match older with
            | [] => True
            | r1 :: _ =>
                exists a1 b1 e1,
                  bracket_row method coeffs r1 a1 b1 e1
                  /\ (width a2 b2 < width a1 b1)%Q
            end)
      /\ narrowing method coeffs older
  end.

(** The bracket and the error printed in a row of a bracketing table of the
    terminal engine. *)
Definition cli_row (l : line) : option (Q * Q * Q) :=
  match l with
  | RowLine _ [a; b; _; _; e] => Some (a, b, e)
  | _ => None
  end.

(** Printed lines listed from the newest to the oldest: each row holds a
    bracket with a sign change and its width as error, and a row printed
    right after another row holds a strictly narrower bracket. *)
Fixpoint cli_narrowing (coeffs : list Q) (newest_first : list line) : Prop :=
  match newest_first with
  | [] => True
  | l2 :: older =>
      match cli_row l2 with
      | None => True
      | Some (a2, b2, e2) =>
          sign_change coeffs a2 b2 /\ e2 = width a2 b2
          /\ match older with
             | [] => True
             | l1 :: _ =>
                 match cli_row l1 with
                 | None => True
                 | Some (a1, b1, _) => (width a2 b2 < width a1 b1)%Q
                 end
             end
      end
      /\ cli_narrowing coeffs older
  end.

(** ** Results and traces of the web engine *)

Section Returned.

Context {F : Type} {num : PyNum F}.

Local Open Scope py_scope.

(** The three shapes of a result [solve_method] returns: converged at the
    estimate of the last row, failed with no root, or out of iterations with
    the estimate of the last row. *)
Inductive returned (method : string) (coeffs : list F) (tol : F)
    (max_iter : Z) : Result -> Prop :=
| returned_converged (rows : list dict) (row : dict) (x : F) :
    quiet_rows method coeffs tol rows ->
    dict_get "iter" row = Some (VInt (Z.of_nat (S (List.length rows)))) ->
    row_float "x_val" row = Some x ->
    web_stop_test method coeffs tol row = true ->
    (Z.of_nat (S (List.length rows)) <= max_iter)%Z ->
    returned method coeffs tol max_iter
      (rows ++ [row], Some (VFloat x), true, None)
| returned_failed (rows : list dict) (m : string) :
    quiet_rows method coeffs tol rows ->
    known_method method = true ->
    m <> ""%string -> m <> msg_max_iter ->
    (Z.of_nat (List.length rows) < max_iter)%Z ->
    returned method coeffs tol max_iter (rows, None, false, Some m)
| returned_exhausted (rows : list dict) (row : dict) (x : F) :
    quiet_rows method coeffs tol rows ->
    known_method method = true ->
    Z.of_nat (List.length rows) = max_iter ->
    last_row rows = Ok row ->
    row_float "x_val" row = Some x ->
    returned method coeffs tol max_iter
      (rows, Some (VFloat x), false, Some msg_max_iter).

(** The keys the rows of a method hold after ['iter'], in insertion
    order. *)
Definition columns (method : string) : list string :=
  if bracketing method then ["a"; "b"; "x_val"; "f_x"; "error"]%string
  else if String.eqb method "secant"
  then ["x_prev"; "x_curr"; "x_val"; "f_x"; "error"]%string
  else if String.eqb method "newton"
  then ["x_curr"; "f_x"; "df_x"; "x_val"; "error"]%string
  else if String.eqb method "fixed_point"
  then ["x_curr"; "x_val"; "error"]%string
  else if String.eqb method "modified_secant"
  then ["x_curr"; "f_x"; "x_val"; "error"]%string
  else [].

Definition is_float (v : value (F := F)) : bool :=
  match v with
  | VFloat _ => true
  | VInt _ => false
  end.

(** A row with the keys of its method, an [int] under ['iter'] and floats
    under the other keys. *)
Definition row_shape (method : string) (row : dict (F := F)) : Prop :=
  map fst row = "iter"%string :: columns method
  /\ match map snd row with
     | VInt _ :: vs => forallb is_float vs = true
     | _ => False
     end.

End Returned.

(** ** Runs of the terminal engine *)

Section Printed.

Context {F : Type} {num : PyNum F}.

(** Table rows numbered from [n]. *)
Fixpoint number_rows (n : Z) (cells : list (list F)) : list line :=
  match cells with
  | [] => []
  | c :: cells' => RowLine n c :: number_rows (n + 1) cells'
  end.

(** How a table of [k] rows, the first numbered [n], may end within [todo]
    iterations: with the division-by-zero line before the iterations are
    used up, with the convergence line for the last row, or with the
    max-iterations line after [todo] rows. *)
Definition closes (n : Z) (todo k : nat) (last : line (F := F)) : Prop :=
  match last with
  | DivZeroLine => (k < todo)%nat
  | ConvergedLine _ m => (1 <= k)%nat /\ m = (n + Z.of_nat k - 1)%Z
  | MaxIterLine _ => k = todo
  | _ => False
  end.

(** A row of a bracketing trace of the web engine and the table row of the
    terminal engine with the same cells. *)
Definition row_as_line (row : dict) (l : line (F := F)) : Prop :=
  exists n a b x fx e,
    dict_get "iter" row = Some (VInt n)
    /\ row_float "a" row = Some a /\ row_float "b" row = Some b
    /\ row_float "x_val" row = Some x /\ row_float "f_x" row = Some fx
    /\ row_float "error" row = Some e
    /\ l = RowLine n [a; b; x; fx; e].

(** The estimate of the last of [rows], or [r] when there is none. *)
Definition last_estimate (r : option F) (rows : list dict) : option F :=
  fold_left (fun _ row => row_float "x_val" row) rows r.

(** The [print] after the loop of [solve_loop], for the value [r] of
    [root]. *)
Definition after_loop (r : option F) (out : list line) : run :=
  match r with
  | None => (out, Some (UnboundLocalError "root"))
  | Some x => (out ++ [MaxIterLine x], None)
  end.

End Printed.

(** ** How the rows of a trace follow one another *)

Section Chain.

Context {F : Type} {num : PyNum F}.

(** The inputs of an iteration, as its row shows them: the bracket, the two
    points of Secant, or the current point. *)
Definition row_inputs (method : string) (row : dict (F := F))
    : option F * option F :=
  if bracketing method then (row_float "a" row, row_float "b" row)
  else if String.eqb method "secant"
  then (row_float "x_prev" row, row_float "x_curr" row)
  else (row_float "x_curr" row, None).

(** The first row reads the arguments of the call. *)
Definition starts (method : string) (a b : F) (row : dict (F := F)) : Prop :=
  row_inputs method row
  = if bracketing method || String.eqb method "secant"
    then (Some a, Some b) else (Some a, None).

(** Row [r2] continues from row [r1]: a bracketing method replaces one end
    of the bracket by the estimate, Secant shifts its two points, and the
    other methods go on from the estimate. *)
Definition follows (method : string) (r1 r2 : dict (F := F)) : Prop :=
  if bracketing method
  then row_inputs method r2 = (row_float "a" r1, row_float "x_val" r1)
       \/ row_inputs method r2 = (row_float "x_val" r1, row_float "b" r1)
  else if String.eqb method "secant"
  then row_inputs method r2 = (row_float "x_curr" r1, row_float "x_val" r1)
  else row_inputs method r2 = (row_float "x_val" r1, None).

(** The variables an iteration reads. *)
Definition state_inputs (method : string) (s : locals (F := F))
    : option F * option F :=
  if bracketing method || String.eqb method "secant"
  then (Some (x0 s), Some (x1 s))
  else (Some (curr_x s), None).

(** The half of the bracket [a, b] a bracketing method keeps for the
    estimate [x]: [a, x] when [f(a) * f(x) < 0], and [x, b] otherwise. *)
Definition kept_half (coeffs : list F) (a b x : F) : F * F :=
  if flt (fmul (eval_poly coeffs a) (eval_poly coeffs x)) (of_int 0)
  then (a, x) else (x, b).

(** The numbers a row holds besides its inputs [p] and [q], by method:
    the estimate under ['x_val'], the function value under ['f_x'], taken
    at the estimate by Bisection, Regula Falsi and Secant and at the
    current point by Newton and Modified Secant, and the error.  The error
    of Regula Falsi depends on the iteration and is left out. *)
Definition formulas (method : string) (coeffs deriv_coeffs : list F)
    (delta p q : F) : list (string * F) :=
  let f := eval_poly coeffs in
  if String.eqb method "bisection" then
    let x := fquot (fadd p q) (of_int 2) in
    [("x_val", x); ("f_x", f x); ("error", fabs (fsub q p))]%string
  else if String.eqb method "regula_falsi" then
    let x := fquot (fsub (fmul p (f q)) (fmul q (f p))) (fsub (f q) (f p)) in
    [("x_val", x); ("f_x", f x)]%string
  else if String.eqb method "secant" then
    let x := fsub q (fquot (fmul (f q) (fsub q p)) (fsub (f q) (f p))) in
    [("x_val", x); ("f_x", f x); ("error", fabs (fsub x q))]%string
  else if String.eqb method "newton" then
    let d := eval_poly deriv_coeffs p in
    let x := fsub p (fquot (f p) d) in
    [("f_x", f p); ("df_x", d); ("x_val", x);
     ("error", fabs (fsub x p))]%string
  else if String.eqb method "fixed_point" then
    let x := f p in
    [("x_val", x); ("error", fabs (fsub x p))]%string
  else if String.eqb method "modified_secant" then
    let x := fsub p (fquot (fmul (fmul delta p) (f p))
                       (fsub (f (fadd p (fmul delta p))) (f p))) in
    [("f_x", f p); ("x_val", x); ("error", fabs (fsub x p))]%string
  else [].

(** A row whose numbers are those of [formulas] for its inputs. *)
Definition row_computed (method : string) (coeffs deriv_coeffs : list F)
    (delta : F) (row : dict (F := F)) : Prop :=
  exists p q,
    row_inputs method row
    = (if bracketing method || String.eqb method "secant"
       then (Some p, Some q) else (Some p, None))
    /\ Forall (fun kv => row_float (fst kv) row = Some (snd kv))
         (formulas method coeffs deriv_coeffs delta p q).

End Chain.

(** ** Polynomials in exact arithmetic *)

(** The value at [x] of the polynomial with the coefficients [coeffs],
    highest degree first: the sum of the terms [c * x^k], where [k] is the
    number of coefficients after [c]. *)
Fixpoint poly_value (coeffs : list Q) (x : Q) : Q :=
  match coeffs with
  | [] => 0
  | c :: cs => c * x ^ Z.of_nat (List.length cs) + poly_value cs x
  end.

(** The value at [x] of its derivative: the sum of the terms
    [k * c * x^(k-1)]. *)
Fixpoint deriv_value (coeffs : list Q) (x : Q) : Q :=
  match coeffs with
  | [] => 0
  | c :: cs =>
      inject_Z (Z.of_nat (List.length cs)) * c
        * x ^ Z.of_nat (Nat.pred (List.length cs))
      + deriv_value cs x
  end.

(** ** Failure messages of the web engine *)

(** The message the [except] clause builds from a [ZeroDivisionError]. *)
Definition msg_calculation : string :=
  "Calculation Error: float division by zero".

(** The messages with which a method can leave the loop before its last
    iteration without converging. *)
Definition failure_messages (method : string) : list string :=
  if String.eqb method "bisection" then [msg_not_bracketed]
  else if String.eqb method "regula_falsi"
  then [msg_not_bracketed; msg_calculation]
  else if String.eqb method "secant" then [msg_secant]
  else if String.eqb method "newton" then [msg_newton]
  else if String.eqb method "modified_secant" then [msg_mod_secant]
  else [].

(** * Proofs *)

(** ** The web engine, for any arithmetic *)

Ltac method_is H :=
  apply String.eqb_eq in H; subst.

Ltac split_tests :=
  repeat match goal with
    | |- context [if ?c then _ else _] =>
        let E := fresh "T" in destruct c eqn:E
    | |- context [match py_div ?x ?y with _ => _ end] =>
        let E := fresh "D" in destruct (py_div x y) eqn:E
    end.

Section WebEngine.

Context {F : Type} {num : PyNum F}.
Variables (coeffs deriv_coeffs : list F) (delta tol : F).

Local Open Scope py_scope.

Local Abbreviation pass := (loop_body coeffs deriv_coeffs delta tol).
Local Abbreviation loop := (for_loop coeffs deriv_coeffs delta tol).

Ltac by_tests :=
  cbn in *;
  repeat match goal with
    | H : context [flt ?a ?b] |- _ => destruct (flt a b)
    end;
  try discriminate; try reflexivity.

Ltac close_pass :=
  first
    [ apply pass_fail; [reflexivity | discriminate | discriminate]
    | apply pass_converged; [reflexivity | reflexivity | by_tests]
    | apply pass_next; try reflexivity;
      first [ split; [eexists; reflexivity | by_tests] | reflexivity ] ].

(** One pass of the loop body, whatever the method name, ends in one of the
    three ways of [pass_outcome]. *)
Lemma loop_body_outcome (method : string) (n : Z) (s : locals) :
  pass_outcome method coeffs tol n s (pass method n s).
Proof.
  unfold loop_body, dispatch.
  destruct (String.eqb method "bisection") eqn:M1; [method_is M1|].
  { unfold bisection_branch. split_tests; close_pass. }
  destruct (String.eqb method "regula_falsi") eqn:M2; [method_is M2|].
  { unfold regula_falsi_branch. split_tests; close_pass. }
  destruct (String.eqb method "secant") eqn:M3; [method_is M3|].
  { unfold secant_branch. split_tests; close_pass. }
  destruct (String.eqb method "newton") eqn:M4; [method_is M4|].
  { unfold newton_branch. split_tests; close_pass. }
  destruct (String.eqb method "fixed_point") eqn:M5; [method_is M5|].
  { unfold fixed_point_branch. split_tests; close_pass. }
  destruct (String.eqb method "modified_secant") eqn:M6; [method_is M6|].
  { unfold modified_secant_branch. split_tests; close_pass. }
  apply pass_next; try reflexivity.
  unfold known_method. cbn. rewrite M1, M2, M3, M4, M5, M6. reflexivity.
Qed.

(** Invariant rule for the [for] loop over [n..last]. *)
Lemma for_loop_rule (Inv : Z -> locals -> Prop) (Post : locals -> Prop)
    (method : string) (last : Z) :
  (forall n s s' b, (n <= last)%Z -> Inv n s -> pass method n s = (s', b) ->
     if b then Post s' else Inv (n + 1)%Z s') ->
  (forall s, Inv (last + 1)%Z s -> Post s) ->
  forall todo n s, (n + Z.of_nat todo = last + 1)%Z -> Inv n s ->
    Post (loop method todo n s).
Proof.
  intros Hstep Hend. induction todo as [|todo IH]; intros n s Hn Hinv.
  - cbn. apply Hend. replace (last + 1)%Z with n by lia. exact Hinv.
  - cbn. destruct (pass method n s) as [s' b] eqn:E.
    specialize (Hstep n s s' b ltac:(lia) Hinv E).
    destruct b; [exact Hstep|].
    apply IH; [lia | exact Hstep].
Qed.

Lemma quiet_rows_nil (method : string) : quiet_rows method coeffs tol [].
Proof. intros j row H. destruct j; discriminate H. Qed.

Lemma quiet_rows_snoc (method : string) (rows : list dict) (row : dict) :
  quiet_rows method coeffs tol rows ->
  quiet_row method coeffs tol (List.length rows) row ->
  quiet_rows method coeffs tol (rows ++ [row]).
Proof.
  intros Hrows Hrow j r Hj.
  destruct (Nat.lt_ge_cases j (List.length rows)) as [Hlt|Hge].
  - rewrite nth_error_app1 in Hj by exact Hlt. apply Hrows, Hj.
  - rewrite nth_error_app2 in Hj by exact Hge.
    destruct (j - List.length rows)%nat as [|d] eqn:Ed.
    + cbn in Hj. injection Hj as <-.
      replace j with (List.length rows) by lia. exact Hrow.
    + destruct d; discriminate Hj.
Qed.

(** The loop of [solve_method] is left in one of the four ways of
    [loop_exit]. *)
Lemma for_loop_exit (method : string) (a b : F) (max_iter : Z) :
  loop_exit method coeffs tol max_iter
    (loop method (Z.to_nat max_iter) 1%Z (init_locals a b)).
Proof.
  destruct (Z.le_gt_cases max_iter 0) as [Hle|Hgt].
  { replace (Z.to_nat max_iter) with O by lia. cbn.
    apply exit_not_entered; auto. }
  apply for_loop_rule with (last := max_iter)
    (Inv := fun n s =>
       (1 <= n)%Z /\
       Z.of_nat (List.length (iterations s)) = (n - 1)%Z /\
       quiet_rows method coeffs tol (iterations s) /\
       root s = None /\ converged s = false /\ error_msg s = None /\
       (n = 1%Z \/ i s = Some (n - 1)%Z)).
  - intros n s s' br Hn (Hn1 & Hlen & Hq & Hr & Hc & He & Hi) Hpass.
    pose proof (loop_body_outcome method n s) as Hout.
    rewrite Hpass in Hout.
    inversion Hout as
      [ m Hk Hm1 Hm2 Heq
      | x row Hiter Hx Hstop Heq
      | row s1 Hiter Hrow Hits Hroot Hconv Herr Hidx Heq ];
      subst; clear Hout.
    + apply exit_failed with (k := n) (m := m); auto; lia.
    + apply exit_converged with (k := n) (x := x) (row := row)
        (rows := iterations s); auto; try lia.
    + cbn. rewrite length_app. cbn. rewrite Hits.
      assert (Hpos : Z.of_nat (S (List.length (iterations s))) = n) by lia.
      split; [lia|]. split; [lia|]. split.
      { apply quiet_rows_snoc; [exact Hq|].
        unfold quiet_row. rewrite Hpos. split; [exact Hiter|].
        destruct (known_method method); exact Hrow. }
      split; [congruence|]. split; [congruence|]. split; [congruence|].
      right. rewrite Hidx. f_equal. lia.
  - intros s (Hn1 & Hlen & Hq & Hr & Hc & He & Hi).
    apply exit_exhausted; auto; try lia.
    destruct Hi as [Hi|Hi]; [lia|].
    rewrite Hi. f_equal. lia.
  - lia.
  - cbn. split; [lia|]. split; [reflexivity|].
    split; [apply quiet_rows_nil|]. auto.
Qed.

Lemma bracketing_cases (method : string) :
  bracketing method = true ->
  method = "bisection"%string \/ method = "regula_falsi"%string.
Proof.
  unfold bracketing. cbn. rewrite orb_false_r. intros H.
  apply orb_true_iff in H. destruct H as [H|H]; method_is H; auto.
Qed.

(** An iteration of a bracketing method entered with [f(a)*f(b) >= 0]
    leaves the loop at once: the message is set and no row is added. *)
Lemma loop_not_bracketed (method : string) (todo : nat) (n : Z) (s : locals) :
  bracketing method = true ->
  (eval_poly coeffs (x0 s) * eval_poly coeffs (x1 s) >= of_int 0) = true ->
  loop method (S todo) n s = fail_with msg_not_bracketed (set_i (Some n) s).
Proof.
  intros Hm Hsign.
  destruct (bracketing_cases _ Hm) as [-> | ->]; cbn [for_loop];
    unfold loop_body, dispatch; cbn [String.eqb Ascii.eqb Bool.eqb];
    unfold bisection_branch, regula_falsi_branch; cbn [x0 x1 set_i];
    rewrite Hsign; reflexivity.
Qed.

(** A pass of a bracketing method adds no row, or a row whose bracket
    passed the test. *)
Lemma bracket_pass_checked (method : string) (n : Z) (s s' : locals)
    (br : bool) :
  bracketing method = true ->
  pass method n s = (s', br) ->
  iterations s' = iterations s
  \/ exists row, iterations s' = iterations s ++ [row]
                 /\ checked_row coeffs row.
Proof.
  intros Hm Hpass. revert Hpass.
  destruct (bracketing_cases _ Hm) as [-> | ->];
    unfold loop_body, dispatch; cbn [String.eqb Ascii.eqb Bool.eqb];
    unfold bisection_branch, regula_falsi_branch; cbn [x0 x1 set_i];
    split_tests; intros H; injection H as <- <-;
    try (left; reflexivity);
    right; eexists; (split; [reflexivity|]);
    exists (x0 s), (x1 s); repeat split; assumption.
Qed.

(** Every row of a bracketing trace holds a bracket that passed the
    test. *)
Lemma bracket_rows_checked (method : string) (a b : F) (max_iter : Z) :
  bracketing method = true ->
  Forall (checked_row coeffs)
    (iterations (loop method (Z.to_nat max_iter) 1%Z (init_locals a b))).
Proof.
  intros Hm.
  apply for_loop_rule with (last := Z.max 0 max_iter)
    (Post := fun s => Forall (checked_row coeffs) (iterations s))
    (Inv := fun (_ : Z) s => Forall (checked_row coeffs) (iterations s)).
  - intros n s s' br _ Hinv Hpass.
    assert (Hs' : Forall (checked_row coeffs) (iterations s')).
    { destruct (bracket_pass_checked _ _ _ Hm Hpass)
        as [-> | (row & -> & Hrow)]; [exact Hinv|].
      apply Forall_app. split; [exact Hinv|]. constructor; [exact Hrow|].
      constructor. }
    destruct br; exact Hs'.
  - auto.
  - lia.
  - constructor.
Qed.

(** An iteration of Newton's method entered where the derivative is zero
    leaves the loop at once. *)
Lemma loop_derivative_zero (todo : nat) (n : Z) (s : locals) :
  (eval_poly deriv_coeffs (curr_x s) == of_int 0) = true ->
  loop "newton" (S todo) n s = fail_with msg_newton (set_i (Some n) s).
Proof.
  intros Hd. cbn [for_loop]. unfold loop_body, dispatch.
  cbn [String.eqb Ascii.eqb Bool.eqb]. unfold newton_branch.
  cbn [curr_x set_i]. rewrite Hd. reflexivity.
Qed.

End WebEngine.

Section WebSolve.

Context {F : Type} {num : PyNum F}.
Variables (method : string) (coeffs : list F) (a b delta tol : F) (max_iter : Z).

Local Open Scope py_scope.

Local Abbreviation final := (run_loop method coeffs a b delta tol max_iter).
Local Abbreviation solved := (solve_method method coeffs a b delta tol max_iter).

Lemma run_loop_exit : loop_exit method coeffs tol max_iter final.
Proof. unfold run_loop. apply for_loop_exit. Qed.

Lemma last_row_snoc (rows : list (dict (F := F))) (row : dict) :
  last_row (rows ++ [row]) = Ok row.
Proof. unfold last_row. rewrite rev_unit. reflexivity. Qed.

Lemma last_row_nth (rows : list (dict (F := F))) :
  rows <> [] ->
  exists row, last_row rows = Ok row
              /\ nth_error rows (List.length rows - 1) = Some row.
Proof.
  intros Hne. destruct (exists_last Hne) as (rows' & row & ->).
  exists row. split; [apply last_row_snoc|].
  rewrite length_app. cbn.
  rewrite nth_error_app2 by lia.
  replace (List.length rows' + 1 - 1 - List.length rows')%nat with O by lia.
  reflexivity.
Qed.

Lemma dict_item_float (k : string) (row : dict) (x : F) :
  row_float k row = Some x -> dict_item k row = Ok (VFloat x).
Proof.
  unfold row_float, dict_item.
  destruct (dict_get k row) as [[n|y]|]; intros H; try discriminate H.
  injection H as ->. reflexivity.
Qed.

(** What [solve_method] returns after a convergence or a failure. *)
Lemma solve_after_break :
  converged final = true \/ no_error (error_msg final) = false ->
  solved = Ok (iterations final, root final, converged final, error_msg final).
Proof.
  intros H. unfold solve_method.
  destruct H as [-> | ->]; cbn; rewrite ?andb_false_r; reflexivity.
Qed.

(** What it returns when the loop ran all its iterations. *)
Lemma solve_exhausted :
  known_method method = true ->
  (1 <= max_iter)%Z ->
  converged final = false -> error_msg final = None ->
  exists row x,
    solved = Ok (iterations final, Some (VFloat x), false, Some msg_max_iter)
    /\ i final = Some max_iter
    /\ Z.of_nat (List.length (iterations final)) = max_iter
    /\ nth_error (iterations final) (Z.to_nat max_iter - 1) = Some row
    /\ dict_get "iter" row = Some (VInt max_iter)
    /\ row_float "x_val" row = Some x.
Proof.
  intros Hknown Hmax Hconv Herr.
  destruct run_loop_exit as
    [ k x row rows Hi Hk Hrows Hlen Hq Hiter Hx Hstop Hroot Hc He
    | k m Hi Hk Hlen Hq Hkn Hm1 Hm2 Hroot Hc He
    | Hi Hk Hlen Hq Hroot Hc He
    | Hle Hi Hrows Hroot Hc He ]; try congruence; try lia.
  assert (Hne : iterations final <> []).
  { intros E. rewrite E in Hlen. cbn in Hlen. lia. }
  destruct (last_row_nth Hne) as (row & Hlast & Hnth).
  replace (List.length (iterations final) - 1)%nat
    with (Z.to_nat max_iter - 1)%nat in Hnth by lia.
  destruct (Hq _ _ Hnth) as [Hiter Hrow].
  rewrite Hknown in Hrow. destruct Hrow as [[x Hx] _].
  exists row, x. split.
  { unfold solve_method. rewrite Hc, He. cbn.
    rewrite Hlast, (dict_item_float _ _ Hx). reflexivity. }
  repeat split; auto.
  rewrite Hiter. do 2 f_equal. lia.
Qed.

(** A method name outside the six never breaks out of the loop, and its
    rows hold the iteration index only. *)
Lemma unknown_method_rows :
  known_method method = false ->
  (1 <= max_iter)%Z ->
  iterations final = bare_rows (Z.to_nat max_iter)
  /\ i final = Some max_iter
  /\ converged final = false /\ error_msg final = None.
Proof.
  intros Hunk Hmax.
  destruct run_loop_exit as
    [ k x row rows Hi Hk Hrows Hlen Hq Hiter Hx Hstop Hroot Hc He
    | k m Hi Hk Hlen Hq Hkn Hm1 Hm2 Hroot Hc He
    | Hi Hk Hlen Hq Hroot Hc He
    | Hle Hi Hrows Hroot Hc He ]; try congruence; try lia.
  - exfalso. revert Hstop. unfold web_stop_test, stops_on_fvalue.
    assert (stops_on_error method = false /\ bracketing method = false)
      as [-> ->].
    { revert Hunk. unfold known_method, stops_on_error, bracketing. cbn.
      destruct (String.eqb method "bisection"),
        (String.eqb method "regula_falsi"), (String.eqb method "secant"),
        (String.eqb method "newton"), (String.eqb method "fixed_point"),
        (String.eqb method "modified_secant"); cbn; intros H;
        try discriminate H; split; reflexivity. }
    destruct (row_float "x_val" row), (row_float "error" row); discriminate.
  - split; [|auto].
    apply nth_error_ext. intros j. unfold bare_rows.
    destruct (nth_error (iterations final) j) as [row|] eqn:Ej.
    + destruct (Hq _ _ Ej) as [_ Hrow]. rewrite Hunk in Hrow. subst row.
      assert (Hj : (j < List.length (iterations final))%nat).
      { apply nth_error_Some. congruence. }
      symmetry.
      rewrite nth_error_map, nth_error_seq.
      destruct (Nat.ltb_spec j (Z.to_nat max_iter)); [reflexivity | lia].
    + apply nth_error_None in Ej. symmetry. apply nth_error_None.
      rewrite length_map, length_seq. lia.
Qed.

Lemma last_row_bare (k : nat) :
  last_row (bare_rows (S k))
  = Ok [("iter"%string, VInt (F := F) (Z.of_nat (S k)))].
Proof.
  unfold bare_rows. rewrite seq_S, map_app. cbn [map].
  rewrite last_row_snoc. reflexivity.
Qed.

Lemma solve_unknown_method :
  known_method method = false ->
  (1 <= max_iter)%Z ->
  solved = Raise (KeyError "x_val").
Proof.
  intros Hunk Hmax.
  destruct (unknown_method_rows Hunk Hmax) as (Hrows & _ & Hc & He).
  unfold solve_method. rewrite Hrows, Hc, He. cbn [negb no_error andb].
  destruct (Z.to_nat max_iter) as [|k] eqn:Ek; [lia|].
  rewrite last_row_bare. reflexivity.
Qed.

Lemma solve_not_entered :
  (max_iter <= 0)%Z -> solved = Raise IndexError.
Proof.
  intros Hle. unfold solve_method, run_loop.
  replace (Z.to_nat max_iter) with O by lia. reflexivity.
Qed.

(** The trace returned is the list of rows the loop built. *)
Lemma solve_trace (rows : list dict) (root : option value) (conv : bool)
    (msg : option string) :
  solved = Ok (rows, root, conv, msg) -> rows = iterations final.
Proof.
  unfold solve_method.
  destruct (negb (converged final) && no_error (error_msg final)).
  - destruct (last_row (iterations final)) as [row|]; [|discriminate].
    destruct (dict_item "x_val" row); [|discriminate].
    intros H. injection H as <- _ _ _. reflexivity.
  - intros H. injection H as <- _ _ _. reflexivity.
Qed.

Lemma no_error_some (m : string) : m <> ""%string -> no_error (Some m) = false.
Proof. intros H. cbn. apply String.eqb_neq, H. Qed.

End WebSolve.

(** ** Properties of the web engine, for any arithmetic *)

Section WebProperties.

Context {F : Type} {num : PyNum F}.

Local Open Scope py_scope.

(** C2 (amended).  A solve that returns has at most [max_iter] rows.  Their
    number is the index of the iteration in which the loop was left when it
    was left by convergence or after its last iteration, and one less than
    that index when it was left by a fatal error: the failed iteration adds
    no row. *)
Theorem trace_length_at_exit (method : string) (coeffs : list F)
    (a b delta tol : F) (max_iter : Z)
    (rows : list dict) (root : option value) (conv : bool)
    (msg : option string) :
  solve_method method coeffs a b delta tol max_iter
    = Ok (rows, root, conv, msg) ->
  exists k,
    stop_index method coeffs a b delta tol max_iter = Some k
    /\ (1 <= k <= max_iter)%Z
    /\ (Z.of_nat (List.length rows) <= max_iter)%Z
    /\ (conv = true -> Z.of_nat (List.length rows) = k)
    /\ (conv = false -> msg = Some msg_max_iter ->
        Z.of_nat (List.length rows) = k /\ k = max_iter)
    /\ (conv = false -> msg <> Some msg_max_iter ->
        Z.of_nat (List.length rows) = (k - 1)%Z).
Proof.
  intros Hsolve. unfold stop_index.
  destruct (run_loop_exit method coeffs a b delta tol max_iter) as
    [ k x row rows' Hi Hk Hrows Hlen Hq Hiter Hx Hstop Hroot Hc He
    | k m Hi Hk Hlen Hq Hkn Hm1 Hm2 Hroot Hc He
    | Hi Hk Hlen Hq Hroot Hc He
    | Hle Hi Hrows Hroot Hc He ].
  - rewrite solve_after_break in Hsolve by (left; exact Hc).
    injection Hsolve as <- <- <- <-.
    exists k. rewrite Hrows, length_app, Hc. cbn.
    repeat split; intros; try lia; try congruence.
  - rewrite solve_after_break in Hsolve
      by (right; rewrite He; apply no_error_some, Hm1).
    injection Hsolve as <- <- <- <-.
    exists k. rewrite Hc, He.
    repeat split; intros; try lia; try congruence.
  - destruct (known_method method) eqn:Hkn.
    + destruct (solve_exhausted method coeffs a b delta tol Hkn Hk Hc He)
        as (row & x & Hs & _).
      rewrite Hs in Hsolve. injection Hsolve as <- <- <- <-.
      exists max_iter.
      repeat split; intros; try lia; try congruence.
    + rewrite solve_unknown_method in Hsolve by assumption.
      discriminate Hsolve.
  - rewrite solve_not_entered in Hsolve by assumption. discriminate Hsolve.
Qed.

(** C5.  A bracketing method started on an interval without a sign change
    returns not converged, with the precondition message, no root and an
    empty trace. *)
Theorem no_sign_change_result (method : string) (coeffs : list F)
    (a b delta tol : F) (max_iter : Z) :
  bracketing method = true ->
  (eval_poly coeffs a * eval_poly coeffs b >= of_int 0) = true ->
  (1 <= max_iter)%Z ->
  solve_method method coeffs a b delta tol max_iter
    = Ok ([], None, false, Some msg_not_bracketed).
Proof.
  intros Hm Hsign Hmax. unfold solve_method, run_loop.
  destruct (Z.to_nat max_iter) as [|todo] eqn:E; [lia|].
  rewrite loop_not_bracketed by assumption. reflexivity.
Qed.

(** C9.  A method name outside the six, with at least one iteration: each
    row appended holds the iteration index only, and reading ['x_val'] from
    the last of them raises [KeyError], so no result is returned. *)
Theorem unknown_method_raises (method : string) (coeffs : list F)
    (a b delta tol : F) (max_iter : Z) :
  known_method method = false ->
  (1 <= max_iter)%Z ->
  iterations (run_loop method coeffs a b delta tol max_iter)
    = bare_rows (Z.to_nat max_iter)
  /\ solve_method method coeffs a b delta tol max_iter
     = Raise (KeyError "x_val").
Proof.
  intros Hunk Hmax. split.
  - apply unknown_method_rows; assumption.
  - apply solve_unknown_method; assumption.
Qed.

End WebProperties.

(** ** The terminal engine, for any arithmetic *)

Section CliLoop.

Context {F : Type} {num : PyNum F}.
Variables (St : Type) (step_func : St -> result (St * list F * F * F)).
Variables (tol : F) (coeffs : list F).

Local Open Scope py_scope.

Local Abbreviation loop := (cli_for step_func tol coeffs).

Lemma cli_for_converged (todo : nat) (n : Z) (state new_state : St)
    (row : list F) (err root : F) (r : option F) (out : list line) :
  step_func state = Ok (new_state, row, err, root) ->
  (err < tol) || f_val_below tol coeffs root = true ->
  loop (S todo) n state r out
  = ((out ++ [RowLine n row]) ++ [ConvergedLine root n], None).
Proof. intros Hstep Htest. cbn. rewrite Hstep, Htest. reflexivity. Qed.

Lemma cli_for_next (todo : nat) (n : Z) (state new_state : St)
    (row : list F) (err root : F) (r : option F) (out : list line) :
  step_func state = Ok (new_state, row, err, root) ->
  (err < tol) || f_val_below tol coeffs root = false ->
  loop (S todo) n state r out
  = loop todo (n + 1)%Z new_state (Some root) (out ++ [RowLine n row]).
Proof. intros Hstep Htest. cbn. rewrite Hstep, Htest. reflexivity. Qed.

Lemma cli_for_div_zero (todo : nat) (n : Z) (state : St) (r : option F)
    (out : list line) :
  step_func state = Raise ZeroDivisionError ->
  loop (S todo) n state r out = (out ++ [DivZeroLine], None).
Proof. intros Hstep. cbn. rewrite Hstep. reflexivity. Qed.

End CliLoop.

(** ** Properties of the two engines, for any arithmetic *)

Section Policy.

Context {F : Type} {num : PyNum F}.

Local Open Scope py_scope.

Lemma stopping_method_known (method : string) :
  stops_on_error method = true \/ stops_on_fvalue method = true ->
  known_method method = true.
Proof.
  unfold stops_on_error, stops_on_fvalue, bracketing, known_method. cbn.
  destruct (String.eqb method "bisection"),
    (String.eqb method "regula_falsi"), (String.eqb method "secant"),
    (String.eqb method "newton"), (String.eqb method "fixed_point"),
    (String.eqb method "modified_secant"); cbn; intros [H|H];
    try discriminate H; reflexivity.
Qed.

Lemma web_stop_test_holds (method : string) (coeffs : list F) (tol : F)
    (row : dict) (x e : F) :
  row_float "x_val" row = Some x ->
  row_float "error" row = Some e ->
  (stops_on_error method = true /\ (e < tol) = true)
  \/ (stops_on_fvalue method = true
      /\ (fabs (eval_poly coeffs x) < tol) = true) ->
  web_stop_test method coeffs tol row = true.
Proof.
  intros Hx He H. unfold web_stop_test. rewrite Hx, He.
  destruct H as [[-> ->] | [-> ->]]; cbn; [reflexivity|].
  apply orb_true_r.
Qed.

(** A row on which the stopping test of the method holds is the last row of
    the trace, and the solve converged at its estimate. *)
Lemma stop_row_is_last (method : string) (coeffs : list F)
    (a b delta tol : F) (max_iter : Z)
    (rows : list dict) (root : option value) (conv : bool)
    (msg : option string) (j : nat) (row : dict) (x : F) :
  solve_method method coeffs a b delta tol max_iter
    = Ok (rows, root, conv, msg) ->
  known_method method = true ->
  nth_error rows j = Some row ->
  row_float "x_val" row = Some x ->
  web_stop_test method coeffs tol row = true ->
  S j = List.length rows /\ conv = true /\ root = Some (VFloat x)
  /\ msg = None.
Proof.
  intros Hsolve Hkn Hj Hx Htest.
  assert (Hquiet : forall rs, quiet_rows method coeffs tol rs ->
                     nth_error rs j = Some row -> False).
  { intros rs Hq Hrs. destruct (Hq _ _ Hrs) as [_ Hrow].
    rewrite Hkn in Hrow. destruct Hrow as [_ Hrow]. congruence. }
  destruct (run_loop_exit method coeffs a b delta tol max_iter) as
    [ k y last rows' Hi Hk Hrows Hlen Hq Hiter Hy Hstop Hroot Hc He
    | k m Hi Hk Hlen Hq _ Hm1 Hm2 Hroot Hc He
    | Hi Hk Hlen Hq Hroot Hc He
    | Hle Hi Hrows Hroot Hc He ].
  - rewrite solve_after_break in Hsolve by (left; exact Hc).
    injection Hsolve as <- <- <- <-. rewrite Hrows in Hj |- *.
    destruct (Nat.lt_ge_cases j (List.length rows')) as [Hlt|Hge].
    { rewrite nth_error_app1 in Hj by exact Hlt.
      exfalso. exact (Hquiet _ Hq Hj). }
    rewrite nth_error_app2 in Hj by exact Hge.
    destruct (j - List.length rows')%nat as [|d] eqn:Ed;
      [|destruct d; discriminate Hj].
    cbn in Hj. injection Hj as <-. rewrite length_app. cbn.
    assert (y = x) as -> by congruence.
    repeat split; auto. lia.
  - rewrite solve_after_break in Hsolve
      by (right; rewrite He; apply no_error_some, Hm1).
    injection Hsolve as <- <- <- <-.
    exfalso. exact (Hquiet _ Hq Hj).
  - destruct (solve_exhausted method coeffs a b delta tol Hkn Hk Hc He)
      as (r & y & Hs & _).
    rewrite Hs in Hsolve. injection Hsolve as <- <- <- <-.
    exfalso. exact (Hquiet _ Hq Hj).
  - rewrite solve_not_entered in Hsolve by assumption. discriminate Hsolve.
Qed.

(** C1 (amended).  Web engine: a row whose error is below the tolerance,
    for Bisection, Secant, Newton, Fixed Point and Modified Secant, or
    whose estimate has [|f|] below the tolerance, for Bisection and Regula
    Falsi, ends the trace, and the solve is converged with that estimate as
    root.  Terminal engine: after any step of any method, an error below
    the tolerance, or a value of the coefficient polynomial at the estimate
    below it, prints the convergence line for that estimate and ends the
    run. *)
Theorem convergence_policy (method : string) (coeffs : list F)
    (a b delta tol : F) (max_iter : Z)
    (rows : list dict) (root : option value) (conv : bool)
    (msg : option string) (j : nat) (row : dict) (x e : F)
    (St : Type) (step_func : St -> result (St * list F * F * F))
    (todo : nat) (n : Z) (state new_state : St) (cells : list F)
    (err est : F) (r : option F) (out : list line) :
  (solve_method method coeffs a b delta tol max_iter
     = Ok (rows, root, conv, msg) ->
   nth_error rows j = Some row ->
   row_float "x_val" row = Some x ->
   row_float "error" row = Some e ->
   (stops_on_error method = true /\ (e < tol) = true)
   \/ (stops_on_fvalue method = true
       /\ (fabs (eval_poly coeffs x) < tol) = true) ->
   S j = List.length rows /\ conv = true /\ root = Some (VFloat x)
   /\ msg = None)
  /\
  (step_func state = Ok (new_state, cells, err, est) ->
   (err < tol) = true
   \/ (coeffs <> [] /\ (fabs (eval_poly coeffs est) < tol) = true) ->
   cli_for step_func tol coeffs (S todo) n state r out
   = ((out ++ [RowLine n cells]) ++ [ConvergedLine est n], None)).
Proof.
  split.
  - intros Hsolve Hj Hx He Htest.
    apply stop_row_is_last with (1 := Hsolve) (3 := Hj) (4 := Hx).
    + apply stopping_method_known. destruct Htest as [[H _]|[H _]]; auto.
    + apply web_stop_test_holds with (1 := Hx) (2 := He). exact Htest.
  - intros Hstep Htest. apply cli_for_converged with (1 := Hstep).
    destruct Htest as [-> | [Hne Hf]]; [reflexivity|].
    destruct coeffs as [|c cs]; [congruence|].
    cbn [f_val_below]. rewrite Hf. apply orb_true_r.
Qed.

(** C3 (amended).  Web engine: a Bisection or Regula Falsi iteration
    entered with [f(a)*f(b) >= 0], the first one or one after a bracket
    update, leaves the loop at once with the not-bracketed message and
    without a row; so every row of a trace holds a bracket that passed the
    test.  Terminal engine: the test is made once, before the table; a
    step itself does not test the bracket, and a Bisection step yields a
    row on any bracket. *)
Theorem sign_change_checked (method : string)
    (coeffs deriv_coeffs : list F) (delta tol : F) (todo : nat) (n : Z)
    (s : locals) (x y : F) (max_iter : Z)
    (rows : list dict) (root : option value) (conv : bool)
    (msg : option string)
    (name : string) (calc_x : F -> F -> F -> F -> result F) (a b : F) :
  (bracketing method = true ->
   (eval_poly coeffs (x0 s) * eval_poly coeffs (x1 s) >= of_int 0) = true ->
   for_loop coeffs deriv_coeffs delta tol method (S todo) n s
   = fail_with msg_not_bracketed (set_i (Some n) s))
  /\
  (bracketing method = true ->
   solve_method method coeffs x y delta tol max_iter
     = Ok (rows, root, conv, msg) ->
   Forall (checked_row coeffs) rows)
  /\
  ((eval_poly coeffs a * eval_poly coeffs b >= of_int 0) = true ->
   bracketing_method name calc_x coeffs a b tol max_iter
   = ([Banner name; PolyLine coeffs; NotBracketedLine], None))
  /\
  (exists new_state cells err est,
     bracket_step coeffs bisection_x (a, b)
     = Ok (new_state, cells, err, est)).
Proof.
  split; [|split; [|split]].
  - apply loop_not_bracketed.
  - intros Hm Hsolve. apply solve_trace in Hsolve. subst rows.
    apply bracket_rows_checked, Hm.
  - intros Hsign. unfold bracketing_method. rewrite Hsign. reflexivity.
  - cbn. do 4 eexists. reflexivity.
Qed.

(** C6.  Newton-Raphson started where the derivative is zero.  Web engine:
    the result carries the zero-derivative message, no root and an empty
    trace.  Terminal engine: the division-by-zero line is printed right
    after the table header, before any row. *)
Theorem newton_zero_derivative (coeffs : list F) (x b delta tol : F)
    (max_iter : Z) :
  (1 <= max_iter)%Z ->
  ((eval_poly (get_poly_derivative coeffs) x == of_int 0) = true ->
   solve_method "newton" coeffs x b delta tol max_iter
   = Ok ([], None, false, Some msg_newton))
  /\
  ((eval_poly (cli_derivative coeffs) x == of_int 0) = true ->
   cli_newton coeffs x tol max_iter
   = ([Banner "Newton-Raphson"; PolyLine coeffs; TableHeader open_headers;
       TableRule 45; DivZeroLine], None)).
Proof.
  intros Hmax. split; intros Hd.
  - unfold solve_method, run_loop. cbn [String.eqb Ascii.eqb Bool.eqb].
    destruct (Z.to_nat max_iter) as [|todo] eqn:E; [lia|].
    rewrite loop_derivative_zero by exact Hd. reflexivity.
  - unfold cli_newton, open_method, solve_loop.
    destruct (Z.to_nat max_iter) as [|todo] eqn:E; [lia|].
    rewrite cli_for_div_zero; [reflexivity|].
    unfold open_step, newton_logic, py_div. rewrite Hd. reflexivity.
Qed.

(** C7.  Web engine: when the loop ends after iteration [max_iter] with
    neither [converged] nor [error_msg] set, the result is not converged,
    its root is the estimate of the last row, and its message is the
    max-iterations one.  Terminal engine: when the last iteration of the
    loop makes its step and does not converge, the max-iterations line is
    printed with the estimate of that step. *)
Theorem max_iterations_reached (method : string) (coeffs : list F)
    (a b delta tol : F) (max_iter : Z)
    (St : Type) (step_func : St -> result (St * list F * F * F))
    (n : Z) (state new_state : St) (cells : list F)
    (err est : F) (r : option F) (out : list line) :
  (known_method method = true ->
   (1 <= max_iter)%Z ->
   converged (run_loop method coeffs a b delta tol max_iter) = false ->
   error_msg (run_loop method coeffs a b delta tol max_iter) = None ->
   exists row x,
     solve_method method coeffs a b delta tol max_iter
     = Ok (iterations (run_loop method coeffs a b delta tol max_iter),
           Some (VFloat x), false, Some msg_max_iter)
     /\ stop_index method coeffs a b delta tol max_iter = Some max_iter
     /\ Z.of_nat (List.length
          (iterations (run_loop method coeffs a b delta tol max_iter)))
        = max_iter
     /\ nth_error (iterations (run_loop method coeffs a b delta tol max_iter))
          (Z.to_nat max_iter - 1) = Some row
     /\ dict_get "iter" row = Some (VInt max_iter)
     /\ row_float "x_val" row = Some x)
  /\
  (step_func state = Ok (new_state, cells, err, est) ->
   (err < tol) || f_val_below tol coeffs est = false ->
   cli_for step_func tol coeffs 1 n state r out
   = ((out ++ [RowLine n cells]) ++ [MaxIterLine est], None)).
Proof.
  split.
  - intros Hkn Hmax Hc He. apply solve_exhausted; assumption.
  - intros Hstep Htest.
    rewrite cli_for_next with (1 := Hstep) (2 := Htest). reflexivity.
Qed.

(** C10.  Terminal engine, Fixed Point: the coefficients given are those
    of [g], and the loop tests [abs(g(x_next)) < tol] on them.  When that
    holds, the iteration prints its row and the convergence line for
    [x_next], whatever the step error; so does the first iteration of a
    run. *)
Theorem cli_fixed_point_fvalue (coeffs : list F) (tol x : F)
    (todo : nat) (n : Z) (r : option F) (out : list line) (max_iter : Z) :
  coeffs <> [] ->
  (fabs (eval_poly coeffs (eval_poly coeffs x)) < tol) = true ->
  cli_for (open_step coeffs fixed_point_logic tt) tol coeffs (S todo) n x r out
  = ((out ++ [RowLine n [x; eval_poly coeffs x;
                         fabs (eval_poly coeffs x - x)]])
       ++ [ConvergedLine (eval_poly coeffs x) n], None)
  /\
  ((1 <= max_iter)%Z ->
   cli_fixed_point coeffs x tol max_iter
   = ([Banner "Fixed Point"; PolyLine coeffs; TableHeader open_headers;
       TableRule 45;
       RowLine 1 [x; eval_poly coeffs x; fabs (eval_poly coeffs x - x)];
       ConvergedLine (eval_poly coeffs x) 1], None)).
Proof.
  intros Hne Hg.
  assert (Hstep : forall todo' n' r' out',
    cli_for (open_step coeffs fixed_point_logic tt) tol coeffs
      (S todo') n' x r' out'
    = ((out' ++ [RowLine n' [x; eval_poly coeffs x;
                             fabs (eval_poly coeffs x - x)]])
         ++ [ConvergedLine (eval_poly coeffs x) n'], None)).
  { intros. apply cli_for_converged with (new_state := eval_poly coeffs x)
      (err := fabs (eval_poly coeffs x - x)); [reflexivity|].
    destruct coeffs as [|c cs]; [congruence|].
    cbn [f_val_below]. rewrite Hg. apply orb_true_r. }
  split; [apply Hstep|].
  intros Hmax. unfold cli_fixed_point, open_method, solve_loop.
  destruct (Z.to_nat max_iter) as [|todo'] eqn:E; [lia|].
  rewrite Hstep. reflexivity.
Qed.

End Policy.

(** ** Derivative coefficients *)

Section Derivative.

Context {F : Type} {num : PyNum F}.

Local Open Scope py_scope.

(** The coefficient of index [k] of the derivative of a polynomial of
    degree [n]. *)
Local Abbreviation scaled coeffs n :=
  (fun k => nth k coeffs (of_int 0) * of_int (n - Z.of_nat k)).

Lemma deriv_loop_map (coeffs : list F) (n : Z) (todo : nat) :
  forall (k : nat) (deriv : list F),
    deriv_loop coeffs n todo (Z.of_nat k) deriv
    = deriv ++ map (scaled coeffs n) (seq k todo).
Proof.
  induction todo as [|todo IH]; intros k deriv; cbn.
  - symmetry. apply app_nil_r.
  - replace (Z.of_nat k + 1)%Z with (Z.of_nat (S k)) by lia.
    rewrite IH, Nat2Z.id, <- app_assoc. reflexivity.
Qed.

Lemma get_poly_derivative_map (coeffs : list F) (n : nat) :
  List.length coeffs = S n -> (1 <= n)%nat ->
  get_poly_derivative coeffs = map (scaled coeffs (Z.of_nat n)) (seq 0 n).
Proof.
  intros Hlen Hn. unfold get_poly_derivative. rewrite Hlen.
  replace (Z.of_nat (S n) - 1)%Z with (Z.of_nat n) by lia.
  destruct (Z.ltb_spec (Z.of_nat n) 1); [lia|].
  rewrite Nat2Z.id. apply (deriv_loop_map coeffs (Z.of_nat n) n 0 []).
Qed.

Lemma cli_derivative_map (coeffs : list F) (n : nat) :
  List.length coeffs = S n ->
  cli_derivative coeffs = map (scaled coeffs (Z.of_nat n)) (seq 0 n).
Proof.
  intros Hlen. unfold cli_derivative. rewrite Hlen.
  replace (S n - 1)%nat with n by lia.
  apply map_ext. intros k. do 2 f_equal. lia.
Qed.

(** C8 (amended).  For coefficients of degree [n >= 1], both engines
    compute the same [n] derivative coefficients, the one of index [k]
    being the original one of index [k] times [n - k].  For a constant,
    [get_poly_derivative] of the web engine returns the single coefficient
    zero, and the derivative of the terminal engine returns no coefficient
    at all. *)
Theorem derivative_coefficients (coeffs : list F) (n : nat) :
  List.length coeffs = S n ->
  ((1 <= n)%nat ->
   List.length (get_poly_derivative coeffs) = n
   /\ (forall k, (k < n)%nat ->
         nth_error (get_poly_derivative coeffs) k
         = Some (nth k coeffs (of_int 0) * of_int (Z.of_nat n - Z.of_nat k)))
   /\ cli_derivative coeffs = get_poly_derivative coeffs)
  /\
  (n = O ->
   get_poly_derivative coeffs = [of_int 0] /\ cli_derivative coeffs = []).
Proof.
  intros Hlen. split.
  - intros Hn. rewrite (get_poly_derivative_map coeffs Hlen Hn).
    split; [|split].
    + rewrite length_map, length_seq. reflexivity.
    + intros k Hk. rewrite nth_error_map, nth_error_seq.
      destruct (Nat.ltb_spec k n); [reflexivity | lia].
    + apply cli_derivative_map, Hlen.
  - intros ->. split.
    + unfold get_poly_derivative. rewrite Hlen. reflexivity.
    + rewrite (cli_derivative_map coeffs Hlen). reflexivity.
Qed.

End Derivative.

(** ** Brackets in exact arithmetic *)

Section ExactBrackets.

Local Open Scope Q_scope.

Lemma Qabs_spec (x : Q) :
  (0 <= x /\ Qabs x == x) \/ (x < 0 /\ Qabs x == - x).
Proof.
  destruct (Qlt_le_dec x 0) as [H|H].
  - right. split; [exact H|]. apply Qabs_neg. lra.
  - left. split; [exact H|]. apply Qabs_pos, H.
Qed.

Ltac qabs :=
  repeat match goal with
    | |- context [Qabs ?x] =>
        let y := fresh "y" in
        let H := fresh "H" in
        destruct (Qabs_spec x) as [[? H]|[? H]];
        revert H; generalize (Qabs x); intros y H
    end.

Lemma Q_apart (a b : Q) : ~ a == b -> a < b \/ b < a.
Proof.
  intros Hab. destruct (Q_dec a b) as [[H|H]|H]; auto. contradiction.
Qed.

(** Either half of a bracket is strictly narrower than the bracket. *)
Lemma bisect_narrower (a b : Q) :
  ~ a == b ->
  width a ((a + b) / inject_Z 2) < width a b
  /\ width ((a + b) / inject_Z 2) b < width a b.
Proof.
  intros Hab. unfold width. change (inject_Z 2) with 2.
  assert (E : (a + b) / 2 == (a + b) * (1 # 2)) by (unfold Qdiv; reflexivity).
  revert E. generalize ((a + b) / 2). intros m E.
  destruct (Q_apart Hab); split; qabs; lra.
Qed.

(** The chord through two points of opposite signs crosses zero strictly
    inside the bracket, so either part is strictly narrower. *)
Lemma chord_narrower (a b fa fb : Q) :
  ~ a == b -> fa * fb < 0 ->
  width a ((a * fb - b * fa) / (fb - fa)) < width a b
  /\ width ((a * fb - b * fa) / (fb - fa)) b < width a b.
Proof.
  intros Hab Hs. unfold width.
  assert (HD : ~ fb - fa == 0).
  { intros E. assert (H : fb == fa) by lra. rewrite H in Hs. nra. }
  assert (E : (a * fb - b * fa) / (fb - fa) * (fb - fa) == a * fb - b * fa).
  { field_simplify; [reflexivity | exact HD]. }
  revert E. generalize ((a * fb - b * fa) / (fb - fa)). intros x E.
  assert (Hsigns : (fa < 0 /\ 0 < fb) \/ (0 < fa /\ fb < 0)) by nra.
  destruct (Q_apart Hab), Hsigns as [[? ?]|[? ?]].
  - assert (a < x /\ x < b) by (split; nra). split; qabs; lra.
  - assert (a < x /\ x < b) by (split; nra). split; qabs; lra.
  - assert (b < x /\ x < a) by (split; nra). split; qabs; lra.
  - assert (b < x /\ x < a) by (split; nra). split; qabs; lra.
Qed.

Lemma eval_poly_from (coeffs : list Q) (x y r r' : Q) :
  x == y -> r == r' ->
  fold_left (fun acc c => fadd (fmul acc x) c) coeffs r
  == fold_left (fun acc c => fadd (fmul acc y) c) coeffs r'.
Proof.
  intros Hxy. revert r r'.
  induction coeffs as [|c coeffs IH]; intros r r' Hr; cbn [fold_left].
  - exact Hr.
  - apply IH. cbn. rewrite Hxy, Hr. reflexivity.
Qed.

Lemma eval_poly_compat (coeffs : list Q) (x y : Q) :
  x == y -> eval_poly coeffs x == eval_poly coeffs y.
Proof. intros H. apply eval_poly_from; [exact H | reflexivity]. Qed.

(** The ends of a bracket with a sign change differ. *)
Lemma sign_change_apart (coeffs : list Q) (a b : Q) :
  sign_change coeffs a b -> ~ a == b.
Proof.
  unfold sign_change. intros Hs Hab.
  rewrite (eval_poly_compat coeffs Hab) in Hs. nra.
Qed.

Lemma not_ge_zero (u : Q) : fge u (of_int 0) = false -> u < 0.
Proof.
  change (Qle_bool 0 u = false -> u < 0).
  intros H. apply Qnot_le_lt. intros Hle.
  apply Qle_bool_iff in Hle. congruence.
Qed.

End ExactBrackets.

Section ExactWeb.

Variables (coeffs deriv_coeffs : list Q) (delta tol : Q).

Local Open Scope Q_scope.

Local Abbreviation pass := (loop_body coeffs deriv_coeffs delta tol).

Lemma py_div_ok (u v x : Q) : py_div u v = Ok x -> x = u / v.
Proof.
  unfold py_div. destruct (feq v (of_int 0)); intros H; [discriminate H|].
  injection H as <-. reflexivity.
Qed.

(** The fields and the sign change of a row just built; what is left is the
    clause on the error of Bisection. *)
Ltac row_is_bracket T :=
  unfold bracket_row;
  split; [reflexivity|]; split; [reflexivity|]; split; [reflexivity|];
  split; [apply not_ge_zero; exact T|].

(** One pass of a bracketing method: it adds no row and leaves the loop, or
    it adds a row for the bracket it was entered with, which has a sign
    change, and, when the loop goes on, leaves a strictly narrower one. *)
Lemma bracket_pass (method : string) (n : Z) (s s' : locals) (br : bool) :
  bracketing method = true ->
  pass method n s = (s', br) ->
  (iterations s' = iterations s /\ br = true)
  \/ (exists row e,
        iterations s' = iterations s ++ [row]
        /\ bracket_row method coeffs row (x0 s) (x1 s) e
        /\ (br = false -> width (x0 s') (x1 s') < width (x0 s) (x1 s))).
Proof.
  intros Hm Hpass. revert Hpass.
  destruct (bracketing_cases _ Hm) as [-> | ->];
    unfold loop_body, dispatch; cbn [String.eqb Ascii.eqb Bool.eqb].
  - unfold bisection_branch. cbn [x0 x1 set_i]. split_tests;
      intros H; injection H as <- <-; [left; split; reflexivity | ..];
      right; eexists _, _; (split; [reflexivity|]);
      (split; [ row_is_bracket T; intros _; reflexivity |]);
      try discriminate; intros _.
    + apply (bisect_narrower (a := x0 s) (b := x1 s)).
      apply sign_change_apart with (coeffs := coeffs), not_ge_zero, T.
    + apply (bisect_narrower (a := x0 s) (b := x1 s)).
      apply sign_change_apart with (coeffs := coeffs), not_ge_zero, T.
  - unfold regula_falsi_branch. cbn [x0 x1 set_i].
    destruct (fge _ _) eqn:T;
      [intros H; injection H as <- <-; left; split; reflexivity|].
    pose proof (not_ge_zero _ T) as Hs.
    destruct (chord_narrower (sign_change_apart (coeffs := coeffs) Hs) Hs)
      as [Hleft Hright].
    split_tests; intros H; injection H as <- <-;
      try (left; split; reflexivity);
      apply py_div_ok in D; subst;
      right; eexists _, _; (split; [reflexivity|]);
      (split; [ row_is_bracket T; intros Hb; discriminate Hb |]);
      try discriminate; intros _;
      first [ exact Hleft | exact Hright ].
Qed.

Lemma narrowing_tail (method : string) (newer older : list dict) :
  narrowing method coeffs (newer ++ older) -> narrowing method coeffs older.
Proof.
  induction newer as [|r newer IH]; cbn [app narrowing]; [auto|].
  intros [_ H]. apply IH, H.
Qed.

(** Every exit of the loop of a bracketing method leaves rows that narrow. *)
Lemma bracket_loop_narrowing (method : string) (a b : Q) (max_iter : Z) :
  bracketing method = true ->
  narrowing method coeffs
    (rev (iterations (for_loop coeffs deriv_coeffs delta tol method
                        (Z.to_nat max_iter) 1%Z (init_locals a b)))).
Proof.
  intros Hm.
  apply for_loop_rule with (last := Z.max 0 max_iter)
    (Post := fun s => narrowing method coeffs (rev (iterations s)))
    (Inv := fun (_ : Z) s =>
       narrowing method coeffs (rev (iterations s))
       /\ match rev (iterations s) with
          | [] => True
          | r :: _ =>
              exists a1 b1 e1,
                bracket_row method coeffs r a1 b1 e1
                /\ width (x0 s) (x1 s) < width a1 b1
          end).
  - intros n s s' br _ [Hnar Hlast] Hpass.
    destruct (bracket_pass _ _ _ Hm Hpass)
      as [[Hsame ->] | (row & e & Hrows & Hrow & Hstep)].
    + rewrite Hsame. exact Hnar.
    + assert (Hnew : narrowing method coeffs (rev (iterations s'))).
      { rewrite Hrows, rev_unit. cbn [narrowing]. split; [|exact Hnar].
        exists (x0 s), (x1 s), e. split; [exact Hrow|].
        destruct (rev (iterations s)); [exact I | exact Hlast]. }
      destruct br; [exact Hnew|].
      split; [exact Hnew|].
      rewrite Hrows, rev_unit.
      exists (x0 s), (x1 s), e. split; [exact Hrow|].
      apply Hstep. reflexivity.
  - intros s [Hnar _]. exact Hnar.
  - lia.
  - cbn. auto.
Qed.

End ExactWeb.

Section ExactCli.

Variables (c : list Q) (tol : Q) (calc_x : Q -> Q -> Q -> Q -> result Q).

Local Open Scope Q_scope.

(** What the loop needs of [calc_x]: on a bracket with a sign change, the
    point it returns cuts off a strictly narrower bracket on either side. *)
Hypothesis calc_x_inside : forall a b x,
  sign_change c a b ->
  calc_x a b (eval_poly c a) (eval_poly c b) = Ok x ->
  width a x < width a b /\ width x b < width a b.

Hypothesis tol_positive : 0 < tol.

Lemma sign_change_nonempty (a b : Q) : sign_change c a b -> c <> [].
Proof. intros H ->. change (0 * 0 < 0) in H. lra. Qed.

(** A step that does not converge leaves a bracket with a sign change. *)
Lemma cli_step_keeps_sign (a b x : Q) :
  sign_change c a b ->
  f_val_below tol c x = false ->
  sign_change c (fst (if flt (fmul (eval_poly c a) (eval_poly c x)) (of_int 0)
                      then (a, x) else (x, b)))
                (snd (if flt (fmul (eval_poly c a) (eval_poly c x)) (of_int 0)
                      then (a, x) else (x, b))).
Proof.
  intros Hs Hf.
  pose proof (sign_change_nonempty Hs) as Hne.
  destruct c as [|c0 cs] eqn:Ec; [congruence|]. rewrite <- Ec in *.
  assert (Hx : tol <= Qabs (eval_poly c x)).
  { rewrite Ec in Hf. cbn [f_val_below] in Hf. rewrite <- Ec in Hf.
    change (negb (Qle_bool tol (Qabs (eval_poly c x))) = false) in Hf.
    apply negb_false_iff, Qle_bool_iff in Hf. exact Hf. }
  change (flt (fmul (eval_poly c a) (eval_poly c x)) (of_int 0))
    with (negb (Qle_bool 0 (eval_poly c a * eval_poly c x))).
  unfold sign_change in *.
  destruct (Qle_bool 0 (eval_poly c a * eval_poly c x)) eqn:E; cbn.
  - apply Qle_bool_iff in E.
    revert Hs Hx E. generalize (eval_poly c a), (eval_poly c b).
    intros fa fb. destruct (Qabs_spec (eval_poly c x)) as [[H0 H]|[H0 H]];
      revert H0 H; generalize (Qabs (eval_poly c x)), (eval_poly c x);
      intros y fx H0 H Hs Hx E.
    + assert (0 < fx) by lra.
      destruct (Q_dec fa 0) as [[?|?]|?], (Q_dec fb 0) as [[?|?]|?]; nra.
    + assert (fx < 0) by lra.
      destruct (Q_dec fa 0) as [[?|?]|?], (Q_dec fb 0) as [[?|?]|?]; nra.
  - apply Qnot_le_lt. intros Hle. apply Qle_bool_iff in Hle. congruence.
Qed.

Lemma bracket_step_ok (a b : Q) (new_state : Q * Q) (cells : list Q)
    (err root : Q) :
  bracket_step c calc_x (a, b) = Ok (new_state, cells, err, root) ->
  calc_x a b (eval_poly c a) (eval_poly c b) = Ok root
  /\ new_state = (if flt (fmul (eval_poly c a) (eval_poly c root)) (of_int 0)
                  then (a, root) else (root, b))
  /\ cells = [a; b; root; eval_poly c root; width a b]
  /\ err = width a b.
Proof.
  unfold bracket_step, bind.
  destruct (calc_x a b (eval_poly c a) (eval_poly c b)) as [x|e];
    [|discriminate].
  intros H. injection H as <- <- <- <-. repeat split.
Qed.

(** The lines a bracketing loop prints narrow, when it starts on a bracket
    with a sign change that is narrower than that of the last row
    printed. *)
Lemma cli_bracket_loop (todo : nat) :
  forall (n : Z) (a b : Q) (r : option Q) (out : list line),
    sign_change c a b ->
    cli_narrowing c (rev out) ->
    match rev out with
    | [] => True
    | l1 :: _ =>
        match cli_row l1 with
        | None => True
        | Some (a1, b1, _) => width a b < width a1 b1
        end
    end ->
    cli_narrowing c
      (rev (fst (cli_for (bracket_step c calc_x) tol c todo n (a, b) r out))).
Proof.
  induction todo as [|todo IH]; intros n a b r out Hs Hout Hlink;
    cbn [cli_for].
  - destruct r; cbn [fst]; [|exact Hout].
    rewrite rev_unit. cbn [cli_narrowing cli_row]. auto.
  - destruct (bracket_step c calc_x (a, b))
      as [[[[new_state cells] err] root]|e] eqn:Estep.
    + apply bracket_step_ok in Estep.
      destruct Estep as (Hcalc & -> & -> & ->).
      assert (Hrow : cli_narrowing c
                (rev (out ++ [RowLine n [a; b; root; eval_poly c root;
                                         width a b]]))).
      { rewrite rev_unit. cbn [cli_narrowing cli_row].
        split; [|exact Hout]. split; [exact Hs|]. split; [reflexivity|].
        destruct (rev out); [exact I | exact Hlink]. }
      destruct (flt (width a b) tol || f_val_below tol c root)%bool eqn:Etest;
        cbn [fst].
      * rewrite rev_unit. cbn [cli_narrowing cli_row]. auto.
      * apply orb_false_iff in Etest. destruct Etest as [_ Hf].
        pose proof (cli_step_keeps_sign root Hs Hf) as Hkeep.
        destruct (calc_x_inside Hs Hcalc) as [Hleft Hright].
        destruct (flt (fmul (eval_poly c a) (eval_poly c root)) (of_int 0));
          cbn [fst snd] in Hkeep;
          (apply IH; [exact Hkeep | exact Hrow |]);
          rewrite rev_unit; cbn [cli_row]; assumption.
    + destruct e; cbn [fst]; try exact Hout.
      rewrite rev_unit. cbn [cli_narrowing cli_row]. auto.
Qed.

End ExactCli.

Section ExactCliMethods.

Local Open Scope Q_scope.

Lemma bisection_x_inside (c : list Q) (a b x : Q) :
  sign_change c a b ->
  bisection_x a b (eval_poly c a) (eval_poly c b) = Ok x ->
  width a x < width a b /\ width x b < width a b.
Proof.
  intros Hs H. injection H as <-.
  apply (bisect_narrower (a := a) (b := b)), (sign_change_apart Hs).
Qed.

Lemma regula_falsi_x_inside (c : list Q) (a b x : Q) :
  sign_change c a b ->
  regula_falsi_x a b (eval_poly c a) (eval_poly c b) = Ok x ->
  width a x < width a b /\ width x b < width a b.
Proof.
  intros Hs H. apply py_div_ok in H. subst x.
  apply chord_narrower; [apply (sign_change_apart Hs) | exact Hs].
Qed.

Lemma cli_narrowing_tail (c : list Q) (newer older : list line) :
  cli_narrowing c (newer ++ older) -> cli_narrowing c older.
Proof.
  induction newer as [|l newer IH]; cbn [app cli_narrowing]; [auto|].
  intros [_ H]. apply IH, H.
Qed.

(** The lines a bracketing method of the terminal engine prints narrow. *)
Lemma bracketing_method_narrowing (name : string)
    (calc_x : Q -> Q -> Q -> Q -> result Q) (c : list Q) (a b tol : Q)
    (max_iter : Z) :
  calc_x = bisection_x \/ calc_x = regula_falsi_x ->
  0 < tol ->
  cli_narrowing c
    (rev (fst (bracketing_method name calc_x c a b tol max_iter))).
Proof.
  intros Hcalc Htol. unfold bracketing_method.
  destruct (fge (fmul (eval_poly c a) (eval_poly c b)) (of_int 0)) eqn:E.
  - cbn. auto.
  - unfold solve_loop. apply cli_bracket_loop.
    + destruct Hcalc as [-> | ->]; intros a' b' x.
      * apply bisection_x_inside.
      * apply regula_falsi_x_inside.
    + exact Htol.
    + apply not_ge_zero, E.
    + cbn. auto.
    + cbn. exact I.
Qed.

End ExactCliMethods.

(** ** The half a bracketing method keeps *)

Section WebHalves.

Context {F : Type} {num : PyNum F}.
Variables (coeffs deriv_coeffs : list F) (delta tol : F).

Local Open Scope py_scope.

Local Abbreviation pass := (loop_body coeffs deriv_coeffs delta tol).
Local Abbreviation loop := (for_loop coeffs deriv_coeffs delta tol).

(** A pass of a bracketing method adds no row and leaves the loop, or adds
    a row for the bracket it was entered with; when the loop goes on, the
    bracket it leaves is the half kept for the estimate of the row. *)
Lemma bracket_pass_selects (method : string) (n : Z) (s s' : locals)
    (br : bool) :
  bracketing method = true ->
  pass method n s = (s', br) ->
  (iterations s' = iterations s /\ br = true)
  \/ exists row x,
       iterations s' = iterations s ++ [row]
       /\ row_float "a" row = Some (x0 s) /\ row_float "b" row = Some (x1 s)
       /\ row_float "x_val" row = Some x
       /\ (br = false -> (x0 s', x1 s') = kept_half coeffs (x0 s) (x1 s) x).
Proof.
  intros Hm Hpass. revert Hpass.
  destruct (bracketing_cases _ Hm) as [-> | ->];
    unfold loop_body, dispatch; cbn [String.eqb Ascii.eqb Bool.eqb].
  - unfold bisection_branch, kept_half. cbn [x0 x1 set_i].
    destruct (fge _ _); [intros H; injection H as <- <-; left; auto|].
    destruct (_ || _).
    + intros H. injection H as <- <-. right. eexists _, _.
      repeat (split; [reflexivity|]). discriminate.
    + destruct (flt (fmul _ _) _) eqn:T; intros H; injection H as <- <-;
        right; eexists _, _; repeat (split; [reflexivity|]); intros _;
        rewrite T; reflexivity.
  - unfold regula_falsi_branch, kept_half. cbn [x0 x1 set_i].
    destruct (fge _ _); [intros H; injection H as <- <-; left; auto|].
    destruct (py_div _ _) as [x|e];
      [|intros H; injection H as <- <-; left; auto].
    destruct (flt (fabs _) tol).
    + intros H. injection H as <- <-. right. eexists _, x.
      repeat (split; [reflexivity|]). discriminate.
    + destruct (flt (fmul _ _) _) eqn:T; intros H; injection H as <- <-;
        right; eexists _, x; repeat (split; [reflexivity|]); intros _;
        rewrite T; reflexivity.
Qed.

(** In the rows the loop of a bracketing method leaves, the bracket of
    each row after the first is the half kept of the bracket of the row
    before it. *)
Lemma bracket_loop_selects (method : string) (a b : F) (max_iter : Z) :
  bracketing method = true ->
  forall j r1 r2,
    nth_error (iterations (loop method (Z.to_nat max_iter) 1%Z
                             (init_locals a b))) j = Some r1 ->
    nth_error (iterations (loop method (Z.to_nat max_iter) 1%Z
                             (init_locals a b))) (S j) = Some r2 ->
    exists a1 b1 est,
      row_float "a" r1 = Some a1 /\ row_float "b" r1 = Some b1
      /\ row_float "x_val" r1 = Some est
      /\ row_float "a" r2 = Some (fst (kept_half coeffs a1 b1 est))
      /\ row_float "b" r2 = Some (snd (kept_half coeffs a1 b1 est)).
Proof.
  intros Hm.
  set (halves r1 r2 :=
         exists a1 b1 est,
           row_float "a" r1 = Some a1 /\ row_float "b" r1 = Some b1
           /\ row_float "x_val" r1 = Some est
           /\ row_float "a" r2 = Some (fst (kept_half coeffs a1 b1 est))
           /\ row_float "b" r2 = Some (snd (kept_half coeffs a1 b1 est))).
  set (chain_ok := fun rows : list (dict (F := F)) =>
         forall j r1 r2, nth_error rows j = Some r1 ->
                         nth_error rows (S j) = Some r2 -> halves r1 r2).
  apply for_loop_rule with (last := Z.max 0 max_iter)
    (Post := fun s => chain_ok (iterations s))
    (Inv := fun (_ : Z) s =>
       chain_ok (iterations s)
       /\ match last_row (iterations s) with
          | Ok r =>
              exists a1 b1 est,
                row_float "a" r = Some a1 /\ row_float "b" r = Some b1
                /\ row_float "x_val" r = Some est
                /\ (x0 s, x1 s) = kept_half coeffs a1 b1 est
          | Raise _ => True
          end).
  - intros n s s' br _ (Hchain & Hstate) Hpass.
    destruct (@bracket_pass_selects method n s s' br Hm Hpass)
      as [[Hsame ->] | (row & x & Hrows & Ha & Hb & Hx & Hnext)].
    { rewrite Hsame. exact Hchain. }
    assert (Hchain' : chain_ok (iterations s')).
    { intros j r1 r2. rewrite Hrows. intros H1 H2.
      destruct (Nat.lt_ge_cases (S j) (List.length (iterations s)))
        as [Hlt|Hge].
      - rewrite nth_error_app1 in H1, H2 by lia.
        apply (Hchain j); assumption.
      - assert (Hj : List.length (iterations s) = S j).
        { assert (S j < List.length (iterations s ++ [row]))%nat
            by (apply nth_error_Some; congruence).
          rewrite length_app in *. cbn in *. lia. }
        rewrite nth_error_app1 in H1 by lia.
        rewrite nth_error_app2 in H2 by lia.
        rewrite Hj, Nat.sub_diag in H2. cbn in H2. injection H2 as <-.
        assert (Hne : iterations s <> []).
        { intros E. rewrite E in Hj. discriminate Hj. }
        destruct (last_row_nth Hne) as (r & Hlast & Hnth).
        rewrite Hj in Hnth. cbn in Hnth. rewrite Nat.sub_0_r in Hnth.
        rewrite Hlast in Hstate.
        assert (r = r1) by congruence. subst r.
        destruct Hstate as (a1 & b1 & est & Ha1 & Hb1 & Hx1 & Hkept).
        exists a1, b1, est. rewrite Ha, Hb, <- Hkept.
        repeat split; assumption. }
    destruct br; [exact Hchain'|].
    split; [exact Hchain'|].
    rewrite Hrows, last_row_snoc.
    exists (x0 s), (x1 s), x. repeat split; auto.
  - intros s [Hchain _]. exact Hchain.
  - lia.
  - split; [intros [|j] r1 r2 Hr; discriminate Hr | exact I].
Qed.

End WebHalves.

Section ExactHalves.

Variables (coeffs deriv_coeffs : list Q) (delta tol : Q).

Local Open Scope Q_scope.

Hypothesis tol_positive : 0 < tol.

Local Abbreviation pass := (loop_body coeffs deriv_coeffs delta tol).
Local Abbreviation loop := (for_loop coeffs deriv_coeffs delta tol).

Lemma not_lt (u v : Q) : flt u v = false -> v <= u.
Proof.
  change (negb (Qle_bool v u) = false -> v <= u).
  intros H. apply negb_false_iff, Qle_bool_iff in H. exact H.
Qed.

(** Values of opposite signs differ, so that the quotient of Regula Falsi
    is defined. *)
Lemma chord_defined (u fa fb : Q) :
  fge (fmul fa fb) (of_int 0) = false ->
  py_div u (fsub fb fa) = Ok (u / (fb - fa)).
Proof.
  intros T. apply not_ge_zero in T. unfold py_div.
  destruct (feq (fsub fb fa) (of_int 0)) eqn:E; [|reflexivity].
  exfalso. apply Qeq_bool_iff in E.
  change (fb - fa == 0) in E. change (fa * fb < 0) in T.
  assert (H : fb == fa) by lra. rewrite H in T. nra.
Qed.

(** The half kept for an estimate that is not within the tolerance of a
    root has a sign change. *)
Lemma kept_half_sign (a b x : Q) :
  sign_change coeffs a b ->
  tol <= Qabs (eval_poly coeffs x) ->
  sign_change coeffs (fst (kept_half coeffs a b x))
    (snd (kept_half coeffs a b x)).
Proof.
  unfold sign_change, kept_half. intros Hs Hx.
  change (flt (fmul (eval_poly coeffs a) (eval_poly coeffs x)) (of_int 0))
    with (negb (Qle_bool 0 (eval_poly coeffs a * eval_poly coeffs x))).
  destruct (Qle_bool 0 (eval_poly coeffs a * eval_poly coeffs x)) eqn:E;
    cbn [negb fst snd].
  - apply Qle_bool_iff in E.
    revert Hs Hx E.
    generalize (eval_poly coeffs a), (eval_poly coeffs b).
    intros fa fb.
    destruct (Qabs_spec (eval_poly coeffs x)) as [[H0 H]|[H0 H]];
      revert H0 H;
      generalize (Qabs (eval_poly coeffs x)), (eval_poly coeffs x);
      intros y fx H0 H Hs Hx E.
    + assert (0 < fx) by lra.
      destruct (Q_dec fa 0) as [[?|?]|?], (Q_dec fb 0) as [[?|?]|?]; nra.
    + assert (fx < 0) by lra.
      destruct (Q_dec fa 0) as [[?|?]|?], (Q_dec fb 0) as [[?|?]|?]; nra.
  - apply Qnot_le_lt. intros Hle. apply Qle_bool_iff in Hle. congruence.
Qed.

(** Either half cut at a point strictly inside is strictly narrower. *)
Lemma kept_half_narrower (a b x : Q) :
  width a x < width a b /\ width x b < width a b ->
  width (fst (kept_half coeffs a b x)) (snd (kept_half coeffs a b x))
  < width a b.
Proof.
  intros [Hleft Hright]. unfold kept_half.
  destruct (flt _ _); cbn [fst snd]; assumption.
Qed.

(** The bracket left is the half kept, with what [Hkept] says of it. *)
Ltac half_kept T Cf Hin Hkept :=
  lazymatch goal with
  | |- ?p = kept_half ?c ?a ?b ?x /\ _ =>
      let E := fresh "E" in
      assert (E : kept_half c a b x = p)
        by (unfold kept_half;
            lazymatch goal with
            | |- (if ?t then _ else _) = _ =>
                lazymatch type of T with
                | _ = ?v => replace t with v by (symmetry; exact T)
                end
            end; reflexivity);
      split; [symmetry; exact E|];
      exact (Hkept x Cf Hin p E)
  end.

(** One pass of a bracketing method entered on a bracket with a sign
    change: the bracket passes the test, a row is added, and, unless the
    estimate converged, the bracket left is the half kept, which has a sign
    change and is strictly narrower. *)
Lemma bracket_pass_keeps_sign (method : string) (n : Z) (s s' : locals)
    (br : bool) :
  bracketing method = true ->
  sign_change coeffs (x0 s) (x1 s) ->
  pass method n s = (s', br) ->
  error_msg s' = error_msg s
  /\ exists row x,
       iterations s' = iterations s ++ [row]
       /\ row_float "x_val" row = Some x
       /\ (br = false ->
           (x0 s', x1 s') = kept_half coeffs (x0 s) (x1 s) x
           /\ sign_change coeffs (x0 s') (x1 s')
           /\ width (x0 s') (x1 s') < width (x0 s) (x1 s)).
Proof.
  intros Hm Hs Hpass.
  assert (Htest : fge (fmul (eval_poly coeffs (x0 s)) (eval_poly coeffs (x1 s)))
                    (of_int 0) = false).
  { destruct (fge _ _) eqn:T; [|reflexivity]. exfalso.
    apply Qle_bool_iff in T. unfold sign_change in Hs.
    change (0 <= eval_poly coeffs (x0 s) * eval_poly coeffs (x1 s)) in T.
    lra. }
  assert (Hkept : forall x,
            tol <= Qabs (eval_poly coeffs x) ->
            width (x0 s) x < width (x0 s) (x1 s)
            /\ width x (x1 s) < width (x0 s) (x1 s) ->
            forall p, kept_half coeffs (x0 s) (x1 s) x = p ->
              sign_change coeffs (fst p) (snd p)
              /\ width (fst p) (snd p) < width (x0 s) (x1 s)).
  { intros x Hx Hin p <-. split.
    - apply kept_half_sign; assumption.
    - apply kept_half_narrower, Hin. }
  revert Hpass.
  destruct (bracketing_cases _ Hm) as [-> | ->];
    unfold loop_body, dispatch; cbn [String.eqb Ascii.eqb Bool.eqb].
  - unfold bisection_branch. cbn [x0 x1 set_i]. rewrite Htest.
    pose proof (bisect_narrower (sign_change_apart Hs)) as Hin.
    destruct (_ || _) eqn:C.
    + intros H. injection H as <- <-. split; [reflexivity|].
      eexists _, _. split; [reflexivity|]. split; [reflexivity|].
      discriminate.
    + apply orb_false_elim in C. destruct C as [Cf _]. apply not_lt in Cf.
      destruct (flt (fmul _ _) _) eqn:T; intros H; injection H as <- <-;
        (split; [reflexivity|]); eexists _, _;
        (split; [reflexivity|]); (split; [reflexivity|]); intros _;
        half_kept T Cf Hin Hkept.
  - unfold regula_falsi_branch. cbn [x0 x1 set_i]. rewrite Htest.
    rewrite (chord_defined _ _ _ Htest).
    pose proof (chord_narrower (sign_change_apart Hs) Hs) as Hin.
    destruct (flt (fabs _) tol) eqn:Cf.
    + intros H. injection H as <- <-. split; [reflexivity|].
      eexists _, _. split; [reflexivity|]. split; [reflexivity|].
      discriminate.
    + apply not_lt in Cf.
      destruct (flt (fmul _ _) _) eqn:T; intros H; injection H as <- <-;
        (split; [reflexivity|]); eexists _, _;
        (split; [reflexivity|]); (split; [reflexivity|]); intros _;
        half_kept T Cf Hin Hkept.
Qed.

(** Started on a bracket with a sign change, the loop of a bracketing
    method never sets a message. *)
Lemma bracket_loop_keeps_sign (method : string) (a b : Q) (max_iter : Z) :
  bracketing method = true ->
  sign_change coeffs a b ->
  error_msg (loop method (Z.to_nat max_iter) 1%Z (init_locals a b)) = None.
Proof.
  intros Hm Hs.
  apply for_loop_rule with (last := Z.max 0 max_iter)
    (Post := fun s => error_msg s = None)
    (Inv := fun (_ : Z) s =>
       sign_change coeffs (x0 s) (x1 s) /\ error_msg s = None).
  - intros n s s' br _ [Hsign Herr] Hpass.
    destruct (@bracket_pass_keeps_sign method n s s' br Hm Hsign Hpass)
      as (Hmsg & row & x & _ & _ & Hnext).
    destruct br; [congruence|].
    destruct (Hnext eq_refl) as (_ & Hsign' & _).
    split; [exact Hsign' | congruence].
  - intros s [_ Herr]. exact Herr.
  - lia.
  - split; [exact Hs | reflexivity].
Qed.

End ExactHalves.


(** ** Runs on IEEE doubles and on rationals *)

Section Runs.

Local Open Scope float_scope.

Local Set Warnings "-inexact-float".

(** The worked examples of the specification, on doubles: Newton-Raphson
    and Secant on [x^2 - 2] with tolerance 1e-6, Bisection over [0, 2] with
    tolerance 1e-4. *)
Example newton_on_sqrt2 :
  exists rows x,
    solve_method "newton" [1; 0; -2] 1 0 0.01 1e-6 10
      = Ok (rows, Some (VFloat x), true, None)
    /\ List.length rows = 5%nat
    /\ (fabs (x - 1.41421356) < 1e-6)%py = true.
Proof.
  do 2 eexists. split; [vm_compute; reflexivity|].
  split; vm_compute; reflexivity.
Qed.

Example secant_on_sqrt2 :
  exists rows x,
    solve_method "secant" [1; 0; -2] 1 2 0.01 1e-6 10
      = Ok (rows, Some (VFloat x), true, None)
    /\ List.length rows = 6%nat
    /\ (fabs (x - 1.41421356) < 1e-6)%py = true.
Proof.
  do 2 eexists. split; [vm_compute; reflexivity|].
  split; vm_compute; reflexivity.
Qed.

Example bisection_on_sqrt2 :
  exists rows x,
    solve_method "bisection" [1; 0; -2] 0 2 0.01 1e-4 30
      = Ok (rows, Some (VFloat x), true, None)
    /\ List.length rows = 14%nat
    /\ (fabs (x - 1.41421356) < 1e-4)%py = true.
Proof.
  do 2 eexists. split; [vm_compute; reflexivity|].
  split; vm_compute; reflexivity.
Qed.

(** C1, counterexample.  Web engine.  Regula Falsi on [8x^2 - 16] over
    [1, 2] with tolerance 1.5: the first row has error 1, below the
    tolerance, and the loop goes on to a second row.  Newton on [x^2],
    Secant on [x^2/4] and Modified Secant on [x^2/4], one iteration each:
    the estimate has [|f|] below the tolerance and the result is not
    converged. *)
Lemma web_stops_on_fewer_tests :
  (exists row1 row2 root conv msg,
     solve_method "regula_falsi" [8; 0; -16] 1 2 0.5 1.5 2
       = Ok ([row1; row2], root, conv, msg)
     /\ row_float "error" row1 = Some 1
     /\ (1 < 1.5)%py = true)
  /\ (exists row,
        solve_method "newton" [1; 0; 0] 1 0 0.5 0.375 1
          = Ok ([row], Some (VFloat 0.5), false, Some msg_max_iter)
        /\ (fabs (eval_poly [1; 0; 0] 0.5) < 0.375)%py = true)
  /\ (exists row,
        solve_method "secant" [0.25; 0; 0] 3 1 0.5 0.1875 1
          = Ok ([row], Some (VFloat 0.75), false, Some msg_max_iter)
        /\ (fabs (eval_poly [0.25; 0; 0] 0.75) < 0.1875)%py = true)
  /\ (exists row x,
        solve_method "modified_secant" [0.25; 0; 0] 1 0 1 0.25 1
          = Ok ([row], Some (VFloat x), false, Some msg_max_iter)
        /\ (fabs (eval_poly [0.25; 0; 0] x) < 0.25)%py = true).
Proof.
  split; [|split; [|split]].
  - do 5 eexists. split; [vm_compute; reflexivity|].
    split; vm_compute; reflexivity.
  - eexists. split; vm_compute; reflexivity.
  - eexists. split; vm_compute; reflexivity.
  - do 2 eexists. split; vm_compute; reflexivity.
Qed.

(** C2, counterexample.  Bisection on [x^2 + 2] over [1, 2] leaves the
    loop in iteration 1 with an empty trace: length 0, index 1. *)
Lemma failed_iteration_adds_no_row :
  solve_method "bisection" [1; 0; 2] 1 2 0.5 0.125 10
    = Ok ([], None, false, Some msg_not_bracketed)
  /\ stop_index "bisection" [1; 0; 2] 1 2 0.5 0.125 10 = Some 1%Z.
Proof. split; vm_compute; reflexivity. Qed.

(** C3, counterexample.  Terminal engine, Bisection on [f(x) = x].  With
    tolerance 0 over [-1, 1], the first step lands on the root and leaves
    the bracket [0, 1], where [f(a)*f(b) = 0]; rows 2 and 3 are printed all
    the same.  With a positive tolerance, over a bracket so small that
    [f(a)*f(x)] underflows to zero, the first step leaves a bracket of two
    positive values, and row 2 is printed all the same. *)
Lemma cli_does_not_recheck :
  cli_bisection [1; 0] (-1) 1 0 3
    = ([Banner "Bisection"; PolyLine [1; 0]; TableHeader bracket_headers;
        TableRule 75;
        RowLine 1 [-1; 1; 0; 0; 2];
        RowLine 2 [0; 1; 0.5; 0.5; 1];
        RowLine 3 [0.5; 1; 0.75; 0.75; 0.5];
        MaxIterLine 0.75], None)
  /\ (eval_poly [1; 0] 0 * eval_poly [1; 0] 1 >= of_int 0)%py = true
  /\ cli_bisection [1; 0] (-0x1p-537) 0x1.004p-537 0x1p-1000 2
     = ([Banner "Bisection"; PolyLine [1; 0]; TableHeader bracket_headers;
         TableRule 75;
         RowLine 1 [-0x1p-537; 0x1.004p-537; 0x1p-548; 0x1p-548;
                    0x1.002p-536];
         RowLine 2 [0x1p-548; 0x1.004p-537; 0x1.006p-538; 0x1.006p-538;
                    0x1.002p-537];
         MaxIterLine 0x1.006p-538], None)
  /\ (0 < 0x1p-1000)%py = true
  /\ (eval_poly [1; 0] 0x1p-548 * eval_poly [1; 0] 0x1.004p-537
      >= of_int 0)%py = true.
Proof.
  split; [vm_compute; reflexivity|]. split; [vm_compute; reflexivity|].
  split; [vm_compute; reflexivity|]. split; vm_compute; reflexivity.
Qed.

(** C8, counterexample.  The derivative of the terminal engine on a
    constant is empty, where [get_poly_derivative] returns one zero. *)
Lemma cli_derivative_of_constant :
  cli_derivative [5] = [] /\ get_poly_derivative [5] = [0].
Proof. split; reflexivity. Qed.


(** On doubles the test [f(a)*f(b) >= 0] lets a product that is not a
    number through: Bisection on [x^3] over [0, 2^700] has [f(a) = 0] and
    an infinite [f(b)], and fails one iteration later. *)
Example nan_product_passes_the_test :
  (eval_poly [1; 0; 0; 0] 0 * eval_poly [1; 0; 0; 0] 0x1p700 >= of_int 0)%py
    = false
  /\ exists row,
       solve_method "bisection" [1; 0; 0; 0] 0 0x1p700 0.5 0.25 3
       = Ok ([row], None, false, Some msg_not_bracketed).
Proof. split; [|eexists]; vm_compute; reflexivity. Qed.

Ltac with_solved call tac :=
  let v := eval vm_compute in call in
  lazymatch v with
  | Ok (?rows, ?root, ?conv, ?msg) =>
      let H := fresh "Hrun" in
      assert (H : call = Ok (rows, root, conv, msg))
        by (vm_compute; reflexivity);
      tac rows root conv msg H
  end.

(** C1, witness: Bisection on [x^2 - 2] over [0, 2] with tolerance 1/4
    stops at its fourth row, where [|f|] is below the tolerance; so does
    the same step of the terminal engine. *)
Lemma convergence_policy_witness :
  (exists rows,
     solve_method "bisection" [1; 0; -2] 0 2 0.5 0.25 10
       = Ok (rows, Some (VFloat 1.375), true, None)
     /\ List.length rows = 4%nat)
  /\ cli_for (bracket_step [1; 0; -2] bisection_x) 0.25 [1; 0; -2] 7 4
       (1.25, 1.5) (Some 1.25) []
     = ([RowLine 4 [1.25; 1.5; 1.375; -0.109375; 0.25];
         ConvergedLine 1.375 4], None).
Proof.
  with_solved (solve_method "bisection" [1; 0; -2] 0 2 0.5 0.25 10)
    ltac:(fun rows root conv msg H =>
      let row := eval vm_compute in (nth 3 rows []) in
      destruct (@convergence_policy float binary64
                  "bisection" [1; 0; -2] 0 2 0.5 0.25 10
                  rows root conv msg 3%nat row 1.375 0.25
                  (float * float)%type
                  (bracket_step [1; 0; -2] bisection_x)
                  6%nat 4%Z (1.25, 1.5) (1.375, 1.5)
                  [1.25; 1.5; 1.375; -0.109375; 0.25] 0.25 1.375
                  (Some 1.25) []) as [Hweb Hcli];
      specialize (Hweb H eq_refl eq_refl eq_refl
                    (or_intror (conj eq_refl eq_refl)));
      destruct Hweb as (Hlen & Hconv & Hroot & Hmsg);
      split;
      [ exists rows; split; [exact H | symmetry; exact Hlen]
      | apply Hcli; [reflexivity | right; split; [discriminate | reflexivity]] ]).
Defined.

(** C2, witness: the same solve has four rows and leaves the loop in
    iteration 4. *)
Lemma trace_length_at_exit_witness :
  exists rows root msg,
    solve_method "bisection" [1; 0; -2] 0 2 0.5 0.25 10
      = Ok (rows, root, true, msg)
    /\ stop_index "bisection" [1; 0; -2] 0 2 0.5 0.25 10 = Some 4%Z
    /\ Z.of_nat (List.length rows) = 4%Z.
Proof.
  with_solved (solve_method "bisection" [1; 0; -2] 0 2 0.5 0.25 10)
    ltac:(fun rows root conv msg H =>
      exists rows, root, msg;
      destruct (@trace_length_at_exit float binary64
                  "bisection" [1; 0; -2] 0 2 0.5 0.25 10
                  rows root conv msg H)
        as (k & Hk & _ & _ & Hconv & _);
      split; [exact H|];
      assert (Ek : k = 4%Z) by (vm_compute in Hk; congruence);
      split; [rewrite Hk, Ek; reflexivity|];
      rewrite (Hconv eq_refl); exact Ek).
Defined.

(** C3, witness: on [f(x) = x], once Bisection has moved the bracket
    [-1, 1] to [0, 1], the web engine leaves the loop in iteration 2, and
    the solve returns the one row of iteration 1; the terminal engine
    refuses [1, 2] for [x^2 + 2] before its table, and a Bisection step on
    it would yield a row. *)
Lemma sign_change_checked_witness :
  for_loop [1; 0] [] 0.5 0 "bisection" 9 2 (set_x0 0 (init_locals (-1) 1))
    = fail_with msg_not_bracketed
        (set_i (Some 2%Z) (set_x0 0 (init_locals (-1) 1)))
  /\ (exists row,
        solve_method "bisection" [1; 0] (-1) 1 0.5 0 10
          = Ok ([row], None, false, Some msg_not_bracketed)
        /\ checked_row [1; 0] row)
  /\ cli_bisection [1; 0; 2] 1 2 0.125 10
     = ([Banner "Bisection"; PolyLine [1; 0; 2]; NotBracketedLine], None)
  /\ bracket_step [1; 0; 2] bisection_x (1, 2)
     = Ok (1.5, 2, [1; 2; 1.5; 4.25; 1], 1, 1.5).
Proof.
  with_solved (solve_method "bisection" [1; 0] (-1) 1 0.5 0 10)
    ltac:(fun rows root conv msg H =>
      destruct (@sign_change_checked float binary64 "bisection" [1; 0] []
                  0.5 0 8%nat 2%Z (set_x0 0 (init_locals (-1) 1))
                  (-1) 1 10%Z rows root conv msg
                  "Bisection" bisection_x 0 1) as (Hweb & Hrows & _ & _);
      specialize (Hrows eq_refl H)).
  destruct (@sign_change_checked float binary64 "bisection" [1; 0; 2] []
              0.5 0.125 8%nat 2%Z (init_locals 1 2)
              1 2 10%Z [] None false None
              "Bisection" bisection_x 1 2)
    as (_ & _ & Hcli & (st & cells & err & est & Hstep)).
  split; [apply Hweb; reflexivity|].
  split.
  { eexists. split; [exact Hrun|]. inversion Hrows; assumption. }
  split; [apply Hcli; reflexivity|].
  rewrite Hstep. vm_compute in Hstep. injection Hstep as <- <- <- <-.
  reflexivity.
Defined.

(** C5, witness: the example of the specification, [x^2 + 2] over
    [1, 2], for both bracketing methods. *)
Lemma no_sign_change_result_witness :
  solve_method "bisection" [1; 0; 2] 1 2 0.5 0.125 10
    = Ok ([], None, false, Some msg_not_bracketed)
  /\ solve_method "regula_falsi" [1; 0; 2] 1 2 0.5 0.125 10
     = Ok ([], None, false, Some msg_not_bracketed).
Proof.
  split; apply no_sign_change_result; solve [reflexivity | lia].
Defined.

(** C6, witness: the example of the specification, [x^2] at 0. *)
Lemma newton_zero_derivative_witness :
  solve_method "newton" [1; 0; 0] 0 0 0.5 0.125 10
    = Ok ([], None, false, Some msg_newton)
  /\ cli_newton [1; 0; 0] 0 0.125 10
     = ([Banner "Newton-Raphson"; PolyLine [1; 0; 0];
         TableHeader open_headers; TableRule 45; DivZeroLine], None).
Proof.
  destruct (@newton_zero_derivative float binary64 [1; 0; 0] 0 0 0.5 0.125
              10%Z ltac:(lia)) as [Hweb Hcli].
  split; [apply Hweb | apply Hcli]; reflexivity.
Defined.

(** C7, witness: Bisection on [x^2 - 2] over [0, 2] with three
    iterations and a tolerance of 2^-10. *)
Lemma max_iterations_reached_witness :
  (exists rows,
     solve_method "bisection" [1; 0; -2] 0 2 0.5 0x1p-10 3
       = Ok (rows, Some (VFloat 1.25), false, Some msg_max_iter)
     /\ List.length rows = 3%nat)
  /\ cli_for (bracket_step [1; 0; -2] bisection_x) 0x1p-10 [1; 0; -2] 1 3
       (1, 1.5) (Some 1.5) []
     = ([RowLine 3 [1; 1.5; 1.25; -0.4375; 0.5]; MaxIterLine 1.25], None).
Proof.
  destruct (@max_iterations_reached float binary64
              "bisection" [1; 0; -2] 0 2 0.5 0x1p-10 3%Z
              (float * float)%type (bracket_step [1; 0; -2] bisection_x)
              3%Z (1, 1.5) (1.25, 1.5) [1; 1.5; 1.25; -0.4375; 0.5]
              0.5 1.25 (Some 1.5) []) as [Hweb Hcli].
  split.
  - destruct Hweb as (row & x & Hsolve & _ & Hlen & _ & _ & _);
      try reflexivity; try lia.
    eexists. split; [vm_compute; reflexivity|].
    apply Nat2Z.inj. rewrite <- Hlen. vm_compute. reflexivity.
  - apply Hcli; reflexivity.
Defined.

(** C8, witness: [3x^2 + 2x + 1] has derivative [6x + 2] in both
    engines. *)
Lemma derivative_coefficients_witness :
  get_poly_derivative [3; 2; 1] = [6; 2] /\ cli_derivative [3; 2; 1] = [6; 2].
Proof.
  destruct (@derivative_coefficients float binary64 [3; 2; 1] 2%nat eq_refl)
    as [Hdeg _].
  destruct (Hdeg ltac:(lia)) as (_ & _ & Hcli).
  split; [reflexivity | rewrite Hcli; reflexivity].
Defined.

(** C9, witness: a method called [halley] with three iterations. *)
Lemma unknown_method_raises_witness :
  iterations (run_loop "halley" [1; 0; -2] 1 2 0.5 0.125 3)
    = [[("iter"%string, VInt 1)]; [("iter"%string, VInt 2)];
       [("iter"%string, VInt 3)]]
  /\ solve_method "halley" [1; 0; -2] 1 2 0.5 0.125 3
     = Raise (KeyError "x_val").
Proof.
  apply (@unknown_method_raises float binary64 "halley" [1; 0; -2] 1 2 0.5
           0.125 3%Z); [reflexivity | lia].
Defined.

(** C10, witness: [g(x) = x/2] from 1 with tolerance 3/8: the step error
    is 1/2, above the tolerance, [|g(1/2)|] is 1/4, below it, and the run
    reports convergence at 1/2. *)
Lemma cli_fixed_point_fvalue_witness :
  (fabs (eval_poly [0.5; 0] 1 - 1) < 0.375)%py = false
  /\ cli_fixed_point [0.5; 0] 1 0.375 10
     = ([Banner "Fixed Point"; PolyLine [0.5; 0]; TableHeader open_headers;
         TableRule 45; RowLine 1 [1; 0.5; 0.5]; ConvergedLine 0.5 1], None).
Proof.
  split; [reflexivity|].
  destruct (@cli_fixed_point_fvalue float binary64 [0.5; 0] 0.375 1
              0%nat 1%Z None [] 10%Z ltac:(discriminate) eq_refl)
    as [_ Hrun].
  rewrite Hrun by lia. reflexivity.
Defined.


End Runs.

(** * Further properties of the two engines *)

(** ** Results of the web engine, for any arithmetic *)

Section WebResults.

Context {F : Type} {num : PyNum F}.
Variables (method : string) (coeffs : list F) (a b delta tol : F) (max_iter : Z).

Local Open Scope py_scope.

Local Abbreviation final := (run_loop method coeffs a b delta tol max_iter).
Local Abbreviation solved := (solve_method method coeffs a b delta tol max_iter).

(** Whatever [solve_method] returns has one of the three shapes of
    [returned]. *)
Lemma solve_returned (r : Result) :
  solved = Ok r -> returned method coeffs tol max_iter r.
Proof.
  intros Hsolve.
  destruct (run_loop_exit method coeffs a b delta tol max_iter) as
    [ k x row rows Hi Hk Hrows Hlen Hq Hiter Hx Hstop Hroot Hc He
    | k m Hi Hk Hlen Hq Hkn Hm1 Hm2 Hroot Hc He
    | Hi Hk Hlen Hq Hroot Hc He
    | Hle Hi Hrows Hroot Hc He ].
  - rewrite solve_after_break in Hsolve by (left; exact Hc).
    injection Hsolve as <-. rewrite Hrows, Hroot, Hc, He.
    apply returned_converged; auto.
    + rewrite Hiter. do 2 f_equal. lia.
    + lia.
  - rewrite solve_after_break in Hsolve
      by (right; rewrite He; apply no_error_some, Hm1).
    injection Hsolve as <-. rewrite Hroot, Hc, He.
    apply returned_failed; auto. lia.
  - destruct (known_method method) eqn:Hkn.
    + destruct (solve_exhausted method coeffs a b delta tol Hkn Hk Hc He)
        as (row & x & Hs & _ & _ & Hnth & _ & Hx).
      rewrite Hs in Hsolve. injection Hsolve as <-.
      apply returned_exhausted with (row := row); auto.
      assert (Hne : iterations final <> []).
      { intros E. rewrite E in Hlen. cbn in Hlen. lia. }
      destruct (last_row_nth Hne) as (row' & Hlast & Hnth').
      replace (List.length (iterations final) - 1)%nat
        with (Z.to_nat max_iter - 1)%nat in Hnth' by lia.
      congruence.
    + rewrite solve_unknown_method in Hsolve by assumption.
      discriminate Hsolve.
  - rewrite solve_not_entered in Hsolve by assumption. discriminate Hsolve.
Qed.

(** With a method of the six and an iteration to run, a result is
    returned. *)
Lemma solve_known_returns :
  known_method method = true -> (1 <= max_iter)%Z -> exists r, solved = Ok r.
Proof.
  intros Hkn Hmax.
  destruct (run_loop_exit method coeffs a b delta tol max_iter) as
    [ k x row rows Hi Hk Hrows Hlen Hq Hiter Hx Hstop Hroot Hc He
    | k m Hi Hk Hlen Hq _ Hm1 Hm2 Hroot Hc He
    | Hi Hk Hlen Hq Hroot Hc He
    | Hle Hi Hrows Hroot Hc He ].
  - eexists. apply solve_after_break. left. exact Hc.
  - eexists. apply solve_after_break. right.
    rewrite He. apply no_error_some, Hm1.
  - destruct (solve_exhausted method coeffs a b delta tol Hkn Hk Hc He)
      as (row & x & Hs & _).
    eexists. exact Hs.
  - lia.
Qed.

End WebResults.

Section WebResultProperties.

Context {F : Type} {num : PyNum F}.

Local Open Scope py_scope.

(** X1.  [solve_method] returns a result exactly when it is given one of the
    six method names and at least one iteration.  Otherwise it raises:
    [IndexError] when [max_iter] is below 1, whatever the method, and
    [KeyError] for another method name. *)
Theorem solve_method_returns_iff (method : string) (coeffs : list F)
    (a b delta tol : F) (max_iter : Z) :
  match solve_method method coeffs a b delta tol max_iter with
  | Ok _ => known_method method = true /\ (1 <= max_iter)%Z
  | Raise e =>
      ((max_iter <= 0)%Z /\ e = IndexError)
      \/ ((1 <= max_iter)%Z /\ known_method method = false
          /\ e = KeyError "x_val")
  end.
Proof.
  destruct (Z.le_gt_cases max_iter 0) as [Hle|Hgt].
  { rewrite solve_not_entered by exact Hle. left. auto. }
  destruct (known_method method) eqn:Hkn.
  - destruct (solve_known_returns method coeffs a b delta tol (max_iter := max_iter)
                Hkn ltac:(lia)) as [r ->].
    split; [reflexivity | lia].
  - rewrite solve_unknown_method by (assumption || lia).
    right. repeat split; auto. lia.
Qed.

(** X2.  In a returned result, [converged] is set exactly when there is no
    message; the root is missing exactly after a fatal error; and a root that
    is there is the estimate ['x_val'] of the last row of the trace. *)
Theorem result_outcomes (method : string) (coeffs : list F)
    (a b delta tol : F) (max_iter : Z)
    (rows : list dict) (root : option value) (conv : bool)
    (msg : option string) :
  solve_method method coeffs a b delta tol max_iter
    = Ok (rows, root, conv, msg) ->
  (conv = true <-> msg = None)
  /\ (root = None <-> conv = false /\ msg <> Some msg_max_iter)
  /\ (forall v, root = Some v ->
        exists row x, v = VFloat x /\ last_row rows = Ok row
                      /\ row_float "x_val" row = Some x).
Proof.
  intros Hsolve. apply solve_returned in Hsolve.
  inversion Hsolve as
    [ rows' row x Hq Hiter Hx Hstop Hk
    | rows' m Hq Hkn Hm1 Hm2 Hk
    | rows' row x Hq Hkn Hlen Hlast Hx ]; subst.
  - split; [tauto|]. split.
    + split; [discriminate | intros [H _]; discriminate H].
    + intros v Hv. injection Hv as <-. exists row, x.
      rewrite last_row_snoc. auto.
  - split; [split; discriminate|]. split.
    + split; [|reflexivity]. intros _. split; [reflexivity|congruence].
    + discriminate.
  - split; [split; discriminate|]. split.
    + split; [discriminate | intros [_ H]; congruence].
    + intros v Hv. injection Hv as <-. exists row, x. auto.
Qed.

(** X3.  The rows of a returned trace are numbered from 1: the row at
    position [j] (from 0) holds ['iter'] = [j + 1]. *)
Theorem rows_numbered (method : string) (coeffs : list F)
    (a b delta tol : F) (max_iter : Z)
    (rows : list dict) (root : option value) (conv : bool)
    (msg : option string) (j : nat) (row : dict) :
  solve_method method coeffs a b delta tol max_iter
    = Ok (rows, root, conv, msg) ->
  nth_error rows j = Some row ->
  dict_get "iter" row = Some (VInt (Z.of_nat j + 1)).
Proof.
  intros Hsolve Hj. apply solve_returned in Hsolve.
  assert (Hquiet : forall rs, quiet_rows method coeffs tol rs ->
            nth_error rs j = Some row ->
            dict_get "iter" row = Some (VInt (Z.of_nat j + 1))).
  { intros rs Hq Hrs. destruct (Hq _ _ Hrs) as [Hiter _].
    rewrite Hiter. do 2 f_equal. lia. }
  inversion Hsolve as
    [ rows' last x Hq Hiter Hx Hstop Hk
    | rows' m Hq Hkn Hm1 Hm2 Hk
    | rows' last x Hq Hkn Hlen Hlast Hx ]; subst; eauto.
  destruct (Nat.lt_ge_cases j (List.length rows')) as [Hlt|Hge].
  - rewrite nth_error_app1 in Hj by exact Hlt. eauto.
  - rewrite nth_error_app2 in Hj by exact Hge.
    destruct (j - List.length rows')%nat as [|d] eqn:Ed;
      [|destruct d; discriminate Hj].
    cbn in Hj. injection Hj as <-. rewrite Hiter. do 2 f_equal. lia.
Qed.

(** X4.  A result is reported converged only when a tolerance test held on
    its last row: the error below the tolerance for a method that stops on
    the error, or [|f|] at the estimate below it for a bracketing method;
    and the root is the estimate of that row. *)
Theorem converged_is_sound (method : string) (coeffs : list F)
    (a b delta tol : F) (max_iter : Z)
    (rows : list dict) (root : option value) (msg : option string) :
  solve_method method coeffs a b delta tol max_iter
    = Ok (rows, root, true, msg) ->
  exists row x e,
    last_row rows = Ok row
    /\ row_float "x_val" row = Some x /\ row_float "error" row = Some e
    /\ root = Some (VFloat x)
    /\ ((stops_on_error method = true /\ (e < tol) = true)
        \/ (stops_on_fvalue method = true
            /\ (fabs (eval_poly coeffs x) < tol) = true)).
Proof.
  intros Hsolve. apply solve_returned in Hsolve.
  inversion Hsolve as [ rows' row x Hq Hiter Hx Hstop Hk | | ]; subst.
  revert Hstop. unfold web_stop_test. rewrite Hx.
  destruct (row_float "error" row) as [e|] eqn:He; [|discriminate].
  intros Hstop. exists row, x, e. rewrite last_row_snoc.
  repeat split; auto.
  apply orb_true_iff in Hstop.
  destruct Hstop as [H|H]; apply andb_true_iff in H; auto.
Qed.

End WebResultProperties.

(** ** Rows and zero denominators, for any arithmetic *)

Section WebRows.

Context {F : Type} {num : PyNum F}.
Variables (coeffs deriv_coeffs : list F) (delta tol : F).

Local Open Scope py_scope.

Local Abbreviation pass := (loop_body coeffs deriv_coeffs delta tol).
Local Abbreviation loop := (for_loop coeffs deriv_coeffs delta tol).

Ltac shaped_row :=
  right; eexists; split; [reflexivity|];
  split; reflexivity.

(** A pass adds no row, or a row with the keys of the method. *)
Lemma loop_body_shape (method : string) (n : Z) (s s' : locals) (br : bool) :
  pass method n s = (s', br) ->
  iterations s' = iterations s
  \/ exists row, iterations s' = iterations s ++ [row]
                 /\ row_shape method row.
Proof.
  unfold loop_body, dispatch.
  destruct (String.eqb method "bisection") eqn:M1; [method_is M1|].
  { unfold bisection_branch. split_tests; intros H; injection H as <- <-;
      first [left; reflexivity | shaped_row]. }
  destruct (String.eqb method "regula_falsi") eqn:M2; [method_is M2|].
  { unfold regula_falsi_branch. split_tests; intros H; injection H as <- <-;
      first [left; reflexivity | shaped_row]. }
  destruct (String.eqb method "secant") eqn:M3; [method_is M3|].
  { unfold secant_branch. split_tests; intros H; injection H as <- <-;
      first [left; reflexivity | shaped_row]. }
  destruct (String.eqb method "newton") eqn:M4; [method_is M4|].
  { unfold newton_branch. split_tests; intros H; injection H as <- <-;
      first [left; reflexivity | shaped_row]. }
  destruct (String.eqb method "fixed_point") eqn:M5; [method_is M5|].
  { unfold fixed_point_branch. split_tests; intros H; injection H as <- <-;
      first [left; reflexivity | shaped_row]. }
  destruct (String.eqb method "modified_secant") eqn:M6; [method_is M6|].
  { unfold modified_secant_branch. split_tests;
      intros H; injection H as <- <-;
      first [left; reflexivity | shaped_row]. }
  intros H. injection H as <- <-. right. eexists. split; [reflexivity|].
  unfold row_shape, columns, bracketing. cbn.
  rewrite M1, M2, M3, M4, M5, M6. cbn. split; reflexivity.
Qed.

Lemma loop_rows_shaped (method : string) (a b : F) (max_iter : Z) :
  Forall (row_shape method)
    (iterations (loop method (Z.to_nat max_iter) 1%Z (init_locals a b))).
Proof.
  apply for_loop_rule with (last := Z.max 0 max_iter)
    (Post := fun s => Forall (row_shape method) (iterations s))
    (Inv := fun (_ : Z) s => Forall (row_shape method) (iterations s)).
  - intros n s s' br _ Hinv Hpass.
    assert (Hs' : Forall (row_shape method) (iterations s')).
    { destruct (loop_body_shape _ _ _ Hpass) as [-> | (row & -> & Hrow)];
        [exact Hinv|].
      apply Forall_app. split; [exact Hinv|]. constructor; [exact Hrow|].
      constructor. }
    destruct br; exact Hs'.
  - auto.
  - lia.
  - constructor.
Qed.

(** A Secant iteration entered with [f(x1) - f(x0) == 0] leaves the loop
    at once. *)
Lemma loop_secant_zero (todo : nat) (n : Z) (s : locals) :
  (eval_poly coeffs (x1 s) - eval_poly coeffs (x0 s) == of_int 0) = true ->
  loop "secant" (S todo) n s = fail_with msg_secant (set_i (Some n) s).
Proof.
  intros Hd. cbn [for_loop]. unfold loop_body, dispatch.
  cbn [String.eqb Ascii.eqb Bool.eqb]. unfold secant_branch.
  cbn [x0 x1 set_i]. rewrite Hd. reflexivity.
Qed.

(** So does a Modified Secant iteration entered with a zero denominator. *)
Lemma loop_modified_secant_zero (todo : nat) (n : Z) (s : locals) :
  (eval_poly coeffs (curr_x s + delta * curr_x s)
   - eval_poly coeffs (curr_x s) == of_int 0) = true ->
  loop "modified_secant" (S todo) n s
  = fail_with msg_mod_secant (set_i (Some n) s).
Proof.
  intros Hd. cbn [for_loop]. unfold loop_body, dispatch.
  cbn [String.eqb Ascii.eqb Bool.eqb]. unfold modified_secant_branch.
  cbn [curr_x set_i]. rewrite Hd. reflexivity.
Qed.

End WebRows.

Section ZeroDenominators.

Context {F : Type} {num : PyNum F}.
Variables (coeffs : list F) (delta tol : F) (max_iter : Z).

Local Open Scope py_scope.

Hypothesis one_iteration : (1 <= max_iter)%Z.

Lemma secant_zero_web (x0 x1 : F) :
  (eval_poly coeffs x1 - eval_poly coeffs x0 == of_int 0) = true ->
  solve_method "secant" coeffs x0 x1 delta tol max_iter
  = Ok ([], None, false, Some msg_secant).
Proof.
  intros Hd. unfold solve_method, run_loop.
  destruct (Z.to_nat max_iter) as [|todo] eqn:E; [lia|].
  rewrite loop_secant_zero by exact Hd. reflexivity.
Qed.

Lemma secant_zero_cli (x0 x1 : F) :
  (eval_poly coeffs x1 - eval_poly coeffs x0 == of_int 0) = true ->
  secant_wrapper coeffs x0 x1 tol max_iter
  = ([Banner "Secant Method"; TableHeader secant_headers; TableRule 60;
      DivZeroLine], None).
Proof.
  intros Hd. unfold secant_wrapper, solve_loop.
  destruct (Z.to_nat max_iter) as [|todo] eqn:E; [lia|].
  rewrite cli_for_div_zero; [reflexivity|].
  unfold secant_step, py_div. rewrite Hd. reflexivity.
Qed.

Lemma modified_secant_zero_web (x b : F) :
  (eval_poly coeffs (x + delta * x) - eval_poly coeffs x == of_int 0) = true ->
  solve_method "modified_secant" coeffs x b delta tol max_iter
  = Ok ([], None, false, Some msg_mod_secant).
Proof.
  intros Hd. unfold solve_method, run_loop.
  destruct (Z.to_nat max_iter) as [|todo] eqn:E; [lia|].
  rewrite loop_modified_secant_zero by exact Hd. reflexivity.
Qed.

Lemma modified_secant_zero_cli (x : F) :
  (eval_poly coeffs (x + delta * x) - eval_poly coeffs x == of_int 0) = true ->
  cli_modified_secant delta coeffs x tol max_iter
  = ([Banner "Modified Secant"; PolyLine coeffs; TableHeader open_headers;
      TableRule 45; DivZeroLine], None).
Proof.
  intros Hd. unfold cli_modified_secant, open_method, solve_loop.
  destruct (Z.to_nat max_iter) as [|todo] eqn:E; [lia|].
  rewrite cli_for_div_zero; [reflexivity|].
  unfold open_step, modified_secant_logic, py_div. rewrite Hd. reflexivity.
Qed.

End ZeroDenominators.

Section RowProperties.

Context {F : Type} {num : PyNum F}.

Local Open Scope py_scope.

(** X5.  Every row of a returned trace holds the keys of its method, in
    the same order: ['iter'] first, an [int], then the columns of
    [columns], all floats.  In particular every row of the six methods has
    an estimate ['x_val'] and an ['error']. *)
Theorem rows_have_method_columns (method : string) (coeffs : list F)
    (a b delta tol : F) (max_iter : Z)
    (rows : list dict) (root : option value) (conv : bool)
    (msg : option string) :
  solve_method method coeffs a b delta tol max_iter
    = Ok (rows, root, conv, msg) ->
  Forall (row_shape method) rows.
Proof.
  intros Hsolve. apply solve_trace in Hsolve. subst rows.
  apply loop_rows_shaped.
Qed.

(** X6.  A zero denominator in the first iteration, in either engine:
    Secant with [f(x1) - f(x0) == 0] and Modified Secant with
    [f(x + delta*x) - f(x) == 0] return their division-by-zero message with
    an empty trace and no root in the web engine, and print the
    division-by-zero line before any row in the terminal engine. *)
Theorem zero_denominator_stops (coeffs : list F) (x0 x1 delta tol : F)
    (max_iter : Z) :
  (1 <= max_iter)%Z ->
  ((eval_poly coeffs x1 - eval_poly coeffs x0 == of_int 0) = true ->
   solve_method "secant" coeffs x0 x1 delta tol max_iter
   = Ok ([], None, false, Some msg_secant)
   /\ secant_wrapper coeffs x0 x1 tol max_iter
      = ([Banner "Secant Method"; TableHeader secant_headers; TableRule 60;
          DivZeroLine], None))
  /\
  ((eval_poly coeffs (x0 + delta * x0) - eval_poly coeffs x0 == of_int 0)
     = true ->
   solve_method "modified_secant" coeffs x0 x1 delta tol max_iter
   = Ok ([], None, false, Some msg_mod_secant)
   /\ cli_modified_secant delta coeffs x0 tol max_iter
      = ([Banner "Modified Secant"; PolyLine coeffs; TableHeader open_headers;
          TableRule 45; DivZeroLine], None)).
Proof.
  intros Hmax. split; intros Hd; split.
  - apply secant_zero_web; assumption.
  - apply secant_zero_cli; assumption.
  - apply modified_secant_zero_web; assumption.
  - apply modified_secant_zero_cli; assumption.
Qed.

End RowProperties.

(** ** Degenerate starts, on doubles *)

Section DoubleStarts.

Local Open Scope float_scope.

(** A finite double is a zero or a number with a mantissa. *)
Lemma finite_cases (v : float) :
  is_finite v = true ->
  match Prim2SF v with
  | S754_zero _ | S754_finite _ _ _ => True
  | _ => False
  end.
Proof.
  unfold is_finite, is_nan, is_infinity.
  rewrite !FloatAxioms.eqb_spec, FloatAxioms.abs_spec.
  destruct (Prim2SF v) as [sg|sg| |sg m e]; try exact (fun _ => I).
  - vm_compute. destruct sg; discriminate.
  - vm_compute. discriminate.
Qed.

(** [v - v == 0] for a finite [v]; for an infinity or a nan the difference
    is a nan, which equals nothing. *)
Lemma sub_self_is_zero (v : float) :
  is_finite v = true -> feq (fsub v v) (of_int 0) = true.
Proof.
  intros Hv. apply finite_cases in Hv.
  change (PrimFloat.eqb (PrimFloat.sub v v) (Z2float 0) = true).
  rewrite FloatAxioms.eqb_spec, FloatAxioms.sub_spec.
  replace (Prim2SF (Z2float 0)) with (S754_zero false)
    by (vm_compute; reflexivity).
  destruct (Prim2SF v) as [sg|sg| |sg m e]; try contradiction.
  - destruct sg; reflexivity.
  - unfold SF64sub, SFsub. rewrite Z.sub_diag. reflexivity.
Qed.

(** [x + delta * x] is [x] itself when [delta] is 0.0 and [x] is finite,
    and when [x] is 0.0 and [delta] is finite. *)
Lemma unmoved_point (x d : float) :
  (d = 0 /\ is_finite x = true) \/ (x = 0 /\ is_finite d = true) ->
  x + d * x = x.
Proof.
  intros H. apply Prim2SF_inj.
  rewrite FloatAxioms.add_spec, FloatAxioms.mul_spec.
  destruct H as [[-> Hx] | [-> Hd]].
  - apply finite_cases in Hx.
    replace (Prim2SF 0) with (S754_zero false) by (vm_compute; reflexivity).
    destruct (Prim2SF x) as [sg|sg| |sg m e]; try contradiction.
    + destruct sg; reflexivity.
    + reflexivity.
  - apply finite_cases in Hd.
    replace (Prim2SF 0) with (S754_zero false) by (vm_compute; reflexivity).
    destruct (Prim2SF d) as [sg|sg| |sg m e]; try contradiction.
    + destruct sg; reflexivity.
    + destruct sg; reflexivity.
Qed.

End DoubleStarts.

(** X7.  Degenerate starts, on doubles.  With at least one iteration and a
    finite value [f(x0)], both engines end in their division-by-zero
    outcome before any row: Secant when its two guesses are the same
    double, and Modified Secant when the perturbed point [x0 + delta*x0] is
    [x0] itself, as it is for [delta] = 0.0 and a finite [x0], and for
    [x0] = 0.0 and a finite [delta]. *)
Theorem degenerate_starts_fail (coeffs : list float)
    (x0 x1 delta tol : float) (max_iter : Z) :
  (1 <= max_iter)%Z ->
  is_finite (eval_poly coeffs x0) = true ->
  (x1 = x0 ->
   solve_method "secant" coeffs x0 x1 delta tol max_iter
   = Ok ([], None, false, Some msg_secant)
   /\ secant_wrapper coeffs x0 x1 tol max_iter
      = ([Banner "Secant Method"; TableHeader secant_headers; TableRule 60;
          DivZeroLine], None))
  /\
  ((delta = 0%float /\ is_finite x0 = true)
   \/ (x0 = 0%float /\ is_finite delta = true)
   \/ (x0 + delta * x0)%float = x0 ->
   solve_method "modified_secant" coeffs x0 x1 delta tol max_iter
   = Ok ([], None, false, Some msg_mod_secant)
   /\ cli_modified_secant delta coeffs x0 tol max_iter
      = ([Banner "Modified Secant"; PolyLine coeffs; TableHeader open_headers;
          TableRule 45; DivZeroLine], None)).
Proof.
  intros Hmax Hfinite. split.
  - intros ->.
    pose proof (sub_self_is_zero _ Hfinite) as Hd.
    split; [apply secant_zero_web | apply secant_zero_cli]; assumption.
  - intros Hsame.
    assert (Hx : (x0 + delta * x0)%float = x0).
    { destruct Hsame as [H | [H | H]]; [| |exact H];
        apply unmoved_point; auto. }
    assert (Hd : feq (fsub (eval_poly coeffs (fadd x0 (fmul delta x0)))
                        (eval_poly coeffs x0)) (of_int 0) = true).
    { change (fadd x0 (fmul delta x0)) with (x0 + delta * x0)%float.
      rewrite Hx. apply sub_self_is_zero, Hfinite. }
    split; [apply modified_secant_zero_web | apply modified_secant_zero_cli];
      assumption.
Qed.

(** ** Runs of the terminal engine, for any arithmetic *)

Section CliRuns.

Context {F : Type} {num : PyNum F}.
Variables (St : Type) (step_func : St -> result (St * list F * F * F)).
Variables (tol : F) (coeffs : list F).

Local Open Scope py_scope.

Hypothesis only_zero_division :
  forall state e, step_func state = Raise e -> e = ZeroDivisionError.

(** The loop prints numbered rows and one closing line, and raises
    nothing, once [root] is bound or an iteration is left. *)
Lemma cli_for_shape (todo : nat) :
  forall (n : Z) (state : St) (r : option F) (out : list line),
    (todo = O -> r <> None) ->
    exists cells last,
      cli_for step_func tol coeffs todo n state r out
      = (out ++ number_rows n cells ++ [last], None)
      /\ (List.length cells <= todo)%nat
      /\ closes n todo (List.length cells) last.
Proof.
  induction todo as [|todo IH]; intros n state r out Hr; cbn [cli_for].
  - destruct r as [r|]; [|exfalso; apply Hr; reflexivity].
    exists [], (MaxIterLine r). cbn. auto.
  - destruct (step_func state) as [[[[new_state row] err] root]|e] eqn:Es.
    + destruct ((err < tol) || f_val_below tol coeffs root).
      * exists [row], (ConvergedLine root n). cbn.
        rewrite <- app_assoc. split; [reflexivity|].
        split; [lia|]. split; [lia|]. lia.
      * destruct (IH (n + 1)%Z new_state (Some root)
                    (out ++ [RowLine n row]) ltac:(discriminate))
          as (cells & last & -> & Hlen & Hclose).
        exists (row :: cells), last. cbn [number_rows List.length].
        rewrite <- !app_assoc. split; [reflexivity|].
        split; [lia|].
        destruct last; cbn in Hclose |- *; try lia; try contradiction.
    + rewrite (only_zero_division Es).
      exists [], DivZeroLine. cbn. split; [reflexivity|]. split; lia.
Qed.

End CliRuns.

Section CliSteps.

Context {F : Type} {num : PyNum F}.

Local Open Scope py_scope.

Lemma py_div_raises (x y : F) (e : exn) :
  py_div x y = Raise e -> e = ZeroDivisionError.
Proof.
  unfold py_div. destruct (y == of_int 0); intros H; [|discriminate H].
  injection H as <-. reflexivity.
Qed.

(** The step functions of the six methods raise nothing but
    [ZeroDivisionError]. *)
Lemma bracket_step_raises (c : list F) (calc_x : F -> F -> F -> F -> result F)
    (s : F * F) (e : exn) :
  calc_x = bisection_x \/ calc_x = regula_falsi_x ->
  bracket_step c calc_x s = Raise e -> e = ZeroDivisionError.
Proof.
  destruct s as [a b]. unfold bracket_step, bind.
  intros [-> | ->]; [discriminate|].
  unfold regula_falsi_x.
  destruct (py_div _ _) eqn:E; [discriminate|].
  intros H. injection H as <-. exact (py_div_raises _ _ E).
Qed.

Lemma secant_step_raises (c : list F) (s : F * F) (e : exn) :
  secant_step c s = Raise e -> e = ZeroDivisionError.
Proof.
  destruct s as [x0 x1]. unfold secant_step, bind.
  destruct (py_div _ _) eqn:E; [discriminate|].
  intros H. injection H as <-. exact (py_div_raises _ _ E).
Qed.

Lemma newton_step_raises (c d : list F) (x : F) (e : exn) :
  open_step c newton_logic d x = Raise e -> e = ZeroDivisionError.
Proof.
  unfold open_step, newton_logic, bind.
  destruct (py_div _ _) eqn:E; [discriminate|].
  intros H. injection H as <-. exact (py_div_raises _ _ E).
Qed.

Lemma fixed_point_step_raises (c : list F) (x : F) (e : exn) :
  open_step c fixed_point_logic tt x = Raise e -> e = ZeroDivisionError.
Proof. discriminate. Qed.

Lemma modified_secant_step_raises (c : list F) (d x : F) (e : exn) :
  open_step c modified_secant_logic d x = Raise e -> e = ZeroDivisionError.
Proof.
  unfold open_step, modified_secant_logic, bind.
  destruct (py_div _ _) eqn:E; [discriminate|].
  intros H. injection H as <-. exact (py_div_raises _ _ E).
Qed.

(** X8.  What [solve_loop] prints, for a step function that raises nothing
    but [ZeroDivisionError], as those of the six methods do.  With at least
    one iteration it raises nothing and prints the header, rows numbered
    1, 2, ... and exactly one closing line: the division-by-zero line after
    fewer than [max_iter] rows, the convergence line carrying the number of
    the last row, or the max-iterations line after exactly [max_iter] rows.
    With no iteration it prints the header and raises [UnboundLocalError]
    for [root]. *)
Theorem solve_loop_prints (St : Type)
    (step_func : St -> result (St * list F * F * F)) (tol : F)
    (coeffs : list F) (headers : list string) (state : St) (max_iter : Z)
    (out : list line)
    (c d : list F) (dl x : F) (s : F * F) (e : exn) :
  ((forall st e', step_func st = Raise e' -> e' = ZeroDivisionError) ->
   ((1 <= max_iter)%Z ->
    exists cells last,
      solve_loop step_func tol coeffs headers state max_iter out
      = (out ++ [TableHeader headers;
                 TableRule (15 * Z.of_nat (List.length headers))]
             ++ number_rows 1 cells ++ [last], None)
      /\ (Z.of_nat (List.length cells) <= max_iter)%Z
      /\ closes 1 (Z.to_nat max_iter) (List.length cells) last)
   /\
   ((max_iter <= 0)%Z ->
    solve_loop step_func tol coeffs headers state max_iter out
    = (out ++ [TableHeader headers;
               TableRule (15 * Z.of_nat (List.length headers))],
       Some (UnboundLocalError "root"))))
  /\
  (bracket_step c bisection_x s = Raise e
   \/ bracket_step c regula_falsi_x s = Raise e
   \/ secant_step c s = Raise e
   \/ open_step c newton_logic d x = Raise e
   \/ open_step c fixed_point_logic tt x = Raise e
   \/ open_step c modified_secant_logic dl x = Raise e ->
   e = ZeroDivisionError).
Proof.
  split.
  - intros Hraise. split; intros Hmax; unfold solve_loop.
    + destruct (@cli_for_shape F num St step_func tol coeffs Hraise
                  (Z.to_nat max_iter) 1%Z state None
                  (out ++ [TableHeader headers;
                           TableRule (15 * Z.of_nat (List.length headers))])
                  ltac:(lia)) as (cells & last & -> & Hlen & Hclose).
      exists cells, last. rewrite <- app_assoc.
      split; [reflexivity|]. split; [lia | exact Hclose].
    + replace (Z.to_nat max_iter) with O by lia. reflexivity.
  - intros [H|[H|[H|[H|[H|H]]]]].
    + apply bracket_step_raises in H; auto.
    + apply bracket_step_raises in H; auto.
    + apply secant_step_raises in H; auto.
    + apply newton_step_raises in H; auto.
    + apply fixed_point_step_raises in H; auto.
    + apply modified_secant_step_raises in H; auto.
Qed.

End CliSteps.

(** ** Bisection in the two engines, for any arithmetic *)

Section BisectionAgreement.

Context {F : Type} {num : PyNum F}.
Variables (coeffs deriv_coeffs : list F) (delta tol : F).

Local Open Scope py_scope.

Hypothesis coeffs_nonempty : coeffs <> [].

Local Abbreviation web := (for_loop coeffs deriv_coeffs delta tol "bisection").
Local Abbreviation cli := (cli_for (bracket_step coeffs bisection_x) tol coeffs).

(** The loops of the two engines, started on the same bracket, build the
    same rows until the web loop is left; the terminal loop then ends the
    same way, unless the web loop refused the bracket. *)
Lemma bisection_loops_agree (todo : nat) :
  forall (n : Z) (s : locals) (r : option F) (out : list line),
    error_msg (web todo n s) = Some msg_not_bracketed
    \/ exists new_rows lines,
         iterations (web todo n s) = iterations s ++ new_rows
         /\ Forall2 row_as_line new_rows lines
         /\ error_msg (web todo n s) = error_msg s
         /\ ((exists x,
                converged (web todo n s) = true
                /\ root (web todo n s) = Some (VFloat x)
                /\ cli todo n (x0 s, x1 s) r out
                   = (out ++ lines
                          ++ [ConvergedLine x
                                (n + Z.of_nat (List.length lines) - 1)],
                      None))
             \/ (converged (web todo n s) = converged s
                 /\ List.length new_rows = todo
                 /\ cli todo n (x0 s, x1 s) r out
                    = after_loop (last_estimate r new_rows) (out ++ lines))).
Proof.
  induction todo as [|todo IH]; intros n s r out.
  - right. exists [], []. cbn [for_loop cli_for].
    rewrite !app_nil_r. split; [reflexivity|]. split; [constructor|].
    split; [reflexivity|]. right.
    split; [reflexivity|]. split; reflexivity.
  - cbn [for_loop cli_for]. unfold loop_body, dispatch.
    cbn [String.eqb Ascii.eqb Bool.eqb]. unfold bisection_branch.
    cbn [x0 x1 set_i].
    destruct (eval_poly coeffs (x0 s) * eval_poly coeffs (x1 s) >= of_int 0)
      eqn:Hcheck.
    { left. reflexivity. }
    set (xm := fquot (x0 s + x1 s) (of_int 2)).
    set (fxm := eval_poly coeffs xm).
    set (e := fabs (x1 s - x0 s)).
    set (row := dict_update [("iter"%string, VInt n)] _).
    assert (Hline : row_as_line row (RowLine n [x0 s; x1 s; xm; fxm; e])).
    { exists n, (x0 s), (x1 s), xm, fxm, e. repeat split. }
    assert (Hstep : bracket_step coeffs bisection_x (x0 s, x1 s)
              = Ok (if eval_poly coeffs (x0 s) * fxm < of_int 0
                    then (x0 s, xm) else (xm, x1 s),
                    [x0 s; x1 s; xm; fxm; e], e, xm)) by reflexivity.
    rewrite Hstep.
    assert (Htest : (e < tol) || f_val_below tol coeffs xm
                    = (fabs fxm < tol) || (e < tol)).
    { destruct coeffs as [|c cs]; [congruence|]. apply orb_comm. }
    rewrite Htest.
    destruct ((fabs fxm < tol) || (e < tol)).
    + right. exists [row], [RowLine n [x0 s; x1 s; xm; fxm; e]].
      split; [reflexivity|]. split; [repeat constructor; exact Hline|].
      split; [reflexivity|]. left. exists xm.
      split; [reflexivity|]. split; [reflexivity|].
      rewrite <- app_assoc. cbn [app List.length].
      replace (n + Z.of_nat 1 - 1)%Z with n by lia. reflexivity.
    + destruct (eval_poly coeffs (x0 s) * fxm < of_int 0).
      * destruct (IH (n + 1)%Z (append_row row (set_x1 xm (set_i (Some n) s)))
                    (Some xm) (out ++ [RowLine n [x0 s; x1 s; xm; fxm; e]]))
          as [Hfail | (new_rows & lines & Hrows & Hlines & Herr & Hend)];
          [left; exact Hfail|].
        right. exists (row :: new_rows),
                 (RowLine n [x0 s; x1 s; xm; fxm; e] :: lines).
        split; [rewrite Hrows; cbn; rewrite <- app_assoc; reflexivity|].
        split; [constructor; assumption|].
        split; [exact Herr|].
        destruct Hend as [(x & Hc & Hr & Hcli) | (Hc & Hlen & Hcli)].
        -- left. exists x. split; [exact Hc|]. split; [exact Hr|].
           cbn [x0 x1 append_row set_iterations set_x1 set_i] in Hcli.
           rewrite Hcli, <- !app_assoc. cbn [app List.length].
           replace (n + Z.of_nat (S (List.length lines)) - 1)%Z
             with (n + 1 + Z.of_nat (List.length lines) - 1)%Z by lia.
           reflexivity.
        -- right. split; [exact Hc|]. split; [cbn; lia|].
           cbn [x0 x1 append_row set_iterations set_x1 set_i] in Hcli.
           rewrite Hcli, <- !app_assoc. reflexivity.
      * destruct (IH (n + 1)%Z (append_row row (set_x0 xm (set_i (Some n) s)))
                    (Some xm) (out ++ [RowLine n [x0 s; x1 s; xm; fxm; e]]))
          as [Hfail | (new_rows & lines & Hrows & Hlines & Herr & Hend)];
          [left; exact Hfail|].
        right. exists (row :: new_rows),
                 (RowLine n [x0 s; x1 s; xm; fxm; e] :: lines).
        split; [rewrite Hrows; cbn; rewrite <- app_assoc; reflexivity|].
        split; [constructor; assumption|].
        split; [exact Herr|].
        destruct Hend as [(x & Hc & Hr & Hcli) | (Hc & Hlen & Hcli)].
        -- left. exists x. split; [exact Hc|]. split; [exact Hr|].
           cbn [x0 x1 append_row set_iterations set_x0 set_i] in Hcli.
           rewrite Hcli, <- !app_assoc. cbn [app List.length].
           replace (n + Z.of_nat (S (List.length lines)) - 1)%Z
             with (n + 1 + Z.of_nat (List.length lines) - 1)%Z by lia.
           reflexivity.
        -- right. split; [exact Hc|]. split; [cbn; lia|].
           cbn [x0 x1 append_row set_iterations set_x0 set_i] in Hcli.
           rewrite Hcli, <- !app_assoc. reflexivity.
Qed.

End BisectionAgreement.

Section BisectionAgreementResult.

Context {F : Type} {num : PyNum F}.

Local Open Scope py_scope.

Lemma last_estimate_snoc (r : option F) (rows : list (dict (F := F)))
    (row : dict) :
  last_estimate r (rows ++ [row]) = row_float "x_val" row.
Proof. unfold last_estimate. rewrite fold_left_app. reflexivity. Qed.

Lemma row_as_line_last (rows : list (dict (F := F))) (lines : list line) :
  Forall2 row_as_line rows lines ->
  rows <> [] ->
  exists row x,
    last_row rows = Ok row /\ row_float "x_val" row = Some x
    /\ forall r, last_estimate r rows = Some x.
Proof.
  intros Hall Hne.
  destruct (exists_last Hne) as (rows' & row & ->).
  apply Forall2_app_inv_l in Hall.
  destruct Hall as (l1 & l2 & _ & Hrow & _).
  inversion Hrow as [|? l ? ? Hline _]; subst.
  destruct Hline as (n & a & b & x & fx & e & _ & _ & _ & Hx & _).
  exists row, x. rewrite last_row_snoc. split; [reflexivity|].
  split; [exact Hx|]. intros r. rewrite last_estimate_snoc. exact Hx.
Qed.

(** The two engines on the same bisection problem. *)
Lemma bisection_agreement (coeffs : list F) (a b delta tol : F)
    (max_iter : Z) (rows : list dict) (root : option value) (conv : bool)
    (msg : option string) :
  coeffs <> [] ->
  solve_method "bisection" coeffs a b delta tol max_iter
    = Ok (rows, root, conv, msg) ->
  msg <> Some msg_not_bracketed ->
  exists lines x,
    Forall2 row_as_line rows lines
    /\ root = Some (VFloat x)
    /\ cli_bisection coeffs a b tol max_iter
       = ([Banner "Bisection"; PolyLine coeffs; TableHeader bracket_headers;
           TableRule 75]
            ++ lines
            ++ [if conv then ConvergedLine x (Z.of_nat (List.length rows))
                else MaxIterLine x], None).
Proof.
  intros Hne Hsolve Hmsg.
  assert (Hmax : (1 <= max_iter)%Z).
  { destruct (Z.le_gt_cases max_iter 0) as [Hle|Hgt]; [|lia].
    rewrite solve_not_entered in Hsolve by exact Hle. discriminate Hsolve. }
  pose proof (solve_trace _ _ _ _ _ _ _ Hsolve) as Hrows.
  unfold cli_bisection, bracketing_method, solve_loop.
  unfold run_loop in Hrows. cbn [String.eqb Ascii.eqb Bool.eqb] in Hrows.
  destruct (eval_poly coeffs a * eval_poly coeffs b >= of_int 0) eqn:Hcheck.
  { exfalso. apply Hmsg. revert Hsolve. unfold solve_method, run_loop.
    destruct (Z.to_nat max_iter) as [|todo] eqn:E; [lia|].
    rewrite loop_not_bracketed by (auto; exact Hcheck).
    cbn. intros H. injection H as _ _ _ <-. reflexivity. }
  destruct (@bisection_loops_agree F num coeffs [] delta tol Hne
              (Z.to_nat max_iter) 1%Z (init_locals a b) None
              ([Banner "Bisection"; PolyLine coeffs]
                 ++ [TableHeader bracket_headers;
                     TableRule (15 * Z.of_nat (List.length bracket_headers))]))
    as [Hfail | (new_rows & lines & Hnew & Hlines & Herr & Hend)].
  - exfalso. apply Hmsg.
    rewrite solve_after_break in Hsolve.
    + injection Hsolve as _ _ _ <-. unfold run_loop.
      cbn [String.eqb Ascii.eqb Bool.eqb]. exact Hfail.
    + right. unfold run_loop. cbn [String.eqb Ascii.eqb Bool.eqb].
      rewrite Hfail. reflexivity.
  - cbn [init_locals iterations app] in Hnew. rewrite Hnew in Hrows.
    subst new_rows.
    destruct Hend as [(x & Hc & Hr & Hcli) | (Hc & Hlen & Hcli)].
    + rewrite solve_after_break in Hsolve
        by (left; unfold run_loop; cbn [String.eqb Ascii.eqb Bool.eqb];
            exact Hc).
      injection Hsolve as _ Hroot Hconv _.
      unfold run_loop in Hroot, Hconv.
      cbn [String.eqb Ascii.eqb Bool.eqb] in Hroot, Hconv.
      exists lines, x. split; [exact Hlines|].
      split; [congruence|].
      cbn [x0 x1 init_locals] in Hcli.
      etransitivity; [exact Hcli|].
      rewrite <- Hconv, Hc, (Forall2_length Hlines).
      replace (1 + Z.of_nat (List.length lines) - 1)%Z
        with (Z.of_nat (List.length lines)) by lia.
      reflexivity.
    + assert (Hne' : rows <> []).
      { intros E. rewrite E in Hlen. cbn in Hlen. lia. }
      destruct (row_as_line_last Hlines Hne') as (row & x & Hlast & Hx & Hest).
      revert Hsolve. unfold solve_method, run_loop.
      cbn [String.eqb Ascii.eqb Bool.eqb].
      rewrite Hc, Herr, Hnew. cbn [init_locals converged error_msg negb
                                    no_error andb app].
      rewrite Hlast, (dict_item_float _ _ Hx).
      intros H. injection H as <- <-.
      exists lines, x. split; [exact Hlines|]. split; [reflexivity|].
      cbn [x0 x1 init_locals] in Hcli.
      etransitivity; [exact Hcli|]. rewrite Hest. reflexivity.
Qed.

(** X9.  Bisection gives the same table in both engines.  When the web
    engine returns a result other than the not-bracketed failure, the
    terminal engine, on the same non-empty coefficients, bracket, tolerance
    and iteration count, prints one table row per row of the web trace,
    with the same number and the same five cells, and then the convergence
    line, or the max-iterations line, with the root of the web result. *)
Theorem bisection_engines_agree (coeffs : list F) (a b delta tol : F)
    (max_iter : Z) (rows : list dict) (root : option value) (conv : bool)
    (msg : option string) :
  coeffs <> [] ->
  solve_method "bisection" coeffs a b delta tol max_iter
    = Ok (rows, root, conv, msg) ->
  msg <> Some msg_not_bracketed ->
  exists lines x,
    Forall2 row_as_line rows lines
    /\ root = Some (VFloat x)
    /\ cli_bisection coeffs a b tol max_iter
       = ([Banner "Bisection"; PolyLine coeffs; TableHeader bracket_headers;
           TableRule 75]
            ++ lines
            ++ [if conv then ConvergedLine x (Z.of_nat (List.length rows))
                else MaxIterLine x], None).
Proof. apply bisection_agreement. Qed.

End BisectionAgreementResult.

(** ** Polynomials *)

Section DerivativeLists.

Context {F : Type} {num : PyNum F}.

Local Open Scope py_scope.

(** The derivative list of the terminal engine, one coefficient at a
    time. *)
Lemma cli_derivative_cons (c : F) (cs : list F) :
  cs <> [] ->
  cli_derivative (c :: cs)
  = c * of_int (Z.of_nat (List.length cs)) :: cli_derivative cs.
Proof.
  intros Hne. unfold cli_derivative.
  destruct cs as [|c1 cs]; [congruence|].
  cbn [List.length Nat.sub]. rewrite !Nat.sub_0_r.
  rewrite <- cons_seq, <- seq_shift. cbn [map nth]. rewrite map_map.
  f_equal.
  - do 2 f_equal. lia.
  - apply map_ext. intros k. cbn [nth]. do 2 f_equal. lia.
Qed.

Lemma cli_derivative_length (coeffs : list F) :
  List.length (cli_derivative coeffs) = Nat.pred (List.length coeffs).
Proof.
  unfold cli_derivative. rewrite length_map, length_seq. lia.
Qed.

(** From degree one on, the two engines build the same list. *)
Lemma derivatives_agree (coeffs : list F) :
  (2 <= List.length coeffs)%nat ->
  get_poly_derivative coeffs = cli_derivative coeffs.
Proof.
  intros Hlen.
  destruct (List.length coeffs) as [|n] eqn:E; [lia|].
  rewrite (get_poly_derivative_map coeffs E) by lia.
  rewrite (cli_derivative_map coeffs E). reflexivity.
Qed.

End DerivativeLists.

Section ExactPolynomials.

Local Open Scope Q_scope.

Lemma Qpower_succ (x : Q) (n : nat) :
  x ^ Z.of_nat (S n) == x * x ^ Z.of_nat n.
Proof.
  destruct n as [|n]; [cbn; ring|].
  change (Z.of_nat (S (S n))) with (Z.pos (Pos.succ (Pos.of_succ_nat n))).
  change (Z.of_nat (S n)) with (Z.pos (Pos.of_succ_nat n)).
  cbn [Qpower]. unfold Qpower_positive.
  apply (Ring_theory.pow_pos_succ Q_Setoid Qmult_comp Qmult_assoc).
Qed.

Lemma horner_from (coeffs : list Q) (x : Q) :
  forall acc,
    fold_left (fun r c => fadd (fmul r x) c) coeffs acc
    == acc * x ^ Z.of_nat (List.length coeffs) + poly_value coeffs x.
Proof.
  induction coeffs as [|c cs IH]; intros acc.
  - cbn. ring.
  - cbn [fold_left]. rewrite IH. cbn [poly_value List.length].
    rewrite Qpower_succ.
    change (fadd (fmul acc x) c) with (acc * x + c). ring.
Qed.

Lemma horner (coeffs : list Q) (x : Q) :
  eval_poly coeffs x == poly_value coeffs x.
Proof.
  unfold eval_poly. rewrite horner_from.
  change (of_int 0) with 0. ring.
Qed.

Lemma cli_derivative_value (coeffs : list Q) (x : Q) :
  poly_value (cli_derivative coeffs) x == deriv_value coeffs x.
Proof.
  induction coeffs as [|c cs IH]; [reflexivity|].
  destruct cs as [|c1 cs].
  - change (0 == 0 * c * 1 + 0). ring.
  - assert (Hne : c1 :: cs <> []) by discriminate.
    revert IH Hne. generalize (c1 :: cs). clear c1 cs. intros cs IH Hne.
    rewrite cli_derivative_cons by exact Hne.
    cbn [poly_value deriv_value]. rewrite IH, cli_derivative_length.
    change (fmul c (of_int (Z.of_nat (List.length cs))))
      with (c * inject_Z (Z.of_nat (List.length cs))).
    ring.
Qed.

(** X10.  Horner's loop computes the polynomial.  In exact arithmetic
    [eval_poly] returns the sum of the terms [c * x^k], the coefficients
    being listed from the highest degree down. *)
Theorem eval_poly_is_polynomial (coeffs : list Q) (x : Q) :
  eval_poly coeffs x == poly_value coeffs x.
Proof. apply horner. Qed.

(** X11.  The derivative lists are those of the derivative.  In exact
    arithmetic the coefficients [get_poly_derivative] returns and those the
    Newton entry of the terminal engine builds both evaluate, at every
    point, to the derivative of the polynomial; this includes a constant
    and the empty list, where the two lists differ and both evaluate to
    zero. *)
Theorem derivative_is_derivative (coeffs : list Q) (x : Q) :
  eval_poly (get_poly_derivative coeffs) x == deriv_value coeffs x
  /\ eval_poly (cli_derivative coeffs) x == deriv_value coeffs x.
Proof.
  split.
  - destruct (Nat.le_gt_cases 2 (List.length coeffs)) as [Hlen|Hlen].
    + rewrite derivatives_agree by exact Hlen.
      rewrite horner. apply cli_derivative_value.
    + destruct coeffs as [|c [|c1 cs]]; [| |cbn in Hlen; lia].
      * reflexivity.
      * change (0 * x + 0 == 0 * c * 1 + 0). ring.
  - rewrite horner. apply cli_derivative_value.
Qed.

End ExactPolynomials.

(** ** Failure messages *)

Ltac message_kept_or_listed :=
  first
    [ left; reflexivity
    | right; split; [reflexivity|];
      eexists; split; [reflexivity|]; vm_compute; auto ].

Section WebMessages.

Context {F : Type} {num : PyNum F}.
Variables (coeffs deriv_coeffs : list F) (delta tol : F).

Local Open Scope py_scope.

Local Abbreviation pass := (loop_body coeffs deriv_coeffs delta tol).
Local Abbreviation loop := (for_loop coeffs deriv_coeffs delta tol).

Ltac pass_ends :=
  split_tests; intros H; injection H as <- <-;
  try match goal with
    | D : py_div _ _ = Raise _ |- _ => apply py_div_raises in D; subst
    end;
  message_kept_or_listed.

(** A pass keeps the message, or leaves the loop with one of the messages
    of its method. *)
Lemma loop_body_message (method : string) (n : Z) (s s' : locals) (br : bool) :
  pass method n s = (s', br) ->
  error_msg s' = error_msg s
  \/ (br = true
      /\ exists m, error_msg s' = Some m /\ In m (failure_messages method)).
Proof.
  unfold loop_body, dispatch.
  destruct (String.eqb method "bisection") eqn:M1; [method_is M1|].
  { unfold bisection_branch. pass_ends. }
  destruct (String.eqb method "regula_falsi") eqn:M2; [method_is M2|].
  { unfold regula_falsi_branch. pass_ends. }
  destruct (String.eqb method "secant") eqn:M3; [method_is M3|].
  { unfold secant_branch. pass_ends. }
  destruct (String.eqb method "newton") eqn:M4; [method_is M4|].
  { unfold newton_branch. pass_ends. }
  destruct (String.eqb method "fixed_point") eqn:M5; [method_is M5|].
  { unfold fixed_point_branch. pass_ends. }
  destruct (String.eqb method "modified_secant") eqn:M6; [method_is M6|].
  { unfold modified_secant_branch. pass_ends. }
  intros H. injection H as <- <-. left. reflexivity.
Qed.

Lemma loop_message (method : string) (a b : F) (max_iter : Z) :
  error_msg (loop method (Z.to_nat max_iter) 1%Z (init_locals a b)) = None
  \/ exists m,
       error_msg (loop method (Z.to_nat max_iter) 1%Z (init_locals a b))
       = Some m
       /\ In m (failure_messages method).
Proof.
  apply for_loop_rule with (last := Z.max 0 max_iter)
    (Post := fun s =>
       error_msg s = None
       \/ exists m, error_msg s = Some m /\ In m (failure_messages method))
    (Inv := fun (_ : Z) s => error_msg s = None).
  - intros n s s' br _ Hinv Hpass.
    destruct (loop_body_message _ _ _ Hpass) as [Hkeep | [-> Hset]].
    + rewrite Hinv in Hkeep. destruct br; [left|]; exact Hkeep.
    + right. exact Hset.
  - intros s Hinv. left. exact Hinv.
  - lia.
  - reflexivity.
Qed.

End WebMessages.

Section WebMessageProperties.

Context {F : Type} {num : PyNum F}.

Local Open Scope py_scope.

(** X12.  The messages of a result, by method.  A result of the web engine
    carries no message, the max-iterations message, or one of the failure
    messages of its method: the not-bracketed message for the bracketing
    methods, the division-by-zero message of the [except] clause for Regula
    Falsi, the message of its own zero test for Secant, Newton and Modified
    Secant, and none for Fixed Point. *)
Theorem messages_by_method (method : string) (coeffs : list F)
    (a b delta tol : F) (max_iter : Z)
    (rows : list dict) (root : option value) (conv : bool) (m : string) :
  solve_method method coeffs a b delta tol max_iter
    = Ok (rows, root, conv, Some m) ->
  m = msg_max_iter \/ In m (failure_messages method).
Proof.
  unfold solve_method, run_loop.
  set (deriv := if String.eqb method "newton" then _ else _).
  destruct (loop_message coeffs deriv delta tol method a b max_iter)
    as [Hnone | (m' & Hsome & Hin)].
  - rewrite Hnone.
    destruct (negb _ && no_error None).
    + destruct (last_row _) as [row|]; [|discriminate].
      destruct (dict_item "x_val" row); [|discriminate].
      intros H. injection H as _ _ _ <-. left. reflexivity.
    + intros H. discriminate H.
  - rewrite Hsome.
    destruct (negb _ && no_error (Some m')).
    + destruct (last_row _) as [row|]; [|discriminate].
      destruct (dict_item "x_val" row); [|discriminate].
      intros H. injection H as _ _ _ <-. left. reflexivity.
    + intros H. injection H as _ _ _ <-. right. exact Hin.
Qed.

End WebMessageProperties.

Section ExactMessages.

Variables (coeffs deriv_coeffs : list Q) (delta tol : Q).

Local Open Scope Q_scope.

Local Abbreviation pass := (loop_body coeffs deriv_coeffs delta tol).
Local Abbreviation loop := (for_loop coeffs deriv_coeffs delta tol).

Lemma exact_regula_falsi_message (n : Z) (s s' : locals) (br : bool) :
  pass "regula_falsi" n s = (s', br) ->
  error_msg s' = error_msg s
  \/ (br = true /\ error_msg s' = Some msg_not_bracketed).
Proof.
  unfold loop_body, dispatch. cbn [String.eqb Ascii.eqb Bool.eqb].
  unfold regula_falsi_branch.
  destruct (fge _ _) eqn:T.
  - intros H. injection H as <- <-. right. split; reflexivity.
  - rewrite (chord_defined _ _ _ T).
    split_tests; intros H; injection H as <- <-; left; reflexivity.
Qed.

Lemma exact_loop_body_message (method : string) (n : Z) (s s' : locals)
    (br : bool) :
  pass method n s = (s', br) ->
  error_msg s' = error_msg s
  \/ (br = true
      /\ exists m, error_msg s' = Some m
                   /\ In m (failure_messages method)
                   /\ m <> msg_calculation).
Proof.
  intros Hpass.
  destruct (String.eqb method "regula_falsi") eqn:M.
  - method_is M.
    destruct (exact_regula_falsi_message _ _ Hpass) as [H | [-> H]];
      [left; exact H|].
    right. split; [reflexivity|]. exists msg_not_bracketed.
    split; [exact H|]. split; [vm_compute; auto | discriminate].
  - destruct (loop_body_message _ _ _ _ _ _ _ Hpass)
      as [H | (-> & m & Hm & Hin)]; [left; exact H|].
    right. split; [reflexivity|]. exists m. split; [exact Hm|].
    split; [exact Hin|].
    revert Hin. unfold failure_messages. rewrite M.
    destruct (String.eqb method "bisection"),
      (String.eqb method "secant"), (String.eqb method "newton"),
      (String.eqb method "modified_secant"); cbn;
      intros Hin; repeat destruct Hin as [<-|Hin]; try contradiction;
      discriminate.
Qed.

Lemma exact_loop_message (method : string) (a b : Q) (max_iter : Z) :
  error_msg (loop method (Z.to_nat max_iter) 1%Z (init_locals a b)) = None
  \/ exists m,
       error_msg (loop method (Z.to_nat max_iter) 1%Z (init_locals a b))
       = Some m
       /\ In m (failure_messages method) /\ m <> msg_calculation.
Proof.
  apply for_loop_rule with (last := Z.max 0 max_iter)
    (Post := fun s =>
       error_msg s = None
       \/ exists m, error_msg s = Some m
                    /\ In m (failure_messages method)
                    /\ m <> msg_calculation)
    (Inv := fun (_ : Z) s => error_msg s = None).
  - intros n s s' br _ Hinv Hpass.
    destruct (exact_loop_body_message _ _ _ Hpass) as [Hkeep | [-> Hset]].
    + rewrite Hinv in Hkeep. destruct br; [left|]; exact Hkeep.
    + right. exact Hset.
  - intros s Hinv. left. exact Hinv.
  - lia.
  - reflexivity.
Qed.

End ExactMessages.

(** X13.  In exact arithmetic the [except] clause is dead code.  The one
    division of the web engine that no zero test guards is that of Regula
    Falsi, and its denominator [fb - fa] is not zero once [fa * fb < 0]
    holds; so no result carries a message that starts with
    ["Calculation Error"]. *)
Theorem exact_no_calculation_error (method : string) (coeffs : list Q)
    (a b delta tol : Q) (max_iter : Z)
    (rows : list dict) (root : option value) (conv : bool) (m : string) :
  solve_method method coeffs a b delta tol max_iter
    = Ok (rows, root, conv, Some m) ->
  String.prefix "Calculation Error" m = false.
Proof.
  unfold solve_method, run_loop.
  set (deriv := if String.eqb method "newton" then _ else _).
  destruct (exact_loop_message coeffs deriv delta tol method a b max_iter)
    as [Hnone | (m' & Hsome & Hin & Hcalc)].
  - rewrite Hnone.
    destruct (negb _ && no_error None).
    + destruct (last_row _) as [row|]; [|discriminate].
      destruct (dict_item "x_val" row); [|discriminate].
      intros H. injection H as _ _ _ <-. reflexivity.
    + intros H. discriminate H.
  - rewrite Hsome.
    destruct (negb _ && no_error (Some m')).
    + destruct (last_row _) as [row|]; [|discriminate].
      destruct (dict_item "x_val" row); [|discriminate].
      intros H. injection H as _ _ _ <-. reflexivity.
    + intros H. injection H as _ _ _ <-.
      revert Hin Hcalc. unfold failure_messages.
      destruct (String.eqb method "bisection"),
        (String.eqb method "regula_falsi"),
        (String.eqb method "secant"), (String.eqb method "newton"),
        (String.eqb method "modified_secant"); cbn;
        intros H Hcalc; repeat destruct H as [<-|H]; try contradiction;
        reflexivity.
Qed.

(** ** The chain of rows *)

Section WebChain.

Context {F : Type} {num : PyNum F}.
Variables (coeffs deriv_coeffs : list F) (delta tol : F).

Local Open Scope py_scope.

Local Abbreviation pass := (loop_body coeffs deriv_coeffs delta tol).
Local Abbreviation loop := (for_loop coeffs deriv_coeffs delta tol).

(** What the variables hold after a row, in terms of the row. *)
Local Abbreviation state_follows method s row :=
  (forall next, row_inputs method next = state_inputs method s ->
                follows method row next).

Ltac chain_step :=
  split_tests; intros H; injection H as <- <-;
  first
    [ left; split; reflexivity
    | right; eexists; split; [reflexivity|];
      split; [reflexivity|];
      intros Hbr; try discriminate Hbr;
      intros next Hnext; unfold follows;
      cbn [bracketing existsb String.eqb Ascii.eqb Bool.eqb orb];
      first [ exact Hnext | left; exact Hnext | right; exact Hnext ] ].

(** A pass of a known method adds no row, or a row that shows the
    variables it read and from which the variables it leaves follow. *)
Lemma loop_body_chain (method : string) (n : Z) (s s' : locals) (br : bool) :
  known_method method = true ->
  pass method n s = (s', br) ->
  (iterations s' = iterations s /\ br = true)
  \/ exists row,
       iterations s' = iterations s ++ [row]
       /\ row_inputs method row = state_inputs method s
       /\ (br = false -> state_follows method s' row).
Proof.
  intros Hknown. unfold loop_body, dispatch.
  destruct (String.eqb method "bisection") eqn:M1; [method_is M1|].
  { unfold bisection_branch. chain_step. }
  destruct (String.eqb method "regula_falsi") eqn:M2; [method_is M2|].
  { unfold regula_falsi_branch. chain_step. }
  destruct (String.eqb method "secant") eqn:M3; [method_is M3|].
  { unfold secant_branch. chain_step. }
  destruct (String.eqb method "newton") eqn:M4; [method_is M4|].
  { unfold newton_branch. chain_step. }
  destruct (String.eqb method "fixed_point") eqn:M5; [method_is M5|].
  { unfold fixed_point_branch. chain_step. }
  destruct (String.eqb method "modified_secant") eqn:M6; [method_is M6|].
  { unfold modified_secant_branch. chain_step. }
  exfalso. revert Hknown. unfold known_method. cbn.
  rewrite M1, M2, M3, M4, M5, M6. discriminate.
Qed.

(** The rows the loop of a known method leaves start from the arguments
    and follow one another. *)
Lemma loop_chain (method : string) (a b : F) (max_iter : Z) :
  known_method method = true ->
  (forall r,
     nth_error (iterations (loop method (Z.to_nat max_iter) 1%Z
                              (init_locals a b))) 0 = Some r ->
     starts method a b r)
  /\ (forall j r1 r2,
        nth_error (iterations (loop method (Z.to_nat max_iter) 1%Z
                                 (init_locals a b))) j = Some r1 ->
        nth_error (iterations (loop method (Z.to_nat max_iter) 1%Z
                                 (init_locals a b))) (S j) = Some r2 ->
        follows method r1 r2).
Proof.
  intros Hknown.
  set (first_ok := fun rows : list (dict (F := F)) =>
         forall r, nth_error rows 0 = Some r -> starts method a b r).
  set (chain_ok := fun rows : list (dict (F := F)) =>
         forall j r1 r2, nth_error rows j = Some r1 ->
                         nth_error rows (S j) = Some r2 ->
                         follows method r1 r2).
  apply for_loop_rule with (last := Z.max 0 max_iter)
    (Post := fun s => first_ok (iterations s) /\ chain_ok (iterations s))
    (Inv := fun (_ : Z) s =>
       first_ok (iterations s) /\ chain_ok (iterations s)
       /\ match last_row (iterations s) with
          | Ok r => state_follows method s r
          | Raise _ =>
              state_inputs method s
              = if bracketing method || String.eqb method "secant"
                then (Some a, Some b) else (Some a, None)
          end).
  - intros n s s' br _ (Hfirst & Hchain & Hstate) Hpass.
    destruct (@loop_body_chain method n s s' br Hknown Hpass)
      as [[Hsame ->] | (row & Hrows & Hread & Hnext)].
    { rewrite Hsame. split; assumption. }
    assert (Hfirst' : first_ok (iterations s')).
    { intros r. rewrite Hrows.
      destruct (iterations s) as [|r0 rows] eqn:E.
      - cbn. intros Hr. injection Hr as <-.
        unfold starts. rewrite Hread. exact Hstate.
      - cbn. intros Hr. apply Hfirst. exact Hr. }
    assert (Hchain' : chain_ok (iterations s')).
    { intros j r1 r2. rewrite Hrows. intros H1 H2.
      destruct (Nat.lt_ge_cases (S j) (List.length (iterations s)))
        as [Hlt|Hge].
      - rewrite nth_error_app1 in H1, H2 by lia.
        apply (Hchain j); assumption.
      - assert (Hj : List.length (iterations s) = S j).
        { assert (S j < List.length (iterations s ++ [row]))%nat
            by (apply nth_error_Some; congruence).
          rewrite length_app in *. cbn in *. lia. }
        rewrite nth_error_app1 in H1 by lia.
        rewrite nth_error_app2 in H2 by lia.
        rewrite Hj, Nat.sub_diag in H2. cbn in H2. injection H2 as <-.
        assert (Hne : iterations s <> []).
        { intros E. rewrite E in Hj. discriminate Hj. }
        destruct (last_row_nth Hne) as (r & Hlast & Hnth).
        rewrite Hj in Hnth. cbn in Hnth. rewrite Nat.sub_0_r in Hnth.
        rewrite Hlast in Hstate.
        assert (r = r1) by congruence. subst r.
        apply Hstate, Hread. }
    destruct br; [split; assumption|].
    split; [exact Hfirst'|]. split; [exact Hchain'|].
    rewrite Hrows, last_row_snoc. apply Hnext. reflexivity.
  - intros s (Hfirst & Hchain & _). split; assumption.
  - lia.
  - split; [intros r Hr; discriminate Hr|].
    split; [intros [|j] r1 r2 Hr; discriminate Hr|].
    cbn. unfold state_inputs. cbn [init_locals x0 x1 curr_x].
    reflexivity.
Qed.

End WebChain.

Section WebChainProperties.

Context {F : Type} {num : PyNum F}.

Local Open Scope py_scope.

(** A call that returns named one of the six methods. *)
Lemma returns_known (method : string) (coeffs : list F) (a b delta tol : F)
    (max_iter : Z) (r : Result) :
  solve_method method coeffs a b delta tol max_iter = Ok r ->
  known_method method = true.
Proof.
  intros Hsolve. destruct (known_method method) eqn:Hk; [reflexivity|].
  destruct (Z.le_gt_cases max_iter 0) as [Hle|Hgt].
  - rewrite solve_not_entered in Hsolve by exact Hle. discriminate Hsolve.
  - rewrite solve_unknown_method in Hsolve by (auto; lia).
    discriminate Hsolve.
Qed.

(** X15.  The rows of a trace form a chain.  In a result of the web
    engine, the first row shows the arguments of the call as its inputs,
    and every later row continues from the row before it: a bracketing
    method keeps one end of the bracket and moves the other to the last
    estimate, Secant takes the last current point and the last estimate as
    its two points, and Newton, Fixed Point and Modified Secant go on from
    the last estimate. *)
Theorem trace_is_chained (method : string) (coeffs : list F)
    (a b delta tol : F) (max_iter : Z)
    (rows : list dict) (root : option value) (conv : bool)
    (msg : option string) :
  solve_method method coeffs a b delta tol max_iter
    = Ok (rows, root, conv, msg) ->
  (forall r, nth_error rows 0 = Some r -> starts method a b r)
  /\ (forall j r1 r2,
        nth_error rows j = Some r1 -> nth_error rows (S j) = Some r2 ->
        follows method r1 r2).
Proof.
  intros Hsolve.
  pose proof (returns_known _ _ _ _ _ _ _ Hsolve) as Hknown.
  rewrite (solve_trace _ _ _ _ _ _ _ Hsolve). unfold run_loop.
  apply loop_chain, Hknown.
Qed.

End WebChainProperties.

(** ** The numbers of a row *)

Section WebFormulas.

Context {F : Type} {num : PyNum F}.
Variables (coeffs deriv_coeffs : list F) (delta tol : F).

Local Open Scope py_scope.

Local Abbreviation pass := (loop_body coeffs deriv_coeffs delta tol).
Local Abbreviation loop := (for_loop coeffs deriv_coeffs delta tol).

Lemma py_div_value (u v x : F) : py_div u v = Ok x -> x = fquot u v.
Proof.
  unfold py_div. destruct (v == of_int 0); intros H; [discriminate H|].
  injection H as <-. reflexivity.
Qed.

Ltac computed_row s :=
  split_tests; intros H; injection H as <- <-;
  try match goal with
    | D : py_div _ _ = Ok _ |- _ => apply py_div_value in D; subst
    end;
  first
    [ left; reflexivity
    | right; eexists; split; [reflexivity|];
      first [ exists (x0 s), (x1 s); split; [reflexivity|]
            | exists (curr_x s), (curr_x s); split; [reflexivity|] ];
      repeat (constructor; [reflexivity|]); constructor ].

(** A pass of a known method adds no row, or a row with the numbers of the
    method. *)
Lemma loop_body_computed (method : string) (n : Z) (s s' : locals)
    (br : bool) :
  known_method method = true ->
  pass method n s = (s', br) ->
  iterations s' = iterations s
  \/ exists row, iterations s' = iterations s ++ [row]
                 /\ row_computed method coeffs deriv_coeffs delta row.
Proof.
  intros Hknown. unfold loop_body, dispatch.
  destruct (String.eqb method "bisection") eqn:M1; [method_is M1|].
  { unfold bisection_branch. computed_row s. }
  destruct (String.eqb method "regula_falsi") eqn:M2; [method_is M2|].
  { unfold regula_falsi_branch. computed_row s. }
  destruct (String.eqb method "secant") eqn:M3; [method_is M3|].
  { unfold secant_branch. computed_row s. }
  destruct (String.eqb method "newton") eqn:M4; [method_is M4|].
  { unfold newton_branch. computed_row s. }
  destruct (String.eqb method "fixed_point") eqn:M5; [method_is M5|].
  { unfold fixed_point_branch. computed_row s. }
  destruct (String.eqb method "modified_secant") eqn:M6; [method_is M6|].
  { unfold modified_secant_branch. computed_row s. }
  exfalso. revert Hknown. unfold known_method. cbn.
  rewrite M1, M2, M3, M4, M5, M6. discriminate.
Qed.

Lemma loop_rows_computed (method : string) (a b : F) (max_iter : Z) :
  known_method method = true ->
  Forall (row_computed method coeffs deriv_coeffs delta)
    (iterations (loop method (Z.to_nat max_iter) 1%Z (init_locals a b))).
Proof.
  intros Hknown.
  apply for_loop_rule with (last := Z.max 0 max_iter)
    (Post := fun s =>
       Forall (row_computed method coeffs deriv_coeffs delta) (iterations s))
    (Inv := fun (_ : Z) s =>
       Forall (row_computed method coeffs deriv_coeffs delta) (iterations s)).
  - intros n s s' br _ Hinv Hpass.
    assert (Hs' : Forall (row_computed method coeffs deriv_coeffs delta)
                    (iterations s')).
    { destruct (@loop_body_computed method n s s' br Hknown Hpass)
        as [-> | (row & -> & Hrow)]; [exact Hinv|].
      apply Forall_app. split; [exact Hinv|]. constructor; [exact Hrow|].
      constructor. }
    destruct br; exact Hs'.
  - auto.
  - lia.
  - constructor.
Qed.

End WebFormulas.

Section WebFormulaProperties.

Context {F : Type} {num : PyNum F}.

Local Open Scope py_scope.

(** Only Newton reads the derivative coefficients. *)
Lemma formulas_derivative (method : string) (coeffs d1 d2 : list F)
    (delta p q : F) :
  String.eqb method "newton" = false ->
  formulas method coeffs d1 delta p q = formulas method coeffs d2 delta p q.
Proof.
  intros M. unfold formulas. rewrite M. reflexivity.
Qed.

(** X16.  Every row holds the numbers of its method.  In a result of the
    web engine each row shows, for the inputs it lists, the estimate its
    method computes from them, the error, and under ['f_x'] the function
    value at the estimate for Bisection, Regula Falsi and Secant but at
    the current point for Newton and Modified Secant; Newton rows hold the
    value of the coefficients of [get_poly_derivative] under ['df_x']. *)
Theorem rows_are_computed (method : string) (coeffs : list F)
    (a b delta tol : F) (max_iter : Z)
    (rows : list dict) (root : option value) (conv : bool)
    (msg : option string) :
  solve_method method coeffs a b delta tol max_iter
    = Ok (rows, root, conv, msg) ->
  Forall (row_computed method coeffs (get_poly_derivative coeffs) delta) rows.
Proof.
  intros Hsolve.
  pose proof (returns_known _ _ _ _ _ _ _ Hsolve) as Hknown.
  rewrite (solve_trace _ _ _ _ _ _ _ Hsolve). unfold run_loop.
  destruct (String.eqb method "newton") eqn:M.
  - apply loop_rows_computed, Hknown.
  - eapply Forall_impl; [|apply loop_rows_computed, Hknown].
    intros row (p & q & Hin & Hall). exists p, q. split; [exact Hin|].
    rewrite (@formulas_derivative method coeffs (get_poly_derivative coeffs)
               [] delta p q M).
    exact Hall.
Qed.

End WebFormulaProperties.

(** ** A larger iteration count *)

Section WebMoreIterations.

Context {F : Type} {num : PyNum F}.
Variables (coeffs deriv_coeffs : list F) (delta tol : F).

Local Open Scope py_scope.

Local Abbreviation pass := (loop_body coeffs deriv_coeffs delta tol).
Local Abbreviation loop := (for_loop coeffs deriv_coeffs delta tol).

(** The loop only appends rows. *)
Lemma loop_appends (method : string) (todo : nat) :
  forall n s, exists more,
    iterations (loop method todo n s) = iterations s ++ more.
Proof.
  induction todo as [|todo IH]; intros n s.
  - exists []. cbn. rewrite app_nil_r. reflexivity.
  - cbn [for_loop]. destruct (pass method n s) as [s' br] eqn:E.
    assert (Hs' : exists more, iterations s' = iterations s ++ more).
    { destruct (@loop_body_shape F num coeffs deriv_coeffs delta tol
                  method n s s' br E) as [-> | (row & -> & _)].
      - exists []. rewrite app_nil_r. reflexivity.
      - exists [row]. reflexivity. }
    destruct br; [exact Hs'|].
    destruct Hs' as (m1 & H1). destruct (IH (n + 1)%Z s') as (m2 & H2).
    exists (m1 ++ m2). rewrite H2, H1, app_assoc. reflexivity.
Qed.

(** A loop with [k] more iterations: it goes on from where the shorter one
    ran out, or it is left where the shorter one was left. *)
Lemma loop_extend (method : string) (k todo : nat) :
  forall n s,
    converged s = false -> error_msg s = None ->
    (converged (loop method todo n s) = false
     /\ error_msg (loop method todo n s) = None
     /\ loop method (todo + k) n s
        = loop method k (n + Z.of_nat todo)%Z (loop method todo n s))
    \/ ((converged (loop method todo n s) = true
         \/ no_error (error_msg (loop method todo n s)) = false)
        /\ loop method (todo + k) n s = loop method todo n s).
Proof.
  induction todo as [|todo IH]; intros n s Hc He.
  - left. cbn [for_loop Nat.add].
    replace (n + Z.of_nat 0)%Z with n by lia. auto.
  - cbn [for_loop Nat.add].
    pose proof (loop_body_outcome coeffs deriv_coeffs delta tol method n s)
      as Hout.
    destruct (pass method n s) as [s' br].
    inversion Hout as
      [ m Hk Hm1 Hm2 Heq
      | x row Hiter Hx Hstop Heq
      | row s1 Hiter Hrow Hits Hroot Hconv Herr Hidx Heq ]; subst.
    + right. split; [|reflexivity]. right. apply no_error_some, Hm1.
    + right. split; [|reflexivity]. left. reflexivity.
    + replace (n + Z.of_nat (S todo))%Z with (n + 1 + Z.of_nat todo)%Z
        by lia.
      apply IH; cbn; congruence.
Qed.

End WebMoreIterations.

Section WebMoreIterationsProperties.

Context {F : Type} {num : PyNum F}.

Local Open Scope py_scope.

(** X17.  Raising the iteration count keeps what was found.  When a call
    of the web engine returns, the call with a larger [max_iter] and the
    same other arguments returns too, and its trace starts with the trace
    of the first call; unless the first call ran out of iterations, the
    two results are the same. *)
Theorem more_iterations (method : string) (coeffs : list F)
    (a b delta tol : F) (max_iter more_iter : Z)
    (rows : list dict) (root : option value) (conv : bool)
    (msg : option string) :
  solve_method method coeffs a b delta tol max_iter
    = Ok (rows, root, conv, msg) ->
  (max_iter <= more_iter)%Z ->
  exists rows' root' conv' msg',
    solve_method method coeffs a b delta tol more_iter
      = Ok (rows', root', conv', msg')
    /\ (exists more, rows' = rows ++ more)
    /\ (msg <> Some msg_max_iter ->
        rows' = rows /\ root' = root /\ conv' = conv /\ msg' = msg).
Proof.
  intros Hsolve Hle.
  pose proof (returns_known _ _ _ _ _ _ _ Hsolve) as Hknown.
  assert (Hmax : (1 <= max_iter)%Z).
  { destruct (Z.le_gt_cases max_iter 0) as [H0|H0]; [|lia].
    rewrite solve_not_entered in Hsolve by exact H0. discriminate Hsolve. }
  set (deriv := if String.eqb method "newton"
                then get_poly_derivative coeffs else []).
  assert (Hk : Z.to_nat more_iter
               = (Z.to_nat max_iter + Z.to_nat (more_iter - max_iter))%nat)
    by lia.
  destruct (@loop_extend F num coeffs deriv delta tol method
              (Z.to_nat (more_iter - max_iter)) (Z.to_nat max_iter) 1%Z
              (init_locals a b) eq_refl eq_refl)
    as [(Hc & He & Hloop) | (Hbreak & Hloop)].
  - destruct (@solve_known_returns F num method coeffs a b delta tol
                more_iter Hknown ltac:(lia)) as ([[[rows' root'] conv'] msg']
                                                 & Hsolve').
    exists rows', root', conv', msg'. split; [exact Hsolve'|].
    split.
    + rewrite (solve_trace _ _ _ _ _ _ _ Hsolve').
      rewrite (solve_trace _ _ _ _ _ _ _ Hsolve).
      unfold run_loop. fold deriv. rewrite Hk, Hloop.
      apply loop_appends.
    + intros Hmsg. exfalso. apply Hmsg.
      revert Hsolve. unfold solve_method, run_loop. fold deriv.
      rewrite Hc, He. cbn [negb no_error andb].
      destruct (last_row _) as [row|]; [|discriminate].
      destruct (dict_item "x_val" row); [|discriminate].
      intros H. injection H as _ _ _ <-. reflexivity.
  - exists rows, root, conv, msg. split.
    + rewrite <- Hsolve. unfold solve_method, run_loop. fold deriv.
      rewrite Hk, Hloop. reflexivity.
    + split; [exists []; rewrite app_nil_r; reflexivity|]. auto.
Qed.

End WebMoreIterationsProperties.

(** ** The error column of Regula Falsi *)

Section WebRegulaFalsi.

Context {F : Type} {num : PyNum F}.
Variables (coeffs deriv_coeffs : list F) (delta tol : F).

Local Open Scope py_scope.

Local Abbreviation pass :=
  (loop_body coeffs deriv_coeffs delta tol "regula_falsi").
Local Abbreviation loop :=
  (for_loop coeffs deriv_coeffs delta tol "regula_falsi").

(** A pass adds no row and leaves the loop, or adds a row whose error is
    the bracket width in the first iteration and the distance to the
    estimate kept in [prev_x] later on; [prev_x] then takes the estimate of
    the row. *)
Lemma regula_falsi_pass (n : Z) (s s' : locals) (br : bool) :
  pass n s = (s', br) ->
  (iterations s' = iterations s /\ br = true)
  \/ exists row x,
       iterations s' = iterations s ++ [row]
       /\ row_float "x_val" row = Some x
       /\ row_float "error" row
          = Some (if (n >? 1)%Z then fabs (x - prev_x s)
                  else fabs (x1 s - x0 s))
       /\ (br = false -> prev_x s' = x).
Proof.
  unfold loop_body, dispatch. cbn [String.eqb Ascii.eqb Bool.eqb].
  unfold regula_falsi_branch.
  destruct (fge _ _); [intros H; injection H as <- <-; left; auto|].
  destruct (py_div _ _) as [x|e];
    [|intros H; injection H as <- <-; left; auto].
  destruct (flt (fabs _) tol).
  - intros H. injection H as <- <-. right. eexists _, x.
    split; [reflexivity|]. split; [reflexivity|]. split; [reflexivity|].
    discriminate.
  - destruct (flt (fmul _ _) _); intros H; injection H as <- <-; right;
      eexists _, x; (split; [reflexivity|]); (split; [reflexivity|]);
      (split; [reflexivity|]); reflexivity.
Qed.

Lemma regula_falsi_loop_errors (a b : F) (max_iter : Z) :
  (forall r,
     nth_error (iterations (loop (Z.to_nat max_iter) 1%Z (init_locals a b)))
       0 = Some r ->
     row_float "error" r = Some (fabs (b - a)))
  /\ (forall j r1 r2 u v,
        nth_error (iterations (loop (Z.to_nat max_iter) 1%Z
                                 (init_locals a b))) j = Some r1 ->
        nth_error (iterations (loop (Z.to_nat max_iter) 1%Z
                                 (init_locals a b))) (S j) = Some r2 ->
        row_float "x_val" r1 = Some u -> row_float "x_val" r2 = Some v ->
        row_float "error" r2 = Some (fabs (v - u))).
Proof.
  set (first_ok := fun rows : list (dict (F := F)) =>
         forall r, nth_error rows 0 = Some r ->
                   row_float "error" r = Some (fabs (b - a))).
  set (chain_ok := fun rows : list (dict (F := F)) =>
         forall j r1 r2 u v,
           nth_error rows j = Some r1 -> nth_error rows (S j) = Some r2 ->
           row_float "x_val" r1 = Some u -> row_float "x_val" r2 = Some v ->
           row_float "error" r2 = Some (fabs (v - u))).
  apply for_loop_rule with (last := Z.max 0 max_iter)
    (Post := fun s => first_ok (iterations s) /\ chain_ok (iterations s))
    (Inv := fun n s =>
       Z.of_nat (List.length (iterations s)) = (n - 1)%Z
       /\ first_ok (iterations s) /\ chain_ok (iterations s)
       /\ (n = 1%Z -> x0 s = a /\ x1 s = b)
       /\ match last_row (iterations s) with
          | Ok r => row_float "x_val" r = Some (prev_x s)
          | Raise _ => True
          end).
  - intros n s s' br _ (Hlen & Hfirst & Hchain & Hstart & Hprev) Hpass.
    destruct (regula_falsi_pass _ _ Hpass)
      as [[Hsame ->] | (row & x & Hrows & Hx & Herr & Hnext)].
    { rewrite Hsame. split; assumption. }
    assert (Hfirst' : first_ok (iterations s')).
    { intros r. rewrite Hrows.
      destruct (iterations s) as [|r0 rows] eqn:E.
      - cbn. intros Hr. injection Hr as <-.
        cbn in Hlen. assert (n = 1%Z) by lia. subst n.
        destruct (Hstart eq_refl) as [<- <-]. exact Herr.
      - cbn. intros Hr. apply Hfirst. exact Hr. }
    assert (Hchain' : chain_ok (iterations s')).
    { intros j r1 r2 u v. rewrite Hrows. intros H1 H2 Hu Hv.
      destruct (Nat.lt_ge_cases (S j) (List.length (iterations s)))
        as [Hlt|Hge].
      - rewrite nth_error_app1 in H1, H2 by lia.
        apply (Hchain j r1 r2); assumption.
      - assert (Hj : List.length (iterations s) = S j).
        { assert (S j < List.length (iterations s ++ [row]))%nat
            by (apply nth_error_Some; congruence).
          rewrite length_app in *. cbn in *. lia. }
        rewrite nth_error_app1 in H1 by lia.
        rewrite nth_error_app2 in H2 by lia.
        rewrite Hj, Nat.sub_diag in H2. cbn in H2. injection H2 as <-.
        assert (Hne : iterations s <> []).
        { intros E. rewrite E in Hj. discriminate Hj. }
        destruct (last_row_nth Hne) as (r & Hlast & Hnth).
        rewrite Hj in Hnth. cbn in Hnth. rewrite Nat.sub_0_r in Hnth.
        rewrite Hlast in Hprev.
        assert (r = r1) by congruence. subst r.
        assert (u = prev_x s) by congruence.
        assert (v = x) by congruence. subst u v.
        rewrite Herr.
        destruct (Z.gtb_spec n 1); [reflexivity | lia]. }
    destruct br; [split; assumption|].
    split; [rewrite Hrows, length_app; cbn; lia|].
    split; [exact Hfirst'|]. split; [exact Hchain'|].
    split; [lia|].
    rewrite Hrows, last_row_snoc, (Hnext eq_refl). exact Hx.
  - intros s (_ & Hfirst & Hchain & _). split; assumption.
  - lia.
  - split; [reflexivity|].
    split; [intros r Hr; discriminate Hr|].
    split; [intros [|j] r1 r2 u v Hr; discriminate Hr|].
    split; [auto | exact I].
Qed.

End WebRegulaFalsi.

Section WebRegulaFalsiProperties.

Context {F : Type} {num : PyNum F}.

Local Open Scope py_scope.

(** X18.  The error column of Regula Falsi.  In a Regula Falsi result of
    the web engine the error of the first row is the width [abs(b - a)] of
    the bracket passed in, and the error of every later row is the
    distance between its estimate and the estimate of the row before
    it. *)
Theorem regula_falsi_errors (coeffs : list F) (a b delta tol : F)
    (max_iter : Z) (rows : list dict) (root : option value) (conv : bool)
    (msg : option string) :
  solve_method "regula_falsi" coeffs a b delta tol max_iter
    = Ok (rows, root, conv, msg) ->
  (forall r, nth_error rows 0 = Some r ->
             row_float "error" r = Some (fabs (b - a)))
  /\ (forall j r1 r2 u v,
        nth_error rows j = Some r1 -> nth_error rows (S j) = Some r2 ->
        row_float "x_val" r1 = Some u -> row_float "x_val" r2 = Some v ->
        row_float "error" r2 = Some (fabs (v - u))).
Proof.
  intros Hsolve.
  rewrite (solve_trace _ _ _ _ _ _ _ Hsolve). unfold run_loop.
  apply regula_falsi_loop_errors.
Qed.

End WebRegulaFalsiProperties.

(** ** The terminal engine without coefficients *)

Section CliNoCoefficients.

Context {F : Type} {num : PyNum F}.

Local Open Scope py_scope.

(** What the lemmas below need of zero: [0.0 * 0.0 >= 0], [0.0 - 0.0 == 0]
    and [0.0 == 0]. *)
Hypothesis zero_product : (of_int 0 * of_int 0 >= of_int 0) = true.
Hypothesis zero_difference : (of_int 0 - of_int 0 == of_int 0) = true.
Hypothesis zero_is_zero : (of_int 0 == of_int 0) = true.

Lemma bracketing_no_coefficients (name : string)
    (calc_x : F -> F -> F -> F -> result F) (a b tol : F) (max_iter : Z) :
  bracketing_method name calc_x [] a b tol max_iter
  = ([Banner name; PolyLine []; NotBracketedLine], None).
Proof.
  unfold bracketing_method.
  change (eval_poly [] a) with (of_int 0).
  change (eval_poly [] b) with (of_int 0).
  rewrite zero_product. reflexivity.
Qed.

Lemma secant_no_coefficients (x0 x1 tol : F) (max_iter : Z) :
  (1 <= max_iter)%Z ->
  secant_wrapper [] x0 x1 tol max_iter
  = ([Banner "Secant Method"; TableHeader secant_headers; TableRule 60;
      DivZeroLine], None).
Proof.
  intros Hmax. unfold secant_wrapper, solve_loop.
  destruct (Z.to_nat max_iter) as [|todo] eqn:E; [lia|].
  cbn [cli_for]. unfold secant_step, bind, py_div.
  change (eval_poly [] x0) with (of_int 0).
  change (eval_poly [] x1) with (of_int 0).
  rewrite zero_difference. reflexivity.
Qed.

Lemma newton_no_coefficients (x0 tol : F) (max_iter : Z) :
  (1 <= max_iter)%Z ->
  cli_newton [] x0 tol max_iter
  = ([Banner "Newton-Raphson"; PolyLine []; TableHeader open_headers;
      TableRule 45; DivZeroLine], None).
Proof.
  intros Hmax. unfold cli_newton, open_method, solve_loop.
  destruct (Z.to_nat max_iter) as [|todo] eqn:E; [lia|].
  cbn [cli_for]. unfold open_step, newton_logic, bind, py_div.
  change (eval_poly (cli_derivative []) x0) with (of_int 0).
  rewrite zero_is_zero. reflexivity.
Qed.

Lemma modified_secant_no_coefficients (delta x0 tol : F) (max_iter : Z) :
  (1 <= max_iter)%Z ->
  cli_modified_secant delta [] x0 tol max_iter
  = ([Banner "Modified Secant"; PolyLine []; TableHeader open_headers;
      TableRule 45; DivZeroLine], None).
Proof.
  intros Hmax. unfold cli_modified_secant, open_method, solve_loop.
  destruct (Z.to_nat max_iter) as [|todo] eqn:E; [lia|].
  cbn [cli_for]. unfold open_step, modified_secant_logic, bind, py_div.
  change (eval_poly [] (x0 + delta * x0)) with (of_int 0).
  change (eval_poly [] x0) with (of_int 0).
  rewrite zero_difference. reflexivity.
Qed.

End CliNoCoefficients.

(** X19.  The terminal engine on an empty coefficient list, on floats.
    The two bracketing methods print the not-bracketed line and no table,
    whatever the bracket; Secant, Newton-Raphson and Modified Secant, with
    at least one iteration to run, print the table header and the
    division-by-zero line, whatever the starting points, the tolerance and
    the delta. *)
Theorem cli_no_coefficients (a b delta tol : float) (max_iter : Z) :
  cli_bisection [] a b tol max_iter
  = ([Banner "Bisection"; PolyLine []; NotBracketedLine], None)
  /\ cli_regula_falsi [] a b tol max_iter
     = ([Banner "Regula Falsi"; PolyLine []; NotBracketedLine], None)
  /\ ((1 <= max_iter)%Z ->
      secant_wrapper [] a b tol max_iter
      = ([Banner "Secant Method"; TableHeader secant_headers; TableRule 60;
          DivZeroLine], None)
      /\ cli_newton [] a tol max_iter
         = ([Banner "Newton-Raphson"; PolyLine []; TableHeader open_headers;
             TableRule 45; DivZeroLine], None)
      /\ cli_modified_secant delta [] a tol max_iter
         = ([Banner "Modified Secant"; PolyLine []; TableHeader open_headers;
             TableRule 45; DivZeroLine], None)).
Proof.
  split; [apply bracketing_no_coefficients; reflexivity|].
  split; [apply bracketing_no_coefficients; reflexivity|].
  intros Hmax.
  split; [apply secant_no_coefficients; [reflexivity | exact Hmax]|].
  split; [apply newton_no_coefficients; [reflexivity | exact Hmax]|].
  apply modified_secant_no_coefficients; [reflexivity | exact Hmax].
Qed.

(** ** The properties above on concrete runs *)

Ltac solved_as call tac :=
  let v := eval vm_compute in call in
  lazymatch v with
  | Ok (?rows, ?root, ?conv, ?msg) =>
      let H := fresh "Hrun" in
      assert (H : call = Ok (rows, root, conv, msg))
        by (vm_compute; reflexivity);
      tac rows root conv msg H
  end.

Section ExtraRuns.

Local Open Scope float_scope.

Local Set Warnings "-inexact-float".

(** X2, on Newton for [x^2 - 2] from 1 with tolerance 1/8: the result is
    converged, without a message, and its root is the estimate of the last
    row. *)
Lemma result_outcomes_witness :
  exists rows x row,
    solve_method "newton" [1; 0; -2] 1 0 0.5 0.125 10
      = Ok (rows, Some (VFloat x), true, None)
    /\ last_row rows = Ok row
    /\ row_float "x_val" row = Some x.
Proof.
  solved_as (solve_method "newton" [1; 0; -2] 1 0 0.5 0.125 10)
    ltac:(fun rows root conv msg H =>
      destruct (@result_outcomes float binary64 "newton" [1; 0; -2] 1 0 0.5
                  0.125 10%Z rows root conv msg H) as (_ & _ & Hroot);
      lazymatch root with
      | Some (VFloat ?x) =>
          destruct (Hroot (VFloat x) eq_refl) as (row & y & Hy & Hlast & Hx);
          injection Hy as <-;
          exists rows, x, row; split; [exact H|]; split; assumption
      end).
Defined.

(** X3, on Bisection for [x^2 - 2] over [0, 2] with tolerance 1/4: the
    third row holds the index 3. *)
Lemma rows_numbered_witness :
  exists rows root conv msg row,
    solve_method "bisection" [1; 0; -2] 0 2 0.5 0.25 10
      = Ok (rows, root, conv, msg)
    /\ nth_error rows 2 = Some row
    /\ dict_get "iter" row = Some (VInt 3).
Proof.
  solved_as (solve_method "bisection" [1; 0; -2] 0 2 0.5 0.25 10)
    ltac:(fun rows root conv msg H =>
      let r := eval vm_compute in (nth 2 rows []) in
      exists rows, root, conv, msg, r;
      split; [exact H|]; split; [reflexivity|];
      apply (@rows_numbered float binary64 "bisection" [1; 0; -2] 0 2 0.5
               0.25 10%Z rows root conv msg 2%nat r H eq_refl)).
Defined.

(** X4, on the Newton run of X2: the error of the last row is below the
    tolerance. *)
Lemma converged_is_sound_witness :
  exists rows root msg row x e,
    solve_method "newton" [1; 0; -2] 1 0 0.5 0.125 10
      = Ok (rows, root, true, msg)
    /\ last_row rows = Ok row
    /\ row_float "x_val" row = Some x /\ row_float "error" row = Some e
    /\ root = Some (VFloat x)
    /\ (e < 0.125)%py = true.
Proof.
  solved_as (solve_method "newton" [1; 0; -2] 1 0 0.5 0.125 10)
    ltac:(fun rows root conv msg H =>
      destruct (@converged_is_sound float binary64 "newton" [1; 0; -2] 1 0
                  0.5 0.125 10%Z rows root msg H)
        as (row & x & e & Hlast & Hx & He & Hroot & [[_ Hstop]|[Hf _]]);
      [ exists rows, root, msg, row, x, e; repeat split; assumption
      | discriminate Hf ]).
Defined.

(** X5, on Secant for [x^2 - 2] from 1 and 2. *)
Lemma rows_have_method_columns_witness :
  exists rows root conv msg,
    solve_method "secant" [1; 0; -2] 1 2 0.5 0.125 10
      = Ok (rows, root, conv, msg)
    /\ rows <> []
    /\ Forall (row_shape "secant") rows.
Proof.
  solved_as (solve_method "secant" [1; 0; -2] 1 2 0.5 0.125 10)
    ltac:(fun rows root conv msg H =>
      exists rows, root, conv, msg;
      split; [exact H|]; split; [discriminate|];
      apply (@rows_have_method_columns float binary64 "secant" [1; 0; -2]
               1 2 0.5 0.125 10%Z rows root conv msg H)).
Defined.

(** X6: Secant for [x^2 - 2] from -1 and 1, where [f] takes the same
    value, and Modified Secant from 0. *)
Lemma zero_denominator_stops_witness :
  (solve_method "secant" [1; 0; -2] (-1) 1 0.5 0.125 10
   = Ok ([], None, false, Some msg_secant)
   /\ secant_wrapper [1; 0; -2] (-1) 1 0.125 10
      = ([Banner "Secant Method"; TableHeader secant_headers; TableRule 60;
          DivZeroLine], None))
  /\ (solve_method "modified_secant" [1; 0; -2] 0 0 0.5 0.125 10
      = Ok ([], None, false, Some msg_mod_secant)
      /\ cli_modified_secant 0.5 [1; 0; -2] 0 0.125 10
         = ([Banner "Modified Secant"; PolyLine [1; 0; -2];
             TableHeader open_headers; TableRule 45; DivZeroLine], None)).
Proof.
  destruct (@zero_denominator_stops float binary64 [1; 0; -2] (-1) 1 0.5
              0.125 10%Z ltac:(lia)) as [Hsecant _].
  destruct (@zero_denominator_stops float binary64 [1; 0; -2] 0 0 0.5
              0.125 10%Z ltac:(lia)) as [_ Hmod].
  split; [apply Hsecant | apply Hmod]; reflexivity.
Defined.

(** X7: Secant for [x^2 - 2] from 1 and 1, Modified Secant from 3 with
    [delta] = 0 and from 0 with [delta] = 1/2. *)
Lemma degenerate_starts_fail_witness :
  (solve_method "secant" [1; 0; -2] 1 1 0.5 0.125 10
   = Ok ([], None, false, Some msg_secant)
   /\ secant_wrapper [1; 0; -2] 1 1 0.125 10
      = ([Banner "Secant Method"; TableHeader secant_headers; TableRule 60;
          DivZeroLine], None))
  /\ (solve_method "modified_secant" [1; 0; -2] 3 0 0 0.125 10
      = Ok ([], None, false, Some msg_mod_secant)
      /\ cli_modified_secant 0 [1; 0; -2] 3 0.125 10
         = ([Banner "Modified Secant"; PolyLine [1; 0; -2];
             TableHeader open_headers; TableRule 45; DivZeroLine], None))
  /\ (solve_method "modified_secant" [1; 0; -2] 0 0 0.5 0.125 10
      = Ok ([], None, false, Some msg_mod_secant)
      /\ cli_modified_secant 0.5 [1; 0; -2] 0 0.125 10
         = ([Banner "Modified Secant"; PolyLine [1; 0; -2];
             TableHeader open_headers; TableRule 45; DivZeroLine], None)).
Proof.
  destruct (@degenerate_starts_fail [1; 0; -2] 1 1 0.5 0.125 10%Z
              ltac:(lia) eq_refl) as [Hsecant _].
  destruct (@degenerate_starts_fail [1; 0; -2] 3 0 0 0.125 10%Z
              ltac:(lia) eq_refl) as [_ Hdelta].
  destruct (@degenerate_starts_fail [1; 0; -2] 0 0 0.5 0.125 10%Z
              ltac:(lia) eq_refl) as [_ Hzero].
  split; [apply Hsecant; reflexivity|].
  split; [apply Hdelta; left; split; reflexivity|].
  apply Hzero. right. left. split; reflexivity.
Defined.

(** Without a finite [f(x0)] the runs go on: Secant for [x^2] from 2^700
    and 2^700 has the infinite value [f(x0)], a difference [f(x1) - f(x0)]
    that is not a number, hence not [== 0], and rows of nans up to the last
    iteration. *)
Example secant_overflow_goes_on :
  is_finite (eval_poly [1; 0; 0] 0x1p700) = false
  /\ exists r1 r2 x,
       solve_method "secant" [1; 0; 0] 0x1p700 0x1p700 0.5 0.125 2
       = Ok ([r1; r2], Some (VFloat x), false, Some msg_max_iter)
       /\ is_nan x = true.
Proof.
  split; [vm_compute; reflexivity|].
  do 3 eexists. split; vm_compute; reflexivity.
Qed.

(** X8, on the Secant table for [x^2 - 2] from 1 and 2: with ten
    iterations it ends in a closing line, with none it raises. *)
Lemma solve_loop_prints_witness :
  (exists cells last,
     secant_wrapper [1; 0; -2] 1 2 0.125 10
     = ([Banner "Secant Method"; TableHeader secant_headers; TableRule 60]
          ++ number_rows 1 cells ++ [last], None)
     /\ closes 1 10 (List.length cells) last)
  /\ secant_wrapper [1; 0; -2] 1 2 0.125 0
     = ([Banner "Secant Method"; TableHeader secant_headers; TableRule 60],
        Some (UnboundLocalError "root")).
Proof.
  assert (Hraise : forall st e',
            secant_step [1; 0; -2] st = Raise e' -> e' = ZeroDivisionError).
  { intros st e' H.
    destruct (@solve_loop_prints float binary64 (float * float)%type
                (secant_step [1; 0; -2]) 0.125 [1; 0; -2] secant_headers
                (1, 2) 10%Z [Banner "Secant Method"]
                [1; 0; -2] [] 0 0 st e') as [_ Hsteps].
    apply Hsteps. right. right. left. exact H. }
  destruct (@solve_loop_prints float binary64 (float * float)%type
              (secant_step [1; 0; -2]) 0.125 [1; 0; -2] secant_headers
              (1, 2) 10%Z [Banner "Secant Method"]
              [1; 0; -2] [] 0 0 (1, 2) ZeroDivisionError) as [Hten _].
  destruct (@solve_loop_prints float binary64 (float * float)%type
              (secant_step [1; 0; -2]) 0.125 [1; 0; -2] secant_headers
              (1, 2) 0%Z [Banner "Secant Method"]
              [1; 0; -2] [] 0 0 (1, 2) ZeroDivisionError) as [Hnone _].
  destruct (Hten Hraise) as [Hrun _].
  destruct (Hnone Hraise) as [_ Hstop].
  split.
  - destruct (Hrun ltac:(lia)) as (cells & last & Heq & _ & Hclose).
    exists cells, last. split; [exact Heq | exact Hclose].
  - apply Hstop. lia.
Defined.

(** X9, on Bisection for [x^2 - 2] over [0, 2] with tolerance 1/4: both
    engines stop at the fourth row. *)
Lemma bisection_engines_agree_witness :
  exists rows lines x,
    solve_method "bisection" [1; 0; -2] 0 2 0.5 0.25 10
      = Ok (rows, Some (VFloat x), true, None)
    /\ Forall2 row_as_line rows lines
    /\ cli_bisection [1; 0; -2] 0 2 0.25 10
       = ([Banner "Bisection"; PolyLine [1; 0; -2];
           TableHeader bracket_headers; TableRule 75]
            ++ lines ++ [ConvergedLine x 4], None).
Proof.
  solved_as (solve_method "bisection" [1; 0; -2] 0 2 0.5 0.25 10)
    ltac:(fun rows root conv msg H =>
      destruct (@bisection_engines_agree float binary64 [1; 0; -2] 0 2 0.5
                  0.25 10%Z rows root conv msg ltac:(discriminate) H
                  ltac:(discriminate))
        as (lines & x & Hlines & Hroot & Hcli);
      injection Hroot as <-;
      exists rows, lines; eexists;
      split; [exact H|]; split; [exact Hlines | exact Hcli]).
Defined.

(** X12, on Newton for [x^2] at 0. *)
Lemma messages_by_method_witness :
  solve_method "newton" [1; 0; 0] 0 0 0.5 0.125 10
    = Ok ([], None, false, Some msg_newton)
  /\ (msg_newton = msg_max_iter \/ In msg_newton (failure_messages "newton")).
Proof.
  assert (H : solve_method "newton" [1; 0; 0] 0 0 0.5 0.125 10
              = Ok ([], None, false, Some msg_newton))
    by (vm_compute; reflexivity).
  split; [exact H|].
  exact (@messages_by_method float binary64 "newton" [1; 0; 0] 0 0 0.5 0.125
           10%Z [] None false msg_newton H).
Defined.

(** X13, in exact arithmetic, on Regula Falsi for [x^2 - 2] over [0, 2]
    with two iterations. *)
Lemma exact_no_calculation_error_witness :
  exists rows root conv m,
    solve_method "regula_falsi" [1; 0; -2]%Q 0%Q 2%Q (1 # 2)%Q (1 # 8)%Q 2
      = Ok (rows, root, conv, Some m)
    /\ String.prefix "Calculation Error" m = false.
Proof.
  solved_as (solve_method "regula_falsi" [1; 0; -2]%Q 0%Q 2%Q (1 # 2)%Q
               (1 # 8)%Q 2)
    ltac:(fun rows root conv msg H =>
      lazymatch msg with
      | Some ?m =>
          exists rows, root, conv, m; split; [exact H|];
          exact (@exact_no_calculation_error "regula_falsi" [1; 0; -2]%Q
                   0%Q 2%Q (1 # 2)%Q (1 # 8)%Q 2%Z rows root conv m H)
      end).
Defined.

(** X15, on Secant for [x^2 - 2] from 1 and 2: the first row reads the
    two guesses and the second continues from the first. *)
Lemma trace_is_chained_witness :
  exists rows root conv msg r1 r2,
    solve_method "secant" [1; 0; -2] 1 2 0.5 0.125 10
      = Ok (rows, root, conv, msg)
    /\ nth_error rows 0 = Some r1 /\ nth_error rows 1 = Some r2
    /\ starts "secant" 1 2 r1
    /\ follows "secant" r1 r2.
Proof.
  solved_as (solve_method "secant" [1; 0; -2] 1 2 0.5 0.125 10)
    ltac:(fun rows root conv msg H =>
      let r1 := eval vm_compute in (nth 0 rows []) in
      let r2 := eval vm_compute in (nth 1 rows []) in
      destruct (@trace_is_chained float binary64 "secant" [1; 0; -2] 1 2
                  0.5 0.125 10%Z rows root conv msg H) as [Hfirst Hnext];
      exists rows, root, conv, msg, r1, r2;
      split; [exact H|]; split; [reflexivity|]; split; [reflexivity|];
      split; [apply Hfirst; reflexivity
             | apply (Hnext 0%nat); reflexivity]).
Defined.

(** X16, on the Newton run of X2. *)
Lemma rows_are_computed_witness :
  exists rows root conv msg,
    solve_method "newton" [1; 0; -2] 1 0 0.5 0.125 10
      = Ok (rows, root, conv, msg)
    /\ rows <> []
    /\ Forall (row_computed "newton" [1; 0; -2]
                 (get_poly_derivative [1; 0; -2]) 0.5) rows.
Proof.
  solved_as (solve_method "newton" [1; 0; -2] 1 0 0.5 0.125 10)
    ltac:(fun rows root conv msg H =>
      exists rows, root, conv, msg;
      split; [exact H|]; split; [discriminate|];
      apply (@rows_are_computed float binary64 "newton" [1; 0; -2] 1 0 0.5
               0.125 10%Z rows root conv msg H)).
Defined.

(** X17, on the Bisection run of X9: twenty iterations give the result of
    ten. *)
Lemma more_iterations_witness :
  exists rows root conv msg,
    solve_method "bisection" [1; 0; -2] 0 2 0.5 0.25 10
      = Ok (rows, root, conv, msg)
    /\ solve_method "bisection" [1; 0; -2] 0 2 0.5 0.25 20
       = Ok (rows, root, conv, msg).
Proof.
  solved_as (solve_method "bisection" [1; 0; -2] 0 2 0.5 0.25 10)
    ltac:(fun rows root conv msg H =>
      destruct (@more_iterations float binary64 "bisection" [1; 0; -2] 0 2
                  0.5 0.25 10%Z 20%Z rows root conv msg H ltac:(lia))
        as (rows' & root' & conv' & msg' & Hmore & _ & Hsame);
      destruct (Hsame ltac:(discriminate)) as (-> & -> & -> & ->);
      exists rows, root, conv, msg; split; [exact H | exact Hmore]).
Defined.

(** X18, on Regula Falsi for [x^2 - 2] over [0, 2]: the first error is
    the width 2, the second the distance between the first two
    estimates. *)
Lemma regula_falsi_errors_witness :
  exists rows root conv msg r1 r2 u v,
    solve_method "regula_falsi" [1; 0; -2] 0 2 0.5 0.125 10
      = Ok (rows, root, conv, msg)
    /\ nth_error rows 0 = Some r1 /\ nth_error rows 1 = Some r2
    /\ row_float "x_val" r1 = Some u /\ row_float "x_val" r2 = Some v
    /\ row_float "error" r1 = Some (fabs (2 - 0)%py)
    /\ row_float "error" r2 = Some (fabs (v - u)%py).
Proof.
  solved_as (solve_method "regula_falsi" [1; 0; -2] 0 2 0.5 0.125 10)
    ltac:(fun rows root conv msg H =>
      let r1 := eval vm_compute in (nth 0 rows []) in
      let r2 := eval vm_compute in (nth 1 rows []) in
      let u := eval vm_compute in (row_float "x_val" r1) in
      let v := eval vm_compute in (row_float "x_val" r2) in
      lazymatch u with
      | Some ?u =>
          lazymatch v with
          | Some ?v =>
              destruct (@regula_falsi_errors float binary64 [1; 0; -2] 0 2
                          0.5 0.125 10%Z rows root conv msg H)
                as [Hfirst Hnext];
              exists rows, root, conv, msg, r1, r2, u, v;
              split; [exact H|];
              split; [reflexivity|]; split; [reflexivity|];
              split; [reflexivity|]; split; [reflexivity|];
              split; [apply Hfirst; reflexivity
                     | apply (Hnext 0%nat r1 r2); reflexivity]
          end
      end).
Defined.

(** X19, from 1 and 2 with ten iterations. *)
Lemma cli_no_coefficients_witness :
  cli_bisection [] 1 2 0.125 10
  = ([Banner "Bisection"; PolyLine []; NotBracketedLine], None)
  /\ secant_wrapper [] 1 2 0.125 10
     = ([Banner "Secant Method"; TableHeader secant_headers; TableRule 60;
         DivZeroLine], None)
  /\ cli_newton [] 1 0.125 10
     = ([Banner "Newton-Raphson"; PolyLine []; TableHeader open_headers;
         TableRule 45; DivZeroLine], None).
Proof.
  destruct (cli_no_coefficients 1 2 0.5 0.125 10) as (Hb & _ & Hloop).
  destruct (Hloop ltac:(lia)) as (Hs & Hn & _).
  split; [exact Hb|]. split; [exact Hs | exact Hn].
Defined.

End ExtraRuns.
